(** * fast-jwt: the worker pool and its shared-buffer protocol

    A shallow embedding of [src/workers.js]: the framing functions
    [writeBuffer] and [readBuffer], the error reconstruction
    [deserializeWorkerError], the pool life cycle ([startWorkers],
    [stopWorkers]), the acquisition of a worker ([getAvailableWorker]), the
    worker-side message handler ([handleWorker]) and the two offloading
    entry points ([createSignatureWithWorker], [verifySignatureWithWorker]).

    JavaScript values are modelled by the inductive [value]; a string is
    represented by the bytes of its UTF-8 encoding (a Rocq [string]), so
    that [Buffer.from(s)] and [buf.toString('utf-8')] are the two
    conversions between [string] and [list byte]. *)

From Stdlib Require Import ZArith QArith Qround Lia.
From Stdlib Require Import Strings.String Strings.Byte.
From stdpp Require Import base list pretty.

Local Open Scope Z_scope.
Local Open Scope nat_scope.

(** ** JavaScript values *)

Inductive value : Type :=
| VUndefined
| VNull
| VBool (b : bool)
| VNum (n : Z)
| VStr (s : string)
| VBuf (b : list byte)
| VObj (tag : nat).

(** [!v] is [negb (truthy v)]; a Buffer or any other object is truthy. *)
Definition truthy (v : value) : bool :=
  match v with
  | VUndefined | VNull => false
  | VBool b => b
  | VNum n => negb (n =? 0)%Z
  | VStr s => negb (String.length s =? 0)
  | VBuf _ | VObj _ => true
  end.

(** [a || b] *)
Definition js_or (a b : value) : value := if truthy a then a else b.

(** A JavaScript number that is either an integer or NaN ([None]). *)
Definition num : Type := option Z.

(** [a + b] where [b] may be [undefined] ([None]): the sum is NaN then. *)
Definition num_add (a : num) (b : option Z) : num :=
  match a, b with
  | Some x, Some y => Some (x + y)%Z
  | _, _ => None
  end.

(** [a !== b] on numbers: NaN differs from everything, itself included. *)
Definition num_strict_neq (a b : num) : bool :=
  match a, b with
  | Some x, Some y => negb (x =? y)%Z
  | _, _ => true
  end.

(** ** Buffers *)

(** [Buffer.from(s)] for a string [s], and [buf.toString('utf-8')]. *)
Definition Buffer_from (s : string) : list byte := list_byte_of_string s.
Definition toString_utf8 (b : list byte) : string := string_of_list_byte b.

(** [source.copy(target, targetStart)]: copies as many bytes of [source] as
    fit into [target] from [targetStart] on, and returns the updated target
    with the number of bytes copied; nothing is copied when [targetStart]
    is not inside the target. *)
Definition copy (source target : list byte) (targetStart : nat) : list byte * nat :=
  if length target <=? targetStart then (target, 0)
  else
    let nb := length source `min` (length target - targetStart) in
    (take targetStart target ++ take nb source ++ drop (targetStart + nb) target, nb).

(** The offset adjustment of [buf.slice]: NaN counts as 0, a negative offset
    is relative to the end, and the result is clamped to the buffer. *)
Definition adjustOffset (offset : num) (len : Z) : Z :=
  match offset with
  | None => 0
  | Some o => if (o <? 0)%Z then Z.max 0 (o + len) else Z.min o len
  end.

(** [buf.slice(start, end)].  The result of the source is a view on the same
    memory; every caller of [readBuffer] consumes it before the region is
    written again, so the view is represented by the bytes it shows. *)
Definition slice (buf : list byte) (start end_ : num) : list byte :=
  let len := Z.of_nat (length buf) in
  let s := adjustOffset start len in
  let e := adjustOffset end_ len in
  if (s <? e)%Z then take (Z.to_nat (e - s)) (drop (Z.to_nat s) buf) else [].

(** ** The arrays of field lengths

    [writeBuffer] and [readBuffer] index their [sizesArray] argument and
    nothing else.  The pool passes an [Int32Array] over ten 32-bit cells;
    a plain array works as well (its cells are numbers, [None] is a hole or
    [undefined]). *)

Inductive sizes_array : Type :=
| JsArray (cells : list (option Z))
| Int32Array (cells : list Z).

(** ToInt32 *)
Definition wrap32 (z : Z) : Z := ((z + 2 ^ 31) mod 2 ^ 32 - 2 ^ 31)%Z.

(** [a[i] = v] on a plain array: an index past the end extends the array,
    leaving holes in between. *)
Definition js_array_set {A} (hole : A) (l : list A) (i : nat) (v : A) : list A :=
  if i <? length l then <[i:=v]> l
  else l ++ replicate (i - length l) hole ++ [v].

(** [sizesArray[i] = v]: a typed array ignores an index out of range and
    stores the value modulo 2^32. *)
Definition sz_set (a : sizes_array) (i : nat) (v : Z) : sizes_array :=
  match a with
  | JsArray l => JsArray (js_array_set None l i (Some v))
  | Int32Array l => Int32Array (<[i:=wrap32 v]> l)
  end.

(** [sizesArray[i]]; [None] is [undefined]. *)
Definition sz_get (a : sizes_array) (i : nat) : option Z :=
  match a with
  | JsArray l => mjoin (l !! i)
  | Int32Array l => l !! i
  end.

(** ** Framing *)

(** The bytes [writeBuffer] frames for an element: those of a string or of
    a Buffer; [None] for every other element
    ([typeof element !== 'string' && !(element instanceof Buffer)]). *)
Definition framed_bytes (element : value) : option (list byte) :=
  match element with
  | VStr s => Some (Buffer_from s)
  | VBuf b => Some b
  | _ => None
  end.

Fixpoint writeBuffer_loop (buffer : list byte) (sizesArray : sizes_array)
    (i offset : nat) (elements : list value) : list byte * sizes_array :=
  match elements with
  | [] => (buffer, sizesArray)
  | element :: elements' =>
      match framed_bytes element with
      | None => writeBuffer_loop buffer (sz_set sizesArray i 0) (S i) offset elements'
      | Some source =>
          let '(buffer', size) := copy source buffer offset in
          writeBuffer_loop buffer' (sz_set sizesArray i (Z.of_nat size)) (S i)
            (offset + size) elements'
      end
  end.

(** [writeBuffer(buffer, sizesArray, elements)]; both arguments are updated
    in place in the source, the updated pair is returned here. *)
Definition writeBuffer (buffer : list byte) (sizesArray : sizes_array)
    (elements : list value) : list byte * sizes_array :=
  writeBuffer_loop buffer sizesArray 0 0 elements.

Fixpoint readBuffer_loop (buffer : list byte) (sizesArray : sizes_array)
    (i remaining : nat) (start end_ : num) : list value :=
  match remaining with
  | O => []
  | S remaining' =>
      let end' := num_add end_ (sz_get sizesArray i) in
      (if num_strict_neq start end' then VBuf (slice buffer start end') else VUndefined)
        :: readBuffer_loop buffer sizesArray (S i) remaining'
             (num_add start (sz_get sizesArray i)) end'
  end.

(** [readBuffer(buffer, sizesArray, elementsCount)] *)
Definition readBuffer (buffer : list byte) (sizesArray : sizes_array)
    (elementsCount : nat) : list value :=
  readBuffer_loop buffer sizesArray 0 elementsCount (Some 0%Z) (Some 0%Z).

(** ** What the framing is expected to do *)

(** The bytes framed for an element; none for an element that is not framed. *)
Definition field_bytes (element : value) : list byte := default [] (framed_bytes element).

(** The total number of bytes a list of elements needs. *)
Definition total_bytes (elements : list value) : nat :=
  sum_list (length <$> (field_bytes <$> elements)).

(** What [readBuffer] returns for a field of the given bytes. *)
Definition read_back (bytes : list byte) : value :=
  match bytes with [] => VUndefined | _ => VBuf bytes end.

(** The array of lengths can record [count] lengths, none above [bound]:
    always so for a plain array; a typed array needs [count] cells and
    lengths that fit its 32-bit cells. *)
Definition sz_room (a : sizes_array) (count : nat) (bound : nat) : Prop :=
  match a with
  | JsArray _ => True
  | Int32Array l => count <= length l /\ (Z.of_nat bound < 2 ^ 31)%Z
  end.

(** The array of lengths has a cell at every index below [count]. *)
Definition sz_cells (a : sizes_array) (count : nat) : Prop :=
  match a with
  | JsArray _ => True
  | Int32Array l => count <= length l
  end.

(** ** Errors *)

Inductive error_class : Type := TokenError | PlainError | TypeError.

(** An error object: its class and the properties the protocol reads. *)
#[local] Unset Elimination Schemes.
Inductive js_error : Type :=
| MkError (cls : error_class) (code message stack : value)
          (originalError : option js_error).
#[local] Set Elimination Schemes.

Definition e_class (e : js_error) : error_class := let 'MkError c _ _ _ _ := e in c.
Definition e_code (e : js_error) : value := let 'MkError _ c _ _ _ := e in c.
Definition e_message (e : js_error) : value := let 'MkError _ _ m _ _ := e in m.
Definition e_stack (e : js_error) : value := let 'MkError _ _ _ s _ := e in s.
Definition e_originalError (e : js_error) : option js_error :=
  let 'MkError _ _ _ _ o := e in o.

(** A string-or-null argument, as produced by
    [d => (d ? d.toString('utf-8') : null)]. *)
Definition string_or_null (o : option string) : value :=
  match o with Some s => VStr s | None => VNull end.

(** The [message] property set by [new Error(m)] for a string or [null]:
    [null] is converted to the string ["null"]. *)
Definition Error_message (m : option string) : value :=
  match m with Some s => VStr s | None => VStr "null" end.

(** Modelled from the spec: the class [TokenError] of [src/error.js], which
    is not among the sources.  Each error carries a stable code and a
    message and may wrap an original lower-level cause;
    [new TokenError(code, message, { originalError })] builds such an error
    (its message goes through the constructor of [Error]). *)
Definition new_TokenError (code message : option string) (stack : value)
    (originalError : js_error) : js_error :=
  MkError TokenError (string_or_null code) (Error_message message) stack
    (Some originalError).

(** [deserializeWorkerError(code, message, stack, originalCode,
    originalMessage, originalStack)]; the stack captured by each constructor
    is overwritten by the assignment that follows it. *)
Definition deserializeWorkerError
    (code message stack originalCode originalMessage originalStack : option string)
    : js_error :=
  let originalError :=
    MkError PlainError (string_or_null originalCode) (Error_message originalMessage)
      (string_or_null originalStack) None in
  new_TokenError code message (string_or_null stack) originalError.

(** The result of a call that may throw. *)
Inductive result (A : Type) : Type :=
| Ok (a : A)
| Throw (e : js_error).
Arguments Ok {A} a.
Arguments Throw {A} e.

(** ** The collaborators of [workers.js] *)

(** [src/crypto.js] is not among the sources: the two operations of the
    algorithm adapter are parameters. *)
Class Crypto : Type := {
  createSignature : value -> value -> value -> value -> result value;
  verifySignature : value -> value -> value -> value -> result value
}.

(** [TokenError.wrap] and [TokenError.codes.workerError] of [src/error.js]. *)
Class TokenErrors : Type := {
  TokenError_wrap : js_error -> value -> value -> js_error;
  codes_workerError : value
}.

(** What the platform provides: the number of processors [cpus().length],
    the successive samples of [Math.random()] (taken as exact rationals),
    the [TypeError] raised when a property of [undefined] is read (or when
    [Buffer.from] receives [undefined]) at the named expression, and how
    the caller's callbacks behave: [callback_throws c err v] is the
    exception callback [c] raises when called with [(err, v)], if any. *)
Class Runtime : Type := {
  cores : nat;
  Math_random : nat -> Q;
  TypeError_at : string -> js_error;
  callback_throws : nat -> option js_error -> value -> option js_error
}.

(** ** The state of the module and of its workers *)

(** The [message] listener installed on a worker by one of the two entry
    points: the closure captures the worker index, the reply region of that
    index and the caller's callback (named by a number). *)
Inductive listener : Type :=
| SignReply (workerIndex : nat) (callback : nat)
| VerifyReply (workerIndex : nat) (callback : nat).

(** A worker thread as the main thread sees it: the listeners of its
    [message] event, the notifications posted to it and not yet handled,
    and the statuses it posted back that are not yet delivered. *)
Record worker : Type := {
  listeners : list listener;
  inbox : nat;
  outbox : list Z
}.

(** The callback handed to [getAvailableWorker] by the two entry points. *)
Inductive continuation : Type :=
| SignWith (algorithm secret header payload : value) (callback : nat)
| VerifyWith (algorithm secret input signature : value) (callback : nat).

(** What the event loop still has to run: a retry scheduled by
    [setTimeout] with its delay, and the completion of [stopWorkers]. *)
Inductive task : Type :=
| Retry (delay : Z) (callback : continuation) (attempts : Z)
| Stopped (callback : nat).

Inductive event : Type :=
| Callback (callback : nat) (err : option js_error) (result : value)
| PostMessage (workerIndex : nat)
| ConsoleLog (v : value)
| Terminate (workerIndex : nat)
| Uncaught (e : js_error).

Record State : Type := {
  workers : list worker;
  availableWorkers : list value;
  requestsSharedBuffers : list (option (list byte));
  repliesSharedBuffers : list (option (list byte));
  requestsSizesArray : list (option sizes_array);
  repliesSizesArray : list (option sizes_array);
  pending : list task;
  random_calls : nat;
  log : list event
}.

Definition set_workers (ws : list worker) (st : State) : State :=
  {| workers := ws; availableWorkers := availableWorkers st;
     requestsSharedBuffers := requestsSharedBuffers st;
     repliesSharedBuffers := repliesSharedBuffers st;
     requestsSizesArray := requestsSizesArray st;
     repliesSizesArray := repliesSizesArray st;
     pending := pending st; random_calls := random_calls st; log := log st |}.

Definition set_availableWorkers (q : list value) (st : State) : State :=
  {| workers := workers st; availableWorkers := q;
     requestsSharedBuffers := requestsSharedBuffers st;
     repliesSharedBuffers := repliesSharedBuffers st;
     requestsSizesArray := requestsSizesArray st;
     repliesSizesArray := repliesSizesArray st;
     pending := pending st; random_calls := random_calls st; log := log st |}.

Definition set_request (i : nat) (buffer : list byte) (sizes : option sizes_array)
    (st : State) : State :=
  {| workers := workers st; availableWorkers := availableWorkers st;
     requestsSharedBuffers := <[i:=Some buffer]> (requestsSharedBuffers st);
     repliesSharedBuffers := repliesSharedBuffers st;
     requestsSizesArray :=
       match sizes with
       | Some s => <[i:=Some s]> (requestsSizesArray st)
       | None => requestsSizesArray st
       end;
     repliesSizesArray := repliesSizesArray st;
     pending := pending st; random_calls := random_calls st; log := log st |}.

Definition set_reply (i : nat) (buffer : list byte) (sizes : sizes_array)
    (st : State) : State :=
  {| workers := workers st; availableWorkers := availableWorkers st;
     requestsSharedBuffers := requestsSharedBuffers st;
     repliesSharedBuffers := <[i:=Some buffer]> (repliesSharedBuffers st);
     requestsSizesArray := requestsSizesArray st;
     repliesSizesArray := <[i:=Some sizes]> (repliesSizesArray st);
     pending := pending st; random_calls := random_calls st; log := log st |}.

Definition set_pending (ts : list task) (st : State) : State :=
  {| workers := workers st; availableWorkers := availableWorkers st;
     requestsSharedBuffers := requestsSharedBuffers st;
     repliesSharedBuffers := repliesSharedBuffers st;
     requestsSizesArray := requestsSizesArray st;
     repliesSizesArray := repliesSizesArray st;
     pending := ts; random_calls := random_calls st; log := log st |}.

Definition emit (e : event) (st : State) : State :=
  {| workers := workers st; availableWorkers := availableWorkers st;
     requestsSharedBuffers := requestsSharedBuffers st;
     repliesSharedBuffers := repliesSharedBuffers st;
     requestsSizesArray := requestsSizesArray st;
     repliesSizesArray := repliesSizesArray st;
     pending := pending st; random_calls := random_calls st;
     log := log st ++ [e] |}.

(** ** Code of the main thread: state and exceptions *)

Definition M (A : Type) : Type := State -> result A * State.

Definition ret {A} (a : A) : M A := fun st => (Ok a, st).
Definition throw {A} (e : js_error) : M A := fun st => (Throw e, st).
Definition bind {A B} (m : M A) (f : A -> M B) : M B :=
  fun st => match m st with
            | (Ok a, st') => f a st'
            | (Throw e, st') => (Throw e, st')
            end.
Definition try_catch {A} (m : M A) (handler : js_error -> M A) : M A :=
  fun st => match m st with
            | (Ok a, st') => (Ok a, st')
            | (Throw e, st') => handler e st'
            end.
Definition get : M State := fun st => (Ok st, st).
Definition modify (f : State -> State) : M unit := fun st => (Ok tt, f st).
Definition lift {A} (r : result A) : M A := fun st => (r, st).

Declare Scope js_scope.
Delimit Scope js_scope with js.
Notation "'let*' x := m 'in' k" := (bind m (fun x => k))
  (at level 10, x pattern, m at level 100, k at level 200) : js_scope.
Notation "m ;; k" := (bind m (fun _ => k))
  (at level 100, k at level 200, right associativity) : js_scope.
Local Open Scope js_scope.

Section Workers.
Context `{crypto : Crypto} `{token_errors : TokenErrors} `{runtime : Runtime}.

(** The index a value denotes in [array[v]]; the queue only ever holds
    numbers and holes, any other value is taken to denote no cell. *)
Definition index_of (v : value) : option nat :=
  match v with
  | VNum n => if (0 <=? n)%Z then Some (Z.to_nat n) else None
  | _ => None
  end.

(** [array[v]]; [None] is [undefined]. *)
Definition at_index {A} (array : list A) (v : value) : option A :=
  match index_of v with
  | Some i => array !! i
  | None => None
  end.

(** [callback(err, result)] for a callback of the caller. *)
Definition call (callback : nat) (err : option js_error) (result : value) : M unit :=
  modify (emit (Callback callback err result)) ;;
  match callback_throws callback err result with
  | Some e => throw e
  | None => ret tt
  end.

(** The module state when [workers.js] has been loaded. *)
Definition initial : State :=
  {| workers := [];
     availableWorkers := (fun i => VNum (Z.of_nat i)) <$> seq 0 cores;
     requestsSharedBuffers := replicate cores None;
     repliesSharedBuffers := replicate cores None;
     requestsSizesArray := replicate cores None;
     repliesSizesArray := replicate cores None;
     pending := []; random_calls := 0; log := [] |}.

(** One round of the loop of [startWorkers]: the regions of worker [i] are
    allocated (zero-filled), the worker is created and, once it has
    installed its handler and set the start flag, appended to [workers]
    (its [error] events only go to the console). *)
Definition start_worker (size : nat) (st : State) (i : nat) : State :=
  let fresh := {| listeners := []; inbox := 0; outbox := [] |} in
  {| workers := workers st ++ [fresh];
     availableWorkers := availableWorkers st;
     requestsSharedBuffers :=
       js_array_set None (requestsSharedBuffers st) i (Some (replicate size x00));
     repliesSharedBuffers :=
       js_array_set None (repliesSharedBuffers st) i (Some (replicate size x00));
     requestsSizesArray :=
       js_array_set None (requestsSizesArray st) i (Some (Int32Array (replicate 10 0%Z)));
     repliesSizesArray :=
       js_array_set None (repliesSizesArray st) i (Some (Int32Array (replicate 10 0%Z)));
     pending := pending st; random_calls := random_calls st; log := log st |}.

(** [startWorkers(size)] *)
Definition startWorkers (size : nat) : M unit :=
  fun st =>
    if negb (length (workers st) =? 0) then (Ok tt, st)
    else (Ok tt, foldl (start_worker size) st (seq 0 cores)).

(** [startWorkers()] *)
Definition startWorkers_default : M unit := startWorkers 4096.

(** [stopWorkers(callback)]; [callback] is [Some c] when a function is
    passed.  The promise of the terminations is settled later.  The workers
    leave the state with what was posted to them and by them: a terminated
    worker delivers nothing further. *)
Definition stopWorkers (callback : option nat) : M unit :=
  fun st =>
    if length (workers st) =? 0 then (Ok tt, st)
    else
      let st1 := foldl (fun s i => emit (Terminate i) s) st (seq 0 (length (workers st))) in
      let st2 := set_workers [] st1 in
      match callback with
      | Some c => (Ok tt, set_pending (pending st2 ++ [Stopped c]) st2)
      | None => (Ok tt, st2)
      end.

(** [availableWorkers.shift()] *)
Definition shift : M value :=
  fun st =>
    match availableWorkers st with
    | [] => (Ok VUndefined, st)
    | v :: q => (Ok v, set_availableWorkers q st)
    end.

(** [Math.random()] *)
Definition random : M Q :=
  fun st =>
    (Ok (Math_random (random_calls st)),
     {| workers := workers st; availableWorkers := availableWorkers st;
        requestsSharedBuffers := requestsSharedBuffers st;
        repliesSharedBuffers := repliesSharedBuffers st;
        requestsSizesArray := requestsSizesArray st;
        repliesSizesArray := repliesSizesArray st;
        pending := pending st; random_calls := S (random_calls st); log := log st |}).

(** [getAvailableWorker(callback, attempts)].  The function reschedules
    itself through [setTimeout]; [retry attempts' delay] stands for
    [setTimeout(() => getAvailableWorker(callback, attempts'), delay)]. *)
Definition getAvailableWorker {A} (callback : value -> M A) (retry : Z -> Z -> M A)
    (attempts : Z) : M A :=
  let* st := get in
  if length (workers st) =? 0 then callback VNull
  else
    let* worker := shift in
    let* st' := get in
    if negb (truthy worker) && (0 <? attempts)%Z && negb (length (workers st') =? 0) then
      let* r := random in
      retry (attempts - 1)%Z (Qfloor (r * 10))
    else callback worker.

(** ** The worker thread *)

(** [v.toString('utf-8')] on an element returned by [readBuffer]; reading
    the method of [undefined] raises a [TypeError]. *)
Definition element_toString (what : string) (v : value) : result string :=
  match v with
  | VBuf b => Ok (toString_utf8 b)
  | VStr s => Ok s
  | _ => Throw (TypeError_at what)
  end.

(** [rv.toString()] *)
Definition js_toString (what : string) (v : value) : result string :=
  match v with
  | VUndefined | VNull => Throw (TypeError_at what)
  | VBool true => Ok "true"%string
  | VBool false => Ok "false"%string
  | VNum n => Ok (pretty n)
  | VStr s => Ok s
  | VBuf b => Ok (toString_utf8 b)
  | VObj _ => Ok "[object Object]"%string
  end.

Definition rbind {A B} (r : result A) (f : A -> result B) : result B :=
  match r with Ok a => f a | Throw e => Throw e end.

(** [array[i]] on the result of [readBuffer]. *)
Definition element (data : list value) (i : nat) : value := default VUndefined (data !! i).

(** The operation a worker performs on the five fields of a request, up to
    the conversion of its result to a string. *)
Definition perform (request : list value) : result string :=
  let operation := element request 0 in
  let algorithm := element request 1 in
  let secret := element request 2 in
  let headerOrInput := element request 3 in
  let payloadOrSignature := element request 4 in
  rbind (element_toString "operation" operation) (fun op =>
  rbind
    (if String.eqb op "sign" then
       rbind (element_toString "algorithm" algorithm) (fun alg =>
       createSignature (VStr alg) secret headerOrInput payloadOrSignature)
     else
       rbind (element_toString "algorithm" algorithm) (fun alg =>
       rbind (element_toString "payloadOrSignature" payloadOrSignature) (fun sig =>
       verifySignature (VStr alg) secret headerOrInput (VStr sig))))
    (fun rv => js_toString "rv" rv)).

(** The six fields framed for an error, when it wraps an original error. *)
Definition error_fields (error original : js_error) : list value :=
  [e_code error; e_message error; e_stack error;
   js_or (e_code original) (VStr ""); e_message original; e_stack original].

(** The [message] handler installed by [handleWorker], on the regions of
    its worker: the new contents of the reply region and of its lengths,
    and the status posted to the main thread ([None] when the handler
    itself fails, after which nothing is posted). *)
Definition handleWorker_message (requestBuffer : list byte) (requestSizes : sizes_array)
    (replyBuffer : list byte) (replySizes : sizes_array)
    : list byte * sizes_array * option Z :=
  match perform (readBuffer requestBuffer requestSizes 5) with
  | Ok rv => (writeBuffer replyBuffer replySizes [VStr rv], Some 0%Z)
  | Throw e =>
      let error :=
        TokenError_wrap e codes_workerError (VStr "Cannot perform operation using worker.") in
      match e_originalError error with
      | Some original =>
          (writeBuffer replyBuffer replySizes (error_fields error original), Some (-1)%Z)
      | None => (replyBuffer, replySizes, None)
      end
  end.

(** ** The two entry points *)

(** [Buffer.from(shared[workerIndex])]: a view on the region, or a
    [TypeError] when the cell is [undefined]. *)
Definition region (what : string) (shared : list (option (list byte)))
    (workerIndex : value) : M (list byte) :=
  match at_index shared workerIndex with
  | Some (Some buffer) => ret buffer
  | _ => throw (TypeError_at what)
  end.

(** [writeBuffer(requestBuffer, requestsSizesArray[workerIndex], elements)]
    on the request region of worker [i]; with no array of lengths the
    first assignment to it fails, after the first field has been copied. *)
Definition write_request (i : nat) (requestBuffer : list byte) (elements : list value)
    : M unit :=
  let* st := get in
  match mjoin (requestsSizesArray st !! i) with
  | Some sizes =>
      let '(buffer, sizes') := writeBuffer requestBuffer sizes elements in
      modify (set_request i buffer (Some sizes'))
  | None =>
      let first := default [] (framed_bytes (default VUndefined (head elements))) in
      modify (set_request i (fst (copy first requestBuffer 0)) None) ;;
      throw (TypeError_at "sizesArray")
  end.

(** [worker.removeAllListeners('message'); worker.on('message', l);
    worker.postMessage(0)] on [workers[i]]. *)
Definition listen_and_notify (i : nat) (l : listener) : M unit :=
  let* st := get in
  match workers st !! i with
  | Some w =>
      modify (set_workers
                (<[i:={| listeners := [l]; inbox := S (inbox w); outbox := outbox w |}]>
                   (workers st))) ;;
      modify (emit (PostMessage i))
  | None => throw (TypeError_at "worker")
  end.

(** The part of both callbacks that hands a request to worker
    [workerIndex]. *)
Definition offload (workerIndex : value) (elements : list value) (l : nat -> listener)
    : M unit :=
  let* st := get in
  let* requestBuffer := region "requestsSharedBuffers[workerIndex]"
                          (requestsSharedBuffers st) workerIndex in
  let* replyBuffer := region "repliesSharedBuffers[workerIndex]"
                        (repliesSharedBuffers st) workerIndex in
  match index_of workerIndex with
  | Some i => write_request i requestBuffer elements ;; listen_and_notify i (l i)
  | None => throw (TypeError_at "requestsSharedBuffers[workerIndex]")
  end.

(** The callback [createSignatureWithWorker] passes to
    [getAvailableWorker]. *)
Definition sign_with (algorithm secret header payload : value) (callback : nat)
    (workerIndex : value) : M unit :=
  modify (emit (ConsoleLog workerIndex)) ;;
  if negb (truthy workerIndex) then
    try_catch
      (let* signature := lift (createSignature algorithm secret header payload) in
       call callback None signature)
      (fun e => call callback (Some e) VUndefined)
  else
    offload workerIndex [VStr "sign"; algorithm; secret; header; payload]
      (fun i => SignReply i callback).

(** The callback [verifySignatureWithWorker] passes to
    [getAvailableWorker]. *)
Definition verify_with (algorithm secret input signature : value) (callback : nat)
    (workerIndex : value) : M unit :=
  if negb (truthy workerIndex) then
    try_catch
      (let* verified := lift (verifySignature algorithm secret input signature) in
       call callback None verified)
      (fun e => call callback (Some e) VUndefined)
  else
    offload workerIndex [VStr "verify"; algorithm; secret; input; signature]
      (fun i => VerifyReply i callback).

Definition resume (k : continuation) : value -> M unit :=
  match k with
  | SignWith algorithm secret header payload callback =>
      sign_with algorithm secret header payload callback
  | VerifyWith algorithm secret input signature callback =>
      verify_with algorithm secret input signature callback
  end.

(** [setTimeout(() => getAvailableWorker(callback, attempts), delay)] *)
Definition setTimeout_retry (k : continuation) (attempts delay : Z) : M unit :=
  modify (fun st => set_pending (pending st ++ [Retry delay k attempts]) st).

(** [getAvailableWorker(callback, attempts)] with one of the two callbacks. *)
Definition acquire (k : continuation) (attempts : Z) : M unit :=
  getAvailableWorker (resume k) (setTimeout_retry k) attempts.

(** [createSignatureWithWorker(algorithm, secret, header, payload, callback)];
    [getAvailableWorker] is called with its default number of attempts, 3. *)
Definition createSignatureWithWorker (algorithm secret header payload : value)
    (callback : nat) : M unit :=
  acquire (SignWith algorithm secret header payload callback) 3.

(** [verifySignatureWithWorker(algorithm, secret, input, signature, callback)] *)
Definition verifySignatureWithWorker (algorithm secret input signature : value)
    (callback : nat) : M unit :=
  acquire (VerifyWith algorithm secret input signature callback) 3.

(** ** The reply handlers *)

(** [response === 0 ? 1 : 6] *)
Definition reply_fields (response : Z) : nat := if (response =? 0)%Z then 1 else 6.

(** [readBuffer(replyBuffer, repliesSizesArray[workerIndex], count)] in a
    reply handler.  [replyBuffer] is the view captured when the listener
    was installed; the region of a live worker is never replaced, so the
    view is read from the current cell. *)
Definition read_reply (workerIndex : nat) (count : nat) : M (list value) :=
  let* st := get in
  let* replyBuffer := region "repliesSharedBuffers[workerIndex]"
                        (repliesSharedBuffers st) (VNum (Z.of_nat workerIndex)) in
  match mjoin (repliesSizesArray st !! workerIndex) with
  | Some sizes => ret (readBuffer replyBuffer sizes count)
  | None => throw (TypeError_at "sizesArray")
  end.

(** [d => (d ? d.toString('utf-8') : null)] on an element of the reply. *)
Definition string_of_field (d : value) : option string :=
  match d with
  | VBuf b => Some (toString_utf8 b)
  | _ => None
  end.

(** [deserializeWorkerError(...data.map(d => (d ? d.toString('utf-8') : null)))] *)
Definition error_of_reply (data : list value) : js_error :=
  let arg i := string_of_field (element data i) in
  deserializeWorkerError (arg 0) (arg 1) (arg 2) (arg 3) (arg 4) (arg 5).

(** What the caller gets for a framed element: the string read back, or
    [null] when the element was framed with length 0. *)
Definition carried (element : value) : option string :=
  string_of_field (read_back (field_bytes element)).

(** The listener installed by [createSignatureWithWorker]. *)
Definition sign_reply (workerIndex callback : nat) (response : Z) : M unit :=
  let* data := read_reply workerIndex (reply_fields response) in
  modify (fun st =>
            set_availableWorkers (availableWorkers st ++ [VNum (Z.of_nat workerIndex)]) st) ;;
  if (response <? 0)%Z then call callback (Some (error_of_reply data)) VUndefined
  else
    match element data 0 with
    | VBuf b => call callback None (VStr (toString_utf8 b))
    | _ => throw (TypeError_at "Buffer.from(data[0])")
    end.

(** The listener installed by [verifySignatureWithWorker]. *)
Definition verify_reply (workerIndex callback : nat) (response : Z) : M unit :=
  let* data := read_reply workerIndex (reply_fields response) in
  modify (fun st =>
            set_availableWorkers
              (js_array_set VUndefined (availableWorkers st) workerIndex (VNum 0)) st) ;;
  if (response <? 0)%Z then call callback (Some (error_of_reply data)) VUndefined
  else
    match element data 0 with
    | VBuf b => call callback None (VBool (String.eqb (toString_utf8 b) "true"))
    | _ => throw (TypeError_at "data[0]")
    end.

Definition run_listener (l : listener) (response : Z) : M unit :=
  match l with
  | SignReply workerIndex callback => sign_reply workerIndex callback response
  | VerifyReply workerIndex callback => verify_reply workerIndex callback response
  end.

(** ** The event loop

    The main thread runs one handler at a time to completion; a worker
    thread handles one notification at a time.  A label names what happens
    next: a call of the exported functions by the application, a pending
    task being run, a worker handling a request, or the status posted by a
    worker reaching the listeners of that worker. *)

Inductive label : Type :=
| CallStart (size : nat)
| CallStop (callback : option nat)
| CallSign (algorithm secret header payload : value) (callback : nat)
| CallVerify (algorithm secret input signature : value) (callback : nat)
| RunTask (n : nat)
| WorkerRuns (i : nat)
| Deliver (i : nat).

(** A handler run from the event loop: an exception that escapes is
    recorded. *)
Definition toplevel (m : M unit) (st : State) : State :=
  match m st with
  | (Ok _, st') => st'
  | (Throw e, st') => emit (Uncaught e) st'
  end.

Definition run_task (t : task) : M unit :=
  match t with
  | Retry _ k attempts => acquire k attempts
  | Stopped callback => call callback None VUndefined
  end.

(** Worker [i] takes one notification from its inbox and handles it on the
    shared regions of its index. *)
Definition worker_runs (i : nat) (st : State) : State :=
  match workers st !! i, mjoin (requestsSharedBuffers st !! i),
        mjoin (requestsSizesArray st !! i), mjoin (repliesSharedBuffers st !! i),
        mjoin (repliesSizesArray st !! i) with
  | Some w, Some requestBuffer, Some requestSizes, Some replyBuffer, Some replySizes =>
      match inbox w with
      | O => st
      | S n =>
          let '(replyBuffer', replySizes', status) :=
            handleWorker_message requestBuffer requestSizes replyBuffer replySizes in
          let w' := {| listeners := listeners w; inbox := n;
                       outbox := outbox w ++ option_list status |} in
          set_workers (<[i:=w']> (workers st)) (set_reply i replyBuffer' replySizes' st)
      end
  | _, _, _, _, _ => st
  end.

(** The oldest status posted by worker [i] is delivered to its listeners. *)
Definition deliver (i : nat) (st : State) : State :=
  match workers st !! i with
  | Some w =>
      match outbox w with
      | [] => st
      | response :: rest =>
          let w' := {| listeners := listeners w; inbox := inbox w; outbox := rest |} in
          foldl (fun s l => toplevel (run_listener l response) s)
            (set_workers (<[i:=w']> (workers st)) st) (listeners w)
      end
  | None => st
  end.

Definition step (l : label) (st : State) : State :=
  match l with
  | CallStart size => toplevel (startWorkers size) st
  | CallStop callback => toplevel (stopWorkers callback) st
  | CallSign algorithm secret header payload callback =>
      toplevel (createSignatureWithWorker algorithm secret header payload callback) st
  | CallVerify algorithm secret input signature callback =>
      toplevel (verifySignatureWithWorker algorithm secret input signature callback) st
  | RunTask n =>
      match pending st !! n with
      | Some t => toplevel (run_task t) (set_pending (delete n (pending st)) st)
      | None => st
      end
  | WorkerRuns i => worker_runs i st
  | Deliver i => deliver i st
  end.

Definition run (ls : list label) (st : State) : State := foldl (fun s l => step l s) st ls.

(** The states the module can be in. *)
Definition reachable (st : State) : Prop := exists ls, st = run ls initial.

(** The requests in flight on slot [i]: notified to the worker and not yet
    consumed by a reply handler. *)
Definition in_flight (st : State) (i : nat) : nat :=
  match workers st !! i with
  | Some w => inbox w + length (outbox w)
  | None => 0
  end.

(** ** One request for a worker, from its first attempt to its callback

    A request runs [getAvailableWorker] once when it is made and once more
    each time a retry fires.  Between two of these runs the event loop runs
    whatever else is due: [others n] is what happens to the state between
    attempt [n] and attempt [n + 1].  The result is the list of the delays
    passed to [setTimeout] and what the last attempt returned; [None] when
    [fuel] attempts were not enough. *)
Fixpoint acquisition {A} (fuel : nat) (others : nat -> State -> State)
    (callback : value -> M A) (attempts : Z) (st : State)
    : option (list Z * (result A * State)) :=
  match fuel with
  | O => None
  | S fuel' =>
      match getAvailableWorker
              (fun worker => let* a := callback worker in ret (inl a))
              (fun attempts' delay => ret (inr (attempts', delay)))
              attempts st with
      | (Ok (inl a), st') => Some ([], (Ok a, st'))
      | (Ok (inr (attempts', delay)), st') =>
          match acquisition fuel' (fun n => others (S n)) callback attempts' (others 0 st') with
          | Some (delays, outcome) => Some (delay :: delays, outcome)
          | None => None
          end
      | (Throw e, st') => Some ([], (Throw e, st'))
      end
  end.

(** The queue hands out nothing the callbacks accept as a worker index:
    it is empty, or its first cell is a hole (or is falsy). *)
Definition nothing_available (st : State) : Prop :=
  forall v, head (availableWorkers st) = Some v -> truthy v = false.

(** What the caller's callback receives from the in-process path:
    [callback(null, result)], or [callback(e)]. *)
Definition in_process (k : continuation) : result value :=
  match k with
  | SignWith algorithm secret header payload _ =>
      createSignature algorithm secret header payload
  | VerifyWith algorithm secret input signature _ =>
      verifySignature algorithm secret input signature
  end.

Definition callback_of (k : continuation) : nat :=
  match k with
  | SignWith _ _ _ _ callback => callback
  | VerifyWith _ _ _ _ callback => callback
  end.

(** The last attempt of a request: it started in [st0], handed [worker]
    to the callback and left the state [st'] to it.  Either the pool has
    no workers and the callback gets [null], or the first cell of the queue
    (or [undefined] when there is none) is taken from the queue and handed
    over. *)
Definition last_attempt (st0 : State) (worker : value) (st' : State) : Prop :=
  (workers st0 = [] /\ worker = VNull /\ st' = st0)
  \/ (workers st0 <> [] /\ worker = default VUndefined (head (availableWorkers st0))
      /\ st' = set_availableWorkers (tail (availableWorkers st0)) st0).

(** The calls of the caller's callback when the operation runs in
    process: [callback(null, result)] or [callback(error)]; the entry points
    call it once more, with the exception, when the callback itself raises
    one on receiving the result. *)
Definition in_process_calls (k : continuation) : list event :=
  let c := callback_of k in
  match in_process k with
  | Ok v =>
      Callback c None v
        :: match callback_throws c None v with
           | Some e => [Callback c (Some e) VUndefined]
           | None => []
           end
  | Throw e => [Callback c (Some e) VUndefined]
  end.

(** The trace [createSignatureWithWorker] leaves on the console. *)
Definition console (k : continuation) (worker : value) : list event :=
  match k with
  | SignWith _ _ _ _ _ => [ConsoleLog worker]
  | VerifyWith _ _ _ _ _ => []
  end.

Definition emit_all (events : list event) (st : State) : State :=
  foldl (fun s e => emit e s) st events.

End Workers.

(** ** The discipline of the availability queue *)

(** The index a cell of the queue hands to a callback that will use it:
    the callbacks take a falsy value as no worker. *)
Definition handed_out (v : value) : option nat :=
  if truthy v then index_of v else None.

(** The indices the queue can still hand out. *)
Definition queued (st : State) : list nat := omap handed_out (availableWorkers st).

Definition listener_index (l : listener) : nat :=
  match l with
  | SignReply workerIndex _ => workerIndex
  | VerifyReply workerIndex _ => workerIndex
  end.

(** What the availability queue maintains: a slot has at most one request
    in flight; no index is twice in the queue; a slot whose index is in
    the queue has no request in flight; a worker has at most one listener,
    installed for its own index. *)
Record pool_invariant (st : State) : Prop := {
  inv_in_flight : forall i, in_flight st i <= 1;
  inv_queued_once : NoDup (queued st);
  inv_queued_idle : forall i, i ∈ queued st -> in_flight st i = 0;
  inv_listeners : forall i w l, workers st !! i = Some w -> l ∈ listeners w ->
                                listeners w = [l] /\ listener_index l = i
}.

(** Two states with the same workers and the same queue. *)
Definition same_pool (st st' : State) : Prop :=
  workers st' = workers st /\ availableWorkers st' = availableWorkers st.

(** The request region of slot [i] with its array of lengths, and the
    reply region with its own. *)
Definition request_region (st : State) (i : nat)
    : option (option (list byte)) * option (option sizes_array) :=
  (requestsSharedBuffers st !! i, requestsSizesArray st !! i).

Definition reply_region (st : State) (i : nat)
    : option (option (list byte)) * option (option sizes_array) :=
  (repliesSharedBuffers st !! i, repliesSizesArray st !! i).

(** Two states with the same shared memory. *)
Definition same_shared (st st' : State) : Prop :=
  requestsSharedBuffers st' = requestsSharedBuffers st
  /\ requestsSizesArray st' = requestsSizesArray st
  /\ repliesSharedBuffers st' = repliesSharedBuffers st
  /\ repliesSizesArray st' = repliesSizesArray st.

(** ** A platform to run the model on

    Stand-ins for the collaborators, to evaluate the model on concrete
    requests: an adapter that signs with any non-empty secret and fails on
    an empty one, [TokenError.wrap] leaving a [TokenError] as it is, a
    machine with [n] processors whose callbacks never raise. *)

Definition sample_signature : string := "c2lnbmF0dXJl".

(** The error of the platform's primitive, and the error the adapter
    raises around it. *)
Definition sample_cause : js_error :=
  MkError PlainError VUndefined (VStr "error:0909006C:PEM routines")
    (VStr "Error: error:0909006C:PEM routines") None.

Definition sample_sign_error : js_error :=
  MkError TokenError (VStr "FAST_JWT_SIGN_ERROR") (VStr "Cannot create the signature.")
    (VStr "TokenError: Cannot create the signature.") (Some sample_cause).

#[local] Instance sample_crypto : Crypto := {|
  createSignature _ secret _ _ :=
    match default [] (framed_bytes secret) with
    | [] => Throw sample_sign_error
    | _ => Ok (VStr sample_signature)
    end;
  verifySignature _ _ _ signature :=
    Ok (VBool (String.eqb (toString_utf8 (default [] (framed_bytes signature)))
                 sample_signature))
|}.

#[local] Instance sample_errors : TokenErrors := {|
  TokenError_wrap e code message :=
    match e_class e with
    | TokenError => e
    | _ => MkError TokenError code message (VStr "TokenError") (Some e)
    end;
  codes_workerError := VStr "FAST_JWT_WORKER_ERROR"
|}.

Definition machine (n : nat) : Runtime := {|
  cores := n;
  Math_random _ := 1 # 2;
  TypeError_at what := MkError TypeError VUndefined (VStr what) (VStr "TypeError") None;
  callback_throws _ _ _ := None
|}.

(** A pool started with the default size on a machine with two
    processors. *)
Definition running : State :=
  run (runtime := machine 2) [CallStart 4096] (initial (runtime := machine 2)).

(** A sign request whose five fields are framed in a region of 64 bytes,
    with the given secret. *)
Definition sign_request (secret : string) : list byte * sizes_array :=
  writeBuffer (replicate 64 x00) (Int32Array (replicate 10 0%Z))
    [VStr "sign"; VStr "HS512"; VStr secret; VStr "e30"; VStr "e30"].

(** ** Frames that do not fit *)

(** What is left of the fields when only [room] bytes can be written: each
    field is cut to the room left by those before it. *)
Fixpoint truncated_fields (room : nat) (fields : list (list byte)) : list (list byte) :=
  match fields with
  | [] => []
  | field :: fields' => take room field :: truncated_fields (room - length field) fields'
  end.

(** ** A request handed to a worker *)

(** The five fields of the request of either entry point, and the
    listener it installs on worker [i]. *)
Definition request_fields (k : continuation) : list value :=
  match k with
  | SignWith algorithm secret header payload _ =>
      [VStr "sign"; algorithm; secret; header; payload]
  | VerifyWith algorithm secret input signature _ =>
      [VStr "verify"; algorithm; secret; input; signature]
  end.

Definition listener_of (k : continuation) (i : nat) : listener :=
  match k with
  | SignWith _ _ _ _ callback => SignReply i callback
  | VerifyWith _ _ _ _ callback => VerifyReply i callback
  end.

(** The state once the request of [k] has been handed to worker [i], whose
    record was [w] and whose request region was [rq] with the lengths
    [rqs]: the first cell has left the queue, the request region holds the
    frame, the worker has the listener and one more notification. *)
Definition offloaded (k : continuation) (i : nat) (w : worker) (rq : list byte)
    (rqs : sizes_array) (st : State) : State :=
  let written := writeBuffer rq rqs (request_fields k) in
  let notified :=
    {| listeners := [listener_of k i]; inbox := S (inbox w); outbox := outbox w |} in
  emit (PostMessage i)
    (set_workers (<[i:=notified]> (workers st))
       (set_request i (fst written) (Some (snd written))
          (emit_all (console k (VNum (Z.of_nat i)))
             (set_availableWorkers (tail (availableWorkers st)) st)))).

(** The call of the entry point that makes the request of [k]. *)
Definition request (k : continuation) : label :=
  match k with
  | SignWith algorithm secret header payload callback =>
      CallSign algorithm secret header payload callback
  | VerifyWith algorithm secret input signature callback =>
      CallVerify algorithm secret input signature callback
  end.

(** Slot [i] of a started pool: its worker and its four regions. *)
Definition slot (st : State) (i : nat) (w : worker) (rq : list byte) (rqs : sizes_array)
    (rp : list byte) (rps : sizes_array) : Prop :=
  workers st !! i = Some w
  /\ requestsSharedBuffers st !! i = Some (Some rq)
  /\ requestsSizesArray st !! i = Some (Some rqs)
  /\ repliesSharedBuffers st !! i = Some (Some rp)
  /\ repliesSizesArray st !! i = Some (Some rps).

(** What a worker reads for an element of a request that was framed
    whole: a Buffer with its bytes, or [undefined]. *)
Definition worker_view (element : value) : value := read_back (field_bytes element).

(** The exception a callback raises, which nothing catches. *)
Definition uncaught (thrown : option js_error) : list event :=
  match thrown with
  | Some e => [Uncaught e]
  | None => []
  end.

(** The queue when the listener of the request of [k] has run on worker
    [i]: [availableWorkers.push(workerIndex)] for a sign request,
    [availableWorkers[workerIndex] = 0] for a verify request. *)
Definition released (k : continuation) (i : nat) (q : list value) : list value :=
  match k with
  | SignWith _ _ _ _ _ => q ++ [VNum (Z.of_nat i)]
  | VerifyWith _ _ _ _ _ => js_array_set VUndefined q i (VNum 0)
  end.

(** The [TypeError] of a listener that finds [undefined] in [data[0]]. *)
Definition reply_TypeError `{runtime : Runtime} (k : continuation) : js_error :=
  match k with
  | SignWith _ _ _ _ _ => TypeError_at "Buffer.from(data[0])"
  | VerifyWith _ _ _ _ _ => TypeError_at "data[0]"
  end.

(** ** A pool that is serving

    A pool of two workers with regions of 256 bytes, after a first request
    has taken index 0 from the queue: index 1 is the first cell of the
    queue.  An adapter whose results are empty strings. *)

Definition serving : State :=
  run (runtime := machine 2)
    [CallStart 256;
     CallVerify (VStr "HS512") (VStr "secret") (VStr "e30.e30") (VStr sample_signature) 0]
    (initial (runtime := machine 2)).

Definition empty_crypto : Crypto := {|
  createSignature _ _ _ _ := Ok (VStr "");
  verifySignature _ _ _ _ := Ok (VStr "")
|}.

(** ** The shape of the pool *)

(** A worker that has been handed nothing since it was started. *)
Definition unused : worker := {| listeners := []; inbox := 0; outbox := [] |}.

(** The four regions of slot [i] exist. *)
Definition allocated (st : State) (i : nat) : Prop :=
  is_Some (mjoin (requestsSharedBuffers st !! i))
  /\ is_Some (mjoin (requestsSizesArray st !! i))
  /\ is_Some (mjoin (repliesSharedBuffers st !! i))
  /\ is_Some (mjoin (repliesSizesArray st !! i)).

(** What the module maintains besides the discipline of the queue: the
    pool has no worker, or one for each processor with its regions; a cell
    of the queue that a callback would use is the index of a processor;
    worker 0 has been handed nothing and has never been notified. *)
Record settled `{runtime : Runtime} (st : State) : Prop := {
  settled_workers :
    workers st = [] \/ (length (workers st) = cores /\ forall i, i < cores -> allocated st i);
  settled_queue :
    forall v, v ∈ availableWorkers st -> truthy v = true ->
              exists i, v = VNum (Z.of_nat i) /\ i < cores;
  settled_first : forall w, workers st !! 0 = Some w -> w = unused;
  settled_log : PostMessage 0 ∉ log st
}.

(** What a handler that neither starts nor stops the pool may change:
    no region disappears, the workers are as many, worker 0 is as it was
    and is not notified, and a usable cell added to the queue is the index
    of a worker. *)
Definition quiet (st st' : State) : Prop :=
  (forall j, allocated st j -> allocated st' j)
  /\ length (workers st') = length (workers st)
  /\ workers st' !! 0 = workers st !! 0
  /\ (PostMessage 0 ∈ log st' -> PostMessage 0 ∈ log st)
  /\ (forall v, v ∈ availableWorkers st' -> truthy v = true ->
        v ∈ availableWorkers st
        \/ exists i, v = VNum (Z.of_nat i) /\ i < length (workers st)).

(** A worker that has a request to handle, or a status to deliver, has a
    listener. *)
Definition attended (st : State) : Prop :=
  forall i w, workers st !! i = Some w -> 0 < inbox w + length (outbox w) ->
              listeners w <> [].

(** An adapter that raises a [TokenError] that wraps nothing. *)
Definition bare_error : js_error :=
  MkError TokenError (VStr "FAST_JWT_INVALID_KEY") (VStr "Invalid private key.")
    (VStr "TokenError: Invalid private key.") None.

Definition bare_crypto : Crypto := {|
  createSignature _ _ _ _ := Throw bare_error;
  verifySignature _ _ _ _ := Throw bare_error
|}.

(** A pending task that is a retry leaves at most two attempts and waits
    less than ten milliseconds. *)
Definition modest (t : task) : Prop :=
  match t with
  | Retry delay _ attempts => (0 <= attempts <= 2)%Z /\ (0 <= delay <= 9)%Z
  | Stopped _ => True
  end.

(** * Properties *)

(** ** Framing: [copy], [slice] and the arrays of lengths *)

(** The test of the two functions in the repository's test suite. *)
Example shared_buffer_management :
  let written :=
    writeBuffer (replicate 200 x00) (JsArray [])
      [VStr "0"; VStr "1"; VUndefined; VStr "123"; VNull] in
  snd written = JsArray [Some 1; Some 1; Some 0; Some 3; Some 0]%Z
  /\ readBuffer (fst written) (snd written) 5
     = [VBuf (Buffer_from "0"); VBuf (Buffer_from "1"); VUndefined;
        VBuf (Buffer_from "123"); VUndefined].
Proof. vm_compute. by split. Qed.

Lemma copy_fits (source target : list byte) (offset : nat) :
  offset + length source <= length target ->
  copy source target offset
  = (take offset target ++ source ++ drop (offset + length source) target, length source).
Proof.
  intros Hfit. unfold copy.
  destruct (Nat.leb_spec (length target) offset) as [Hle|Hlt].
  - assert (length source = 0) as Hs by lia.
    destruct source; [|discriminate]. simpl.
    rewrite Nat.add_0_r, take_ge, drop_ge by lia. by rewrite app_nil_r.
  - replace (length source `min` (length target - offset)) with (length source) by lia.
    by rewrite firstn_all.
Qed.

Lemma copy_length (source target : list byte) (offset : nat) :
  length (fst (copy source target offset)) = length target.
Proof.
  unfold copy. destruct (Nat.leb_spec (length target) offset) as [Hle|Hlt]; [done|].
  simpl. rewrite !length_app, length_take, length_take, length_drop. lia.
Qed.

Lemma wrap32_small (z : Z) : (- 2 ^ 31 <= z < 2 ^ 31)%Z -> wrap32 z = z.
Proof. intros H. unfold wrap32. rewrite Z.mod_small; lia. Qed.

Lemma js_array_set_lookup_eq {A} (hole : A) (l : list A) (i : nat) (v : A) :
  js_array_set hole l i v !! i = Some v.
Proof.
  unfold js_array_set. destruct (Nat.ltb_spec i (length l)) as [Hlt|Hge].
  - by apply list_lookup_insert_eq.
  - rewrite lookup_app_r by lia. rewrite lookup_app_r; rewrite length_replicate; [|lia].
    by replace (i - length l - (i - length l)) with 0 by lia.
Qed.

Lemma js_array_set_lookup_ne {A} (hole : A) (l : list A) (i j : nat) (v : A) :
  i <> j ->
  default hole (js_array_set hole l i v !! j) = default hole (l !! j).
Proof.
  intros Hne. unfold js_array_set. destruct (Nat.ltb_spec i (length l)) as [Hlt|Hge].
  - by rewrite list_lookup_insert_ne.
  - destruct (Nat.lt_ge_cases j (length l)) as [Hj|Hj].
    + by rewrite lookup_app_l.
    + rewrite (lookup_ge_None_2 l j) by lia. simpl.
      rewrite lookup_app_r by lia.
      destruct (Nat.lt_ge_cases (j - length l) (i - length l)) as [Hk|Hk].
      * rewrite lookup_app_l by (rewrite length_replicate; lia).
        by rewrite lookup_replicate_2.
      * rewrite lookup_app_r by (rewrite length_replicate; lia).
        rewrite length_replicate.
        destruct (j - length l - (i - length l)) as [|k] eqn:Hk'; [lia|done].
Qed.

Lemma sz_get_set_eq (a : sizes_array) (i count bound : nat) (v : Z) :
  sz_room a count bound -> i < count -> (0 <= v <= Z.of_nat bound)%Z ->
  sz_get (sz_set a i v) i = Some v.
Proof.
  intros Hroom Hi Hv. destruct a as [l|l]; simpl in *.
  - by rewrite js_array_set_lookup_eq.
  - destruct Hroom as [Hlen Hb]. rewrite list_lookup_insert_eq by lia.
    by rewrite wrap32_small by lia.
Qed.

Lemma sz_get_set_ne (a : sizes_array) (i j : nat) (v : Z) :
  i <> j -> sz_get (sz_set a i v) j = sz_get a j.
Proof.
  intros Hne. destruct a as [l|l]; simpl.
  - pose proof (js_array_set_lookup_ne None l i j (Some v) Hne) as H.
    destruct (js_array_set None l i (Some v) !! j) as [[x|]|], (l !! j) as [[y|]|];
      simpl in *; congruence.
  - by rewrite list_lookup_insert_ne.
Qed.

Lemma sz_room_set (a : sizes_array) (i count bound : nat) (v : Z) :
  sz_room a count bound -> sz_room (sz_set a i v) count bound.
Proof. destruct a as [l|l]; simpl; [done|]. by rewrite length_insert. Qed.

Lemma total_bytes_cons (element : value) (elements : list value) :
  total_bytes (element :: elements) = length (field_bytes element) + total_bytes elements.
Proof. reflexivity. Qed.

Lemma field_bytes_framed (element : value) (bytes : list byte) :
  framed_bytes element = Some bytes -> field_bytes element = bytes.
Proof. unfold field_bytes. by intros ->. Qed.

Lemma field_bytes_unframed (element : value) :
  framed_bytes element = None -> field_bytes element = [].
Proof. unfold field_bytes. by intros ->. Qed.

(** The buffer after [writeBuffer_loop] when everything fits: the fields
    follow each other from [offset] on, the rest is untouched. *)
Lemma writeBuffer_loop_buffer (elements : list value) :
  forall (buffer : list byte) (sizes : sizes_array) (i offset : nat),
    offset + total_bytes elements <= length buffer ->
    fst (writeBuffer_loop buffer sizes i offset elements)
    = take offset buffer ++ concat (field_bytes <$> elements)
        ++ drop (offset + total_bytes elements) buffer.
Proof.
  induction elements as [|element elements IH]; intros buffer sizes i offset Hfit.
  - simpl. rewrite Nat.add_0_r. by rewrite take_drop.
  - rewrite total_bytes_cons in Hfit. simpl.
    destruct (framed_bytes element) as [source|] eqn:Hframed.
    + apply field_bytes_framed in Hframed as Hbytes. rewrite Hbytes in *.
      rewrite copy_fits by lia.
      rewrite IH by (rewrite !length_app, length_take, length_drop; lia).
      rewrite total_bytes_cons, Hbytes.
      assert (length (take offset buffer ++ source) = offset + length source) as Hpre
        by (rewrite length_app, length_take; lia).
      rewrite (app_assoc (take offset buffer) source).
      rewrite take_app_length' by done.
      rewrite (drop_app_add' _ _ (offset + length source)) by done.
      rewrite drop_drop. rewrite <- !app_assoc. by rewrite Nat.add_assoc.
    + apply field_bytes_unframed in Hframed as Hbytes. rewrite Hbytes in *. simpl in *.
      rewrite IH by lia. by rewrite total_bytes_cons, Hbytes.
Qed.

Lemma writeBuffer_loop_sizes_before (elements : list value) :
  forall (buffer : list byte) (sizes : sizes_array) (i offset j : nat),
    j < i ->
    sz_get (snd (writeBuffer_loop buffer sizes i offset elements)) j = sz_get sizes j.
Proof.
  induction elements as [|element elements IH]; intros buffer sizes i offset j Hj; [done|].
  simpl. destruct (framed_bytes element) as [source|].
  - destruct (copy source buffer offset) as [buffer' size].
    rewrite IH by lia. apply sz_get_set_ne. lia.
  - rewrite IH by lia. apply sz_get_set_ne. lia.
Qed.

Lemma writeBuffer_loop_room (elements : list value) :
  forall (buffer : list byte) (sizes : sizes_array) (i offset count bound : nat),
    sz_room sizes count bound ->
    sz_room (snd (writeBuffer_loop buffer sizes i offset elements)) count bound.
Proof.
  induction elements as [|element elements IH]; intros buffer sizes i offset count bound Hroom;
    [done|].
  simpl. destruct (framed_bytes element) as [source|].
  - destruct (copy source buffer offset) as [buffer' size]. by apply IH, sz_room_set.
  - by apply IH, sz_room_set.
Qed.

(** The lengths recorded by [writeBuffer_loop] when everything fits. *)
Lemma writeBuffer_loop_sizes (elements : list value) :
  forall (buffer : list byte) (sizes : sizes_array) (i offset bound k : nat) (element : value),
    offset + total_bytes elements <= length buffer ->
    total_bytes elements <= bound ->
    sz_room sizes (i + length elements) bound ->
    elements !! k = Some element ->
    sz_get (snd (writeBuffer_loop buffer sizes i offset elements)) (i + k)
    = Some (Z.of_nat (length (field_bytes element))).
Proof.
  induction elements as [|e elements IH];
    intros buffer sizes i offset bound k element Hfit Hbound Hroom Hk; [done|].
  rewrite total_bytes_cons in Hfit, Hbound. simpl in Hroom.
  assert (sz_room (sz_set sizes i (Z.of_nat (length (field_bytes e))))
            (S i + length elements) bound) as Hroom'.
  { apply sz_room_set. by replace (S i + length elements) with (i + S (length elements)) by lia. }
  assert (sz_get (sz_set sizes i (Z.of_nat (length (field_bytes e)))) i
          = Some (Z.of_nat (length (field_bytes e)))) as Hrecorded
    by (apply (sz_get_set_eq _ _ (i + S (length elements)) bound); [done|lia|lia]).
  simpl. destruct (framed_bytes e) as [source|] eqn:Hframed.
  - apply field_bytes_framed in Hframed as Hbytes. rewrite Hbytes in *.
    rewrite copy_fits by lia.
    destruct k as [|k]; simpl in Hk.
    + injection Hk as <-. by rewrite Nat.add_0_r, writeBuffer_loop_sizes_before, Hbytes by lia.
    + replace (i + S k) with (S i + k) by lia.
      apply (IH _ _ _ _ bound); try done; [|lia].
      rewrite !length_app, length_take, length_drop. lia.
  - apply field_bytes_unframed in Hframed as Hbytes. rewrite Hbytes in *. simpl in *.
    destruct k as [|k]; simpl in Hk.
    + injection Hk as <-. by rewrite Nat.add_0_r, writeBuffer_loop_sizes_before, Hbytes by lia.
    + replace (i + S k) with (S i + k) by lia.
      by apply (IH _ _ _ _ bound).
Qed.

Lemma slice_middle (pre bytes post : list byte) :
  slice (pre ++ bytes ++ post) (Some (Z.of_nat (length pre)))
    (Some (Z.of_nat (length pre) + Z.of_nat (length bytes))%Z) = bytes.
Proof.
  unfold slice, adjustOffset. rewrite !length_app.
  destruct (Z.ltb_spec (Z.of_nat (length pre)) 0) as [?|_]; [lia|].
  destruct (Z.ltb_spec (Z.of_nat (length pre) + Z.of_nat (length bytes)) 0) as [?|_]; [lia|].
  rewrite !Z.min_l by lia.
  destruct (Z.ltb_spec (Z.of_nat (length pre)) (Z.of_nat (length pre) + Z.of_nat (length bytes)))
    as [Hlt|Hge].
  - rewrite Nat2Z.id, drop_app_length.
    replace (Z.to_nat _) with (length bytes) by lia. by rewrite take_app_length.
  - destruct bytes; [done|simpl in Hge; lia].
Qed.

(** What [readBuffer_loop] returns on a buffer holding the chunks one after
    the other from [length pre] on, their lengths being recorded from
    index [i] on. *)
Lemma readBuffer_loop_chunks (chunks : list (list byte)) :
  forall (pre post : list byte) (sizes : sizes_array) (i : nat),
    (forall k c, chunks !! k = Some c -> sz_get sizes (i + k) = Some (Z.of_nat (length c))) ->
    readBuffer_loop (pre ++ concat chunks ++ post) sizes i (length chunks)
      (Some (Z.of_nat (length pre))) (Some (Z.of_nat (length pre)))
    = read_back <$> chunks.
Proof.
  induction chunks as [|c chunks IH]; intros pre post sizes i Hsizes; [done|].
  simpl. pose proof (Hsizes 0 c eq_refl) as H0. rewrite Nat.add_0_r in H0. rewrite H0. simpl.
  f_equal.
  - destruct c as [|b c].
    + simpl. rewrite Z.add_0_r, Z.eqb_refl. done.
    + destruct (Z.eqb_spec (Z.of_nat (length pre))
                  (Z.of_nat (length pre) + Z.of_nat (length (b :: c)))) as [Heq|_];
        [simpl in Heq; lia|].
      simpl negb. cbv iota. rewrite <- app_assoc. by rewrite slice_middle.
  - specialize (IH (pre ++ c) post sizes (S i)).
    rewrite length_app, Nat2Z.inj_add, <- !app_assoc in IH.
    rewrite <- app_assoc. apply IH.
    intros k c' Hk. replace (S i + k) with (i + S k) by lia. by apply Hsizes.
Qed.

(** Reading back what [writeBuffer] framed, when everything fits. *)
Lemma readBuffer_writeBuffer (buffer : list byte) (sizes : sizes_array)
    (elements : list value) :
  total_bytes elements <= length buffer ->
  sz_room sizes (length elements) (total_bytes elements) ->
  let written := writeBuffer buffer sizes elements in
  readBuffer (fst written) (snd written) (length elements)
  = (fun element => read_back (field_bytes element)) <$> elements.
Proof.
  intros Hfit Hroom written. unfold readBuffer, written, writeBuffer.
  rewrite writeBuffer_loop_buffer by done.
  pose proof (readBuffer_loop_chunks (field_bytes <$> elements) []
                (drop (total_bytes elements) buffer)
                (snd (writeBuffer_loop buffer sizes 0 0 elements)) 0) as Hread.
  rewrite length_fmap in Hread. change (Z.of_nat (length [])) with 0%Z in Hread.
  rewrite app_nil_l in Hread. change (take 0 buffer) with (@nil byte).
  rewrite app_nil_l. change (0 + total_bytes elements) with (total_bytes elements).
  rewrite Hread.
  - by rewrite <- list_fmap_compose.
  - intros k c Hk. rewrite list_lookup_fmap in Hk.
    destruct (elements !! k) as [element|] eqn:Hel; [|done].
    injection Hk as <-.
    by apply (writeBuffer_loop_sizes elements buffer sizes 0 0 (total_bytes elements) k).
Qed.


Lemma copy_nothing (target : list byte) (offset : nat) : copy [] target offset = (target, 0).
Proof.
  unfold copy. destruct (length target <=? offset); [done|].
  simpl. by rewrite Nat.add_0_r, take_drop.
Qed.

(** An element whose bytes are empty is written like one that is not
    framed at all. *)
Lemma writeBuffer_loop_empty (before after : list value) (empty other : value) :
  framed_bytes empty = Some [] -> framed_bytes other = None ->
  forall (buffer : list byte) (sizes : sizes_array) (i offset : nat),
    writeBuffer_loop buffer sizes i offset (before ++ empty :: after)
    = writeBuffer_loop buffer sizes i offset (before ++ other :: after).
Proof.
  intros Hempty Hother.
  induction before as [|element before IH]; intros buffer sizes i offset.
  - simpl. rewrite Hempty, Hother, copy_nothing. by rewrite Nat.add_0_r.
  - simpl. destruct (framed_bytes element) as [source|]; [|apply IH].
    destruct (copy source buffer offset) as [buffer' size]. apply IH.
Qed.

Lemma sz_cells_set (a : sizes_array) (i count : nat) (v : Z) :
  sz_cells a count -> sz_cells (sz_set a i v) count.
Proof. destruct a as [l|l]; simpl; [done|]. by rewrite length_insert. Qed.

Lemma sz_get_set_defined (a : sizes_array) (i count : nat) (v : Z) :
  sz_cells a count -> i < count -> is_Some (sz_get (sz_set a i v) i).
Proof.
  intros Hcells Hi. destruct a as [l|l]; simpl in *.
  - rewrite js_array_set_lookup_eq. by eexists.
  - rewrite list_lookup_insert_eq by lia. by eexists.
Qed.

Lemma sz_get_set_zero (a : sizes_array) (i count : nat) :
  sz_cells a count -> i < count -> sz_get (sz_set a i 0) i = Some 0%Z.
Proof.
  intros Hcells Hi. destruct a as [l|l]; simpl in *.
  - by rewrite js_array_set_lookup_eq.
  - by rewrite list_lookup_insert_eq by lia.
Qed.

Lemma writeBuffer_loop_cells (elements : list value) :
  forall (buffer : list byte) (sizes : sizes_array) (i offset count : nat),
    sz_cells sizes count ->
    sz_cells (snd (writeBuffer_loop buffer sizes i offset elements)) count.
Proof.
  induction elements as [|element elements IH]; intros buffer sizes i offset count Hcells;
    [done|].
  simpl. destruct (framed_bytes element) as [source|].
  - destruct (copy source buffer offset) as [buffer' size]. by apply IH, sz_cells_set.
  - by apply IH, sz_cells_set.
Qed.

(** Every position [writeBuffer_loop] goes through holds a number
    afterwards, whether or not the bytes fitted. *)
Lemma writeBuffer_loop_defined (elements : list value) :
  forall (buffer : list byte) (sizes : sizes_array) (i offset k : nat),
    sz_cells sizes (i + S k) -> k < length elements ->
    is_Some (sz_get (snd (writeBuffer_loop buffer sizes i offset elements)) (i + k)).
Proof.
  induction elements as [|element elements IH]; intros buffer sizes i offset k Hcells Hk;
    [simpl in Hk; lia|].
  simpl. destruct k as [|k].
  - rewrite Nat.add_0_r.
    destruct (framed_bytes element) as [source|].
    + destruct (copy source buffer offset) as [buffer' size].
      rewrite writeBuffer_loop_sizes_before by lia.
      apply (sz_get_set_defined _ _ (i + 1)); [done|lia].
    + rewrite writeBuffer_loop_sizes_before by lia.
      apply (sz_get_set_defined _ _ (i + 1)); [done|lia].
  - simpl in Hk. replace (i + S k) with (S i + k) by lia.
    destruct (framed_bytes element) as [source|].
    + destruct (copy source buffer offset) as [buffer' size].
      apply IH; [|lia]. apply sz_cells_set.
      by replace (S i + S k) with (i + S (S k)) by lia.
    + apply IH; [|lia]. apply sz_cells_set.
      by replace (S i + S k) with (i + S (S k)) by lia.
Qed.

(** The length recorded for an element without bytes is 0. *)
Lemma writeBuffer_loop_zero (before after : list value) (element : value) :
  field_bytes element = [] ->
  forall (buffer : list byte) (sizes : sizes_array) (i offset : nat),
    sz_cells sizes (i + S (length before)) ->
    sz_get (snd (writeBuffer_loop buffer sizes i offset (before ++ element :: after)))
      (i + length before) = Some 0%Z.
Proof.
  intros Hbytes.
  induction before as [|e before IH]; intros buffer sizes i offset Hcells.
  - simpl. rewrite Nat.add_0_r. unfold field_bytes in Hbytes.
    destruct (framed_bytes element) as [source|]; simpl in Hbytes.
    + subst source. rewrite copy_nothing. rewrite writeBuffer_loop_sizes_before by lia.
      apply (sz_get_set_zero _ _ (i + 1)); [done|lia].
    + rewrite writeBuffer_loop_sizes_before by lia.
      apply (sz_get_set_zero _ _ (i + 1)); [done|lia].
  - simpl. replace (i + S (length before)) with (S i + length before) by lia.
    destruct (framed_bytes e) as [source|].
    + destruct (copy source buffer offset) as [buffer' size].
      apply IH. apply sz_cells_set.
      by replace (S i + S (length before)) with (i + S (length (e :: before))) by (simpl; lia).
    + apply IH. apply sz_cells_set.
      by replace (S i + S (length before)) with (i + S (length (e :: before))) by (simpl; lia).
Qed.

(** [readBuffer_loop] returns [undefined] at a position whose recorded
    length is 0, when the lengths before it are numbers. *)
Lemma readBuffer_loop_absent (buffer : list byte) (sizes : sizes_array) (k : nat) :
  forall (i remaining : nat) (s : Z),
    (forall j, j < k -> is_Some (sz_get sizes (i + j))) ->
    sz_get sizes (i + k) = Some 0%Z -> k < remaining ->
    readBuffer_loop buffer sizes i remaining (Some s) (Some s) !! k = Some VUndefined.
Proof.
  induction k as [|k IH]; intros i remaining s Hbefore Hzero Hk;
    (destruct remaining as [|remaining]; [lia|]); simpl.
  - rewrite Nat.add_0_r in Hzero. rewrite Hzero. simpl.
    by rewrite Z.add_0_r, Z.eqb_refl.
  - destruct (Hbefore 0 ltac:(lia)) as [v Hv]. rewrite Nat.add_0_r in Hv. rewrite Hv. simpl.
    apply IH; [|by replace (S i + k) with (i + S k) by lia|lia].
    intros j Hj. replace (S i + j) with (i + S j) by lia. apply Hbefore. lia.
Qed.

(** C10 (an empty string is framed like an absent field).  For every
    buffer, array of lengths and list of elements, an empty string at some
    position and any element there that is neither a string nor a Buffer
    give the same buffer and the same array of lengths after [writeBuffer],
    hence the same result of [readBuffer] for every number of fields;
    moreover, when the array of lengths has a cell for each position up to
    that of the empty string, the length recorded for it is 0 and
    [readBuffer] returns [undefined] at its position. *)
Theorem empty_string_read_back_absent
    (buffer : list byte) (sizes : sizes_array) (before after : list value) (other : value) :
  framed_bytes other = None ->
  let with_empty := writeBuffer buffer sizes (before ++ VStr "" :: after) in
  let with_other := writeBuffer buffer sizes (before ++ other :: after) in
  (with_empty = with_other
   /\ forall count, readBuffer (fst with_empty) (snd with_empty) count
                    = readBuffer (fst with_other) (snd with_other) count)
  /\ (sz_cells sizes (S (length before)) ->
      sz_get (snd with_empty) (length before) = Some 0%Z
      /\ forall count, length before < count ->
           readBuffer (fst with_empty) (snd with_empty) count !! length before
           = Some VUndefined).
Proof.
  intros Hother with_empty with_other.
  assert (with_empty = with_other) as Hsame.
  { unfold with_empty, with_other, writeBuffer. by apply writeBuffer_loop_empty. }
  split; [split; [done|by rewrite Hsame]|].
  intros Hcells.
  assert (sz_get (snd with_empty) (length before) = Some 0%Z) as Hzero.
  { unfold with_empty, writeBuffer.
    by apply (writeBuffer_loop_zero before after (VStr "") eq_refl buffer sizes 0 0). }
  split; [done|]. intros count Hcount. unfold readBuffer.
  apply readBuffer_loop_absent; [|done|done].
  intros j Hj. unfold with_empty, writeBuffer.
  apply (writeBuffer_loop_defined _ buffer sizes 0 0 j).
  - destruct sizes as [l|l]; simpl in *; [done|lia].
  - rewrite length_app. simpl. lia.
Qed.

(** ** The pool *)

Section WorkerProperties.
Context `{crypto : Crypto} `{token_errors : TokenErrors} `{runtime : Runtime}.

(** What one run of [getAvailableWorker] does, case by case. *)
Lemma getAvailableWorker_cases {A} (callback : value -> M A) (retry : Z -> Z -> M A)
    (attempts : Z) (st : State) :
  getAvailableWorker callback retry attempts st
  = if length (workers st) =? 0 then callback VNull st
    else
      let worker := default VUndefined (head (availableWorkers st)) in
      let st1 := set_availableWorkers (tail (availableWorkers st)) st in
      if negb (truthy worker) && (0 <? attempts)%Z then
        retry (attempts - 1)%Z (Qfloor (Math_random (random_calls st) * 10)) (snd (random st1))
      else callback worker st1.
Proof.
  unfold getAvailableWorker, bind, get. simpl.
  destruct (length (workers st) =? 0) eqn:Hw; [done|].
  unfold shift. destruct st as [ws q rq rp rqs rps ts rc lg]. simpl in *.
  destruct q as [|v q]; simpl; rewrite Hw; simpl; rewrite ?andb_true_r.
  - destruct (0 <? attempts)%Z; done.
  - destruct (negb (truthy v) && (0 <? attempts)%Z); done.
Qed.

(** [Math.floor(Math.random() * 10)] for a sample in [0, 1). *)
Lemma backoff_delay_range (r : Q) :
  (0 <= r)%Q -> (r < 1)%Q -> (0 <= Qfloor (r * 10) < 10)%Z.
Proof.
  intros H0 H1. split.
  - change 0%Z with (Qfloor 0). apply Qfloor_resp_le.
    apply Qmult_le_0_compat; [done|discriminate].
  - rewrite Zlt_Qlt. apply Qle_lt_trans with (r * 10)%Q; [apply Qfloor_le|].
    change (inject_Z 10) with (1 * 10)%Q. by apply Qmult_lt_r.
Qed.

(** One attempt of a request in the event loop is one attempt as
    [acquisition] runs it: the same call of the callback, or the same
    retry, which the event loop keeps among its pending tasks. *)
Lemma acquire_attempt (k : continuation) (attempts : Z) (st : State) :
  match getAvailableWorker
          (fun worker => let* a := resume k worker in ret (inl a))
          (fun attempts' delay => ret (inr (attempts', delay)))
          attempts st with
  | (Ok (inl a), st') => acquire k attempts st = (Ok a, st')
  | (Ok (inr (attempts', delay)), st') =>
      acquire k attempts st
      = (Ok tt, set_pending (pending st' ++ [Retry delay k attempts']) st')
  | (Throw e, st') => acquire k attempts st = (Throw e, st')
  end.
Proof.
  unfold acquire. rewrite !getAvailableWorker_cases.
  destruct (length (workers st) =? 0).
  - unfold bind, ret. by destruct (resume k VNull st) as [[[]|e] st'].
  - simpl.
    destruct (negb (truthy (default VUndefined (head (availableWorkers st))))
              && (0 <? attempts)%Z); [done|].
    unfold bind, ret. by destruct (resume k _ _) as [[[]|e] st'].
Qed.

(** A request for a worker comes to an end, with any property of the
    state that holds when it is made and after whatever runs between two
    attempts. *)
Lemma acquisition_ends {A} (callback : value -> M A) (P : State -> Prop)
    (fuel : nat) (others : nat -> State -> State) (attempts : Z) (st : State) :
  Z.to_nat attempts < fuel ->
  P st -> (forall n s, P (others n s)) ->
  exists (delays : list Z) (st0 : State) (worker : value) (st' : State),
    acquisition fuel others callback attempts st = Some (delays, callback worker st')
    /\ length delays <= Z.to_nat attempts
    /\ ((forall n, 0 <= Math_random n /\ Math_random n < 1)%Q ->
        Forall (fun delay => (0 <= delay < 10)%Z) delays)
    /\ (delays = [] -> st0 = st)
    /\ last_attempt st0 worker st'
    /\ (truthy worker = false ->
        workers st0 = [] \/ length delays = Z.to_nat attempts)
    /\ P st0.
Proof.
  revert others attempts st.
  induction fuel as [|fuel IH]; intros others attempts st Hfuel HP Hothers; [lia|].
  simpl. rewrite getAvailableWorker_cases.
  destruct (length (workers st) =? 0) eqn:Hworkers.
  - exists [], st, VNull, st.
    apply Nat.eqb_eq, nil_length_inv in Hworkers.
    split; [unfold bind, ret; by destruct (callback VNull st) as [[a|e] st']|].
    repeat split; [simpl; lia|constructor|left; by repeat split|by left|done].
  - apply Nat.eqb_neq in Hworkers.
    assert (workers st <> []) as Hne by (intros H; rewrite H in Hworkers; done).
    simpl.
    destruct (negb (truthy (default VUndefined (head (availableWorkers st)))))
      eqn:Hfalsy; simpl.
    + destruct (Z.ltb_spec 0 attempts) as [Hpos|Hnonpos].
      * unfold ret. simpl.
        set (st1 := others 0 _).
        destruct (IH (fun n => others (S n)) (attempts - 1)%Z st1 ltac:(lia)
                    (Hothers 0 _) (fun n => Hothers (S n)))
          as (delays & st0 & worker & st' & Hrun & Hlen & Hdelays & Hfirst & Hlast
              & Hfallback & HP0).
        exists (Qfloor (Math_random (random_calls st) * 10) :: delays), st0, worker, st'.
        rewrite Hrun. repeat split; try done.
        -- simpl. lia.
        -- intros Hrandom. constructor; [|by apply Hdelays].
           apply backoff_delay_range; apply Hrandom.
        -- intros Htruthy. destruct (Hfallback Htruthy) as [?|Hall]; [by left|right].
           simpl. lia.
      * exists [], st, (default VUndefined (head (availableWorkers st))),
          (set_availableWorkers (tail (availableWorkers st)) st).
        split; [unfold bind, ret; by destruct (callback _ _) as [[a|e] st']|].
        repeat split; [simpl; lia|constructor|right; by repeat split| |done].
        intros _. right. simpl. lia.
    + exists [], st, (default VUndefined (head (availableWorkers st))),
        (set_availableWorkers (tail (availableWorkers st)) st).
      split; [unfold bind, ret; by destruct (callback _ _) as [[a|e] st']|].
      repeat split; [simpl; lia|constructor|right; by repeat split| |done].
      intros Htruthy. rewrite Htruthy in Hfalsy. done.
Qed.


(** With no usable index the callback of either entry point runs the
    operation in process and touches nothing but the log. *)
Lemma resume_without_worker (k : continuation) (worker : value) (st : State) :
  truthy worker = false ->
  exists r : result unit,
    resume k worker st = (r, emit_all (console k worker ++ in_process_calls k) st)
    /\ ((forall err v, callback_throws (callback_of k) err v = None) -> r = Ok tt).
Proof.
  intros Hfalsy.
  destruct k as [algorithm secret header payload c|algorithm secret input signature c];
    unfold resume, sign_with, verify_with, in_process_calls, in_process, callback_of,
      console, emit_all;
    rewrite Hfalsy; unfold try_catch, bind, lift, call, modify, throw, ret; simpl.
  - destruct (createSignature algorithm secret header payload) as [v|e]; simpl.
    + destruct (callback_throws c None v) as [e'|] eqn:Hthrows; simpl.
      * destruct (callback_throws c (Some e') VUndefined) as [e''|] eqn:Hagain;
          eexists; (split; [reflexivity|]); intros Hnever; [|done].
        by rewrite Hnever in Hthrows.
      * eexists. by split.
    + destruct (callback_throws c (Some e) VUndefined) as [e'|] eqn:Hthrows;
        eexists; (split; [reflexivity|]); intros Hnever; [|done].
      by rewrite Hnever in Hthrows.
  - destruct (verifySignature algorithm secret input signature) as [v|e]; simpl.
    + destruct (callback_throws c None v) as [e'|] eqn:Hthrows; simpl.
      * destruct (callback_throws c (Some e') VUndefined) as [e''|] eqn:Hagain;
          eexists; (split; [reflexivity|]); intros Hnever; [|done].
        by rewrite Hnever in Hthrows.
      * eexists. by split.
    + destruct (callback_throws c (Some e) VUndefined) as [e'|] eqn:Hthrows;
        eexists; (split; [reflexivity|]); intros Hnever; [|done].
      by rewrite Hnever in Hthrows.
Qed.

Lemma last_attempt_falsy (st0 : State) (worker : value) (st' : State) :
  nothing_available st0 -> last_attempt st0 worker st' -> truthy worker = false.
Proof.
  intros Hnothing [(_ & -> & _)|(_ & -> & _)]; [done|].
  destruct (head (availableWorkers st0)) as [v|] eqn:Hhead; [|done].
  by apply Hnothing.
Qed.


Lemma start_worker_workers (size : nat) (indices : list nat) :
  forall st, length (workers (foldl (start_worker size) st indices))
             = length (workers st) + length indices.
Proof.
  induction indices as [|i indices IH]; intros st; simpl; [lia|].
  rewrite IH. simpl. rewrite length_app. simpl. lia.
Qed.

Lemma start_worker_queue (size : nat) (indices : list nat) :
  forall st, availableWorkers (foldl (start_worker size) st indices) = availableWorkers st.
Proof. induction indices as [|i indices IH]; intros st; simpl; [done|]. by rewrite IH. Qed.

Lemma emit_terminate_fields (indices : list nat) :
  forall st,
    let st' := foldl (fun s i => emit (Terminate i) s) st indices in
    workers st' = workers st /\ availableWorkers st' = availableWorkers st
    /\ pending st' = pending st /\ log st' = log st ++ (Terminate <$> indices).
Proof.
  induction indices as [|i indices IH]; intros st; simpl.
  - by rewrite app_nil_r.
  - destruct (IH (emit (Terminate i) st)) as (Hw & Hq & Hp & Hl). simpl in *.
    rewrite Hw, Hq, Hp, Hl. by rewrite <- app_assoc.
Qed.

(** C6 (starting twice, stopping twice).  [startWorkers] called while the
    pool has workers returns at once and leaves the whole state as it is:
    the workers, the shared regions, the arrays of lengths and the queue;
    so does [stopWorkers] called while the pool has no workers.  Hence
    starting twice in a row is starting once, and stopping twice is
    stopping once. *)
Theorem start_stop_idempotent (size : nat) (callback : option nat) (st : State) :
  (workers st <> [] -> startWorkers size st = (Ok tt, st))
  /\ (workers st = [] -> stopWorkers callback st = (Ok tt, st))
  /\ (forall size',
        bind (startWorkers size) (fun _ => startWorkers size') st = startWorkers size st)
  /\ (forall callback',
        bind (stopWorkers callback) (fun _ => stopWorkers callback') st
        = stopWorkers callback st).
Proof.
  assert (forall s : State, workers s <> [] -> (length (workers s) =? 0) = false) as Hrunning.
  { intros s Hs. apply Nat.eqb_neq. by destruct (workers s). }
  repeat split.
  - intros Hne. unfold startWorkers. by rewrite Hrunning.
  - intros Hnone. unfold stopWorkers. by rewrite Hnone.
  - intros size'. unfold bind, startWorkers.
    destruct (length (workers st) =? 0) eqn:Hw; simpl; [|by rewrite Hw].
    rewrite start_worker_workers, length_seq.
    apply Nat.eqb_eq in Hw. rewrite Hw. simpl.
    destruct cores as [|n] eqn:Hcores; [done|]. done.
  - intros callback'. unfold bind, stopWorkers.
    destruct (length (workers st) =? 0) eqn:Hw; simpl; [by rewrite Hw|].
    by destruct callback.
Qed.

(** C7, as amended (stopping a running pool).  When the pool has workers,
    [stopWorkers] terminates each of them and empties the list of workers;
    it leaves the availability queue as it is.  After that, while the pool
    has no workers, [getAvailableWorker] takes nothing from the queue: it
    calls its callback with [null] at once. *)
Theorem stopWorkers_clears_pool_only {A} (callback : option nat) (st : State)
    (continue : value -> M A) (retry : Z -> Z -> M A) (attempts : Z) :
  workers st <> [] ->
  let st' := snd (stopWorkers callback st) in
  workers st' = []
  /\ log st' = log st ++ (Terminate <$> seq 0 (length (workers st)))
  /\ availableWorkers st' = availableWorkers st
  /\ getAvailableWorker continue retry attempts st' = continue VNull st'.
Proof.
  intros Hne st'.
  assert (workers st' = [] /\ log st' = log st ++ (Terminate <$> seq 0 (length (workers st)))
          /\ availableWorkers st' = availableWorkers st) as (Hw & Hl & Hq).
  { unfold st', stopWorkers.
    replace (length (workers st) =? 0) with false
      by (symmetry; apply Nat.eqb_neq; by destruct (workers st)).
    destruct (emit_terminate_fields (seq 0 (length (workers st))) st) as (_ & Hq & _ & Hl).
    by destruct callback. }
  repeat split; try done.
  rewrite getAvailableWorker_cases. by rewrite Hw.
Qed.

Lemma carried_string (s : string) : s <> ""%string -> carried (VStr s) = Some s.
Proof.
  intros Hs. unfold carried, field_bytes. simpl. unfold Buffer_from.
  destruct (list_byte_of_string s) as [|b bytes] eqn:Hbytes.
  - destruct s; [done|discriminate].
  - simpl. unfold toString_utf8. by rewrite <- Hbytes, string_of_list_byte_of_string.
Qed.

(** The error rebuilt by a reply handler from a reply of six fields that
    fits the reply region. *)
Lemma error_of_reply_written (replyBuffer : list byte) (replySizes : sizes_array)
    (error original : js_error) :
  total_bytes (error_fields error original) <= length replyBuffer ->
  sz_room replySizes 6 (total_bytes (error_fields error original)) ->
  let written := writeBuffer replyBuffer replySizes (error_fields error original) in
  error_of_reply (readBuffer (fst written) (snd written) 6)
  = deserializeWorkerError
      (carried (e_code error)) (carried (e_message error)) (carried (e_stack error))
      (carried (js_or (e_code original) (VStr ""))) (carried (e_message original))
      (carried (e_stack original)).
Proof.
  intros Hfit Hroom written.
  pose proof (readBuffer_writeBuffer replyBuffer replySizes (error_fields error original)
                Hfit Hroom) as Hread.
  simpl in Hread. unfold written. by rewrite Hread.
Qed.


End WorkerProperties.

(** ** The model on concrete requests *)


Lemma empty_string_read_back_absent_witness :
  let buffer := replicate 200 x00 in
  let sizes := Int32Array (replicate 10 0%Z) in
  let with_empty := writeBuffer buffer sizes ([VStr "sign"] ++ VStr "" :: [VStr "e30"]) in
  let with_other := writeBuffer buffer sizes ([VStr "sign"] ++ VNull :: [VStr "e30"]) in
  framed_bytes VNull = None
  /\ sz_cells sizes 2
  /\ with_empty = with_other
  /\ readBuffer (fst with_empty) (snd with_empty) 3
     = readBuffer (fst with_other) (snd with_other) 3
  /\ sz_get (snd with_empty) 1 = Some 0%Z
  /\ readBuffer (fst with_empty) (snd with_empty) 3 !! 1 = Some VUndefined.
Proof.
  assert (sz_cells (Int32Array (replicate 10 0%Z)) 2) as Hcells by (vm_compute; lia).
  destruct (empty_string_read_back_absent (replicate 200 x00)
              (Int32Array (replicate 10 0%Z)) [VStr "sign"] [VStr "e30"] VNull eq_refl)
    as [[Hsame Hread] Habsent].
  destruct (Habsent Hcells) as [Hzero Hundefined].
  split; [reflexivity|]. split; [exact Hcells|]. split; [exact Hsame|].
  split; [apply Hread|]. split; [exact Hzero|].
  apply Hundefined. simpl. lia.
Defined.



Lemma start_stop_idempotent_witness :
  workers running <> []
  /\ workers (initial (runtime := machine 2)) = []
  /\ startWorkers (runtime := machine 2) 4096 running = (Ok tt, running)
  /\ stopWorkers None (initial (runtime := machine 2))
     = (Ok tt, initial (runtime := machine 2)).
Proof.
  assert (workers running <> []) as Hrunning by (vm_compute; discriminate).
  assert (workers (initial (runtime := machine 2)) = []) as Hstopped by reflexivity.
  split; [exact Hrunning|]. split; [exact Hstopped|]. split.
  - exact (proj1 (start_stop_idempotent (runtime := machine 2) 4096 None running) Hrunning).
  - exact (proj1 (proj2 (start_stop_idempotent (runtime := machine 2) 4096 None
                           (initial (runtime := machine 2)))) Hstopped).
Defined.

(** C7, as stated, fails: after [stopWorkers] on a running pool of two
    workers both indices are still in the availability queue. *)
Lemma stopWorkers_leaves_queue :
  workers running <> []
  /\ availableWorkers (snd (stopWorkers None running)) = [VNum 0; VNum 1]
  /\ availableWorkers (snd (stopWorkers None running)) <> [].
Proof. vm_compute. repeat split; discriminate. Qed.

Lemma stopWorkers_clears_pool_only_witness :
  let st' := snd (stopWorkers None running) in
  workers running <> []
  /\ workers st' = []
  /\ log st' = log running ++ (Terminate <$> seq 0 (length (workers running)))
  /\ availableWorkers st' = availableWorkers running
  /\ getAvailableWorker (runtime := machine 2) (fun worker => ret worker)
       (fun _ _ => ret VUndefined) 3 st'
     = ret VNull st'.
Proof.
  assert (workers running <> []) as Hrunning by (vm_compute; discriminate).
  split; [exact Hrunning|].
  exact (stopWorkers_clears_pool_only (runtime := machine 2) None running
           (fun worker => ret worker) (fun _ _ => ret VUndefined) 3 Hrunning).
Defined.



(** The state a reply handler hands to the caller's callback: the handler
    of a sign reply has appended the index of its worker to the queue; the
    handler of a verify reply has stored 0 in the cell of the queue at that
    index instead. *)
Lemma sign_reply_releases (workerIndex callback : nat) (response : Z) (st : State)
    (data : list value) (st1 : State) `{runtime : Runtime} :
  read_reply workerIndex (reply_fields response) st = (Ok data, st1) ->
  (response < 0)%Z ->
  sign_reply workerIndex callback response st
  = call callback (Some (error_of_reply data)) VUndefined
      (set_availableWorkers (availableWorkers st1 ++ [VNum (Z.of_nat workerIndex)]) st1).
Proof.
  intros Hread Hnegative. unfold sign_reply, bind. rewrite Hread. simpl.
  by destruct (Z.ltb_spec response 0); [|lia].
Qed.

Lemma verify_reply_overwrites (workerIndex callback : nat) (response : Z) (st : State)
    (data : list value) (st1 : State) `{runtime : Runtime} :
  read_reply workerIndex (reply_fields response) st = (Ok data, st1) ->
  (response < 0)%Z ->
  verify_reply workerIndex callback response st
  = call callback (Some (error_of_reply data)) VUndefined
      (set_availableWorkers
         (js_array_set VUndefined (availableWorkers st1) workerIndex (VNum 0)) st1).
Proof.
  intros Hread Hnegative. unfold verify_reply, bind. rewrite Hread. simpl.
  by destruct (Z.ltb_spec response 0); [|lia].
Qed.

(** C1 on a verify reply.  On a machine with two processors the pool is
    started and a verify request is made; the first attempt drops index 0
    and schedules a retry, the retry takes index 1 and notifies worker 1;
    the worker handles the request and its reply is delivered.  The
    callback gets the result, but the queue, empty before the reply, now
    holds a hole and the number 0: index 1 is not back in the queue.  The
    same run with a sign request puts index 1 back. *)
Lemma verify_reply_does_not_release :
  let requests (call : label) :=
    run (runtime := machine 2) [CallStart 4096; call; RunTask 0; WorkerRuns 1; Deliver 1]
      (initial (runtime := machine 2)) in
  let verified :=
    requests (CallVerify (VStr "HS512") (VStr "secret") (VStr "e30.e30")
                (VStr sample_signature) 7) in
  let signed :=
    requests (CallSign (VStr "HS512") (VStr "secret") (VStr "e30") (VStr "e30") 7) in
  log verified = [PostMessage 1; Callback 7 None (VBool true)]
  /\ availableWorkers verified = [VUndefined; VNum 0]
  /\ (VNum 1 ∉ availableWorkers verified)
  /\ log signed = [ConsoleLog (VNum 1); PostMessage 1;
                   Callback 7 None (VStr sample_signature)]
  /\ availableWorkers signed = [VNum 1].
Proof.
  vm_compute. repeat split.
  intros Hin. apply list_elem_of_In in Hin. simpl in Hin.
  destruct Hin as [H|[H|[]]]; discriminate.
Qed.

(** C4 on index 0.  On a machine with one processor the pool is started
    and the queue holds index 0.  A sign request takes index 0 from the
    queue at its first attempt, does not use it and schedules a retry; the
    three retries find the queue empty, and the operation is run in
    process: worker 0 is never notified, its request region is never
    written, no listener is installed.  Handed index 0 directly, the
    callback of either entry point runs the operation in process as well. *)
Lemma index_zero_is_not_offloaded :
  let sign := CallSign (VStr "HS512") (VStr "secret") (VStr "e30") (VStr "e30") 7 in
  let started := run (runtime := machine 1) [CallStart 4096] (initial (runtime := machine 1)) in
  let requested := run (runtime := machine 1) [sign] started in
  let done := run (runtime := machine 1) [RunTask 0; RunTask 0; RunTask 0] requested in
  availableWorkers started = [VNum 0]
  /\ (availableWorkers requested = [] /\ log requested = []
      /\ pending requested
         = [Retry 5 (SignWith (VStr "HS512") (VStr "secret") (VStr "e30") (VStr "e30") 7) 2])
  /\ (log done = [ConsoleLog VUndefined; Callback 7 None (VStr sample_signature)]
      /\ workers done = [{| listeners := []; inbox := 0; outbox := [] |}]
      /\ requestsSharedBuffers done = [Some (replicate 4096 x00)]
      /\ availableWorkers done = [] /\ pending done = [])
  /\ snd (sign_with (runtime := machine 2) (VStr "HS512") (VStr "secret") (VStr "e30")
            (VStr "e30") 7 (VNum 0) running)
     = emit_all [ConsoleLog (VNum 0); Callback 7 None (VStr sample_signature)] running.
Proof. vm_compute. repeat split. Qed.

(** ** One request at a time on each slot *)

Lemma same_pool_refl (st : State) : same_pool st st.
Proof. by split. Qed.

Lemma same_pool_trans (st1 st2 st3 : State) :
  same_pool st1 st2 -> same_pool st2 st3 -> same_pool st1 st3.
Proof. intros [H1 H2] [H3 H4]. split; congruence. Qed.

Lemma same_pool_invariant (st st' : State) :
  same_pool st st' -> pool_invariant st -> pool_invariant st'.
Proof.
  intros [Hw Hq] [H1 H2 H3 H4].
  split; unfold in_flight, queued in *; rewrite ?Hw, ?Hq; done.
Qed.

Lemma same_pool_emit (e : event) (st : State) : same_pool st (emit e st).
Proof. by split. Qed.

Lemma in_flight_insert (st st' : State) (i j : nat) (w w' : worker) :
  workers st !! i = Some w ->
  workers st' = <[i:=w']> (workers st) ->
  in_flight st' j = if decide (j = i) then inbox w' + length (outbox w') else in_flight st j.
Proof.
  intros Hw Hws. unfold in_flight. rewrite Hws.
  destruct (decide (j = i)) as [->|Hne].
  - rewrite list_lookup_insert_eq; [done|]. by eapply lookup_lt_Some.
  - by rewrite list_lookup_insert_ne.
Qed.

Lemma listeners_insert (st st' : State) (i j : nat) (w w' wj : worker) :
  workers st !! i = Some w ->
  workers st' = <[i:=w']> (workers st) ->
  workers st' !! j = Some wj ->
  (j = i /\ wj = w') \/ (j <> i /\ workers st !! j = Some wj).
Proof.
  intros Hw Hws Hj. rewrite Hws in Hj.
  destruct (decide (j = i)) as [->|Hne].
  - rewrite list_lookup_insert_eq in Hj by (by eapply lookup_lt_Some).
    left. split; congruence.
  - rewrite list_lookup_insert_ne in Hj by done. by right.
Qed.

(** Taking the first cell off the queue. *)
Lemma queued_shift (st : State) :
  queued st
  = option_list (handed_out (default VUndefined (head (availableWorkers st))))
      ++ queued (set_availableWorkers (tail (availableWorkers st)) st).
Proof.
  unfold queued. simpl. destruct (availableWorkers st) as [|v q]; [done|]. simpl.
  by destruct (handed_out v).
Qed.

Lemma shift_invariant (st : State) :
  pool_invariant st ->
  pool_invariant (set_availableWorkers (tail (availableWorkers st)) st).
Proof.
  intros [H1 H2 H3 H4]. pose proof (queued_shift st) as Hq.
  split; try done.
  - rewrite Hq in H2. by apply NoDup_app in H2 as (_ & _ & ?).
  - intros i Hi. apply H3. rewrite Hq. apply elem_of_app. by right.
Qed.

Lemma shift_handed_out (st : State) (i : nat) :
  pool_invariant st ->
  handed_out (default VUndefined (head (availableWorkers st))) = Some i ->
  in_flight st i = 0 /\ i ∉ queued (set_availableWorkers (tail (availableWorkers st)) st).
Proof.
  intros [H1 H2 H3 H4] Hi. pose proof (queued_shift st) as Hq. rewrite Hi in Hq. simpl in Hq.
  rewrite Hq in H2, H3. split.
  - apply H3. by left.
  - by apply NoDup_cons in H2 as [? _].
Qed.

(** Appending an index to the queue, as the handler of a sign reply does. *)
Lemma queued_push (st : State) (i : nat) :
  queued (set_availableWorkers (availableWorkers st ++ [VNum (Z.of_nat i)]) st)
  = queued st ++ (if decide (i = 0) then [] else [i]).
Proof.
  unfold queued. simpl. rewrite omap_app. f_equal.
  unfold handed_out. simpl.
  destruct (decide (i = 0)) as [->|Hne]; [done|].
  destruct (Z.eqb_spec (Z.of_nat i) 0) as [?|_]; [lia|]. simpl.
  destruct (Z.leb_spec 0 (Z.of_nat i)) as [_|?]; [|lia]. simpl.
  by rewrite Nat2Z.id.
Qed.

(** Storing 0 in a cell of the queue, as the handler of a verify reply
    does: no index is added. *)
Lemma queued_overwrite (q : list value) (i : nat) :
  omap handed_out (js_array_set VUndefined q i (VNum 0)) `sublist_of` omap handed_out q.
Proof.
  unfold js_array_set. destruct (Nat.ltb_spec i (length q)) as [Hlt|Hge].
  - revert i Hlt. induction q as [|v q IH]; intros i Hlt; [simpl in Hlt; lia|].
    destruct i as [|i]; simpl.
    + destruct (handed_out v); [by apply sublist_cons|done].
    + simpl in Hlt. specialize (IH i ltac:(lia)).
      destruct (handed_out v); [by apply sublist_skip|done].
  - rewrite !omap_app. simpl.
    replace (omap handed_out (replicate (i - length q) VUndefined)) with (@nil nat).
    + by rewrite app_nil_r.
    + induction (i - length q) as [|n IH]; [done|]. simpl. exact IH.
Qed.

Section OneRequestPerSlot.
Context `{crypto : Crypto} `{token_errors : TokenErrors} `{runtime : Runtime}.

Lemma call_same_pool (callback : nat) (err : option js_error) (v : value) (st : State) :
  same_pool st (snd (call callback err v st)).
Proof.
  unfold call, bind, modify, throw, ret. simpl.
  by destruct (callback_throws callback err v).
Qed.

Lemma toplevel_same_pool (m : M unit) (st : State) :
  same_pool st (snd (m st)) -> same_pool st (toplevel m st).
Proof.
  unfold toplevel. destruct (m st) as [[[]|e] st']; simpl; [done|].
  intros H. eapply same_pool_trans; [exact H|apply same_pool_emit].
Qed.

Lemma toplevel_invariant (m : M unit) (st : State) :
  pool_invariant (snd (m st)) -> pool_invariant (toplevel m st).
Proof.
  unfold toplevel. destruct (m st) as [[[]|e] st']; simpl; [done|].
  apply same_pool_invariant, same_pool_emit.
Qed.

(** Without a usable index the callbacks leave the pool as it is. *)
Lemma resume_falsy_same_pool (k : continuation) (worker : value) (st : State) :
  truthy worker = false -> same_pool st (snd (resume k worker st)).
Proof.
  intros Hfalsy. destruct (resume_without_worker k worker st Hfalsy) as (r & -> & _).
  simpl. unfold emit_all. generalize (console k worker ++ in_process_calls k).
  intros events. revert st. induction events as [|e events IH]; intros st; simpl.
  - apply same_pool_refl.
  - eapply same_pool_trans; [apply (same_pool_emit e)|apply IH].
Qed.

(** Handing a request to a worker either fails before the worker is
    notified, the pool being as before, or installs the listener on the
    worker of that index and adds one notification to its inbox. *)
Lemma offload_pool (v : value) (elements : list value) (l : nat -> listener) (st : State) :
  let st' := snd (offload v elements l st) in
  same_pool st st'
  \/ exists i w,
       index_of v = Some i /\ workers st !! i = Some w
       /\ workers st'
          = <[i:={| listeners := [l i]; inbox := S (inbox w); outbox := outbox w |}]>
              (workers st)
       /\ availableWorkers st' = availableWorkers st.
Proof.
  unfold offload, bind, get, region. simpl.
  destruct (at_index (requestsSharedBuffers st) v) as [[requestBuffer|]|];
    try (left; apply same_pool_refl). simpl.
  destruct (at_index (repliesSharedBuffers st) v) as [[replyBuffer|]|];
    try (left; apply same_pool_refl). simpl.
  destruct (index_of v) as [i|] eqn:Hindex; [|left; apply same_pool_refl].
  unfold write_request, bind, get. simpl.
  destruct (mjoin (requestsSizesArray st !! i)) as [sizes|]; [|by left].
  destruct (writeBuffer requestBuffer sizes elements) as [buffer sizes'].
  unfold modify, listen_and_notify, bind, get. simpl.
  destruct (workers st !! i) as [w|] eqn:Hw; [|by left].
  right. exists i, w. by repeat split.
Qed.

Lemma dispatch_invariant (st st' : State) (i : nat) (w : worker) (l : listener) :
  pool_invariant st ->
  in_flight st i = 0 -> i ∉ queued st ->
  workers st !! i = Some w ->
  workers st' = <[i:={| listeners := [l]; inbox := S (inbox w); outbox := outbox w |}]>
                  (workers st) ->
  availableWorkers st' = availableWorkers st ->
  listener_index l = i ->
  pool_invariant st'.
Proof.
  intros [H1 H2 H3 H4] Hidle Hnotin Hw Hws Hq Hl.
  assert (inbox w + length (outbox w) = 0) as Hzero.
  { unfold in_flight in Hidle. by rewrite Hw in Hidle. }
  split.
  - intros j. rewrite (in_flight_insert st st' i j w _ Hw Hws).
    destruct (decide (j = i)); [simpl; lia|apply H1].
  - unfold queued. by rewrite Hq.
  - intros j Hj. unfold queued in Hj. rewrite Hq in Hj.
    rewrite (in_flight_insert st st' i j w _ Hw Hws).
    destruct (decide (j = i)) as [->|Hne]; [done|by apply H3].
  - intros j wj l' Hj Hl'.
    destruct (listeners_insert st st' i j w _ wj Hw Hws Hj) as [[-> ->]|[Hne Hj']].
    + simpl in *. apply list_elem_of_singleton in Hl'. by subst l'.
    + by apply (H4 j wj l').
Qed.

(** The callback of either entry point keeps the invariant, when it is
    handed what [getAvailableWorker] has just taken from the queue. *)
Lemma resume_invariant (k : continuation) (st : State) :
  pool_invariant st ->
  pool_invariant
    (snd (resume k (default VUndefined (head (availableWorkers st)))
            (set_availableWorkers (tail (availableWorkers st)) st))).
Proof.
  intros Hinv.
  set (worker := default VUndefined (head (availableWorkers st))).
  set (st1 := set_availableWorkers (tail (availableWorkers st)) st).
  pose proof (shift_invariant st Hinv) as Hinv1. fold st1 in Hinv1.
  destruct (truthy worker) eqn:Htruthy;
    [|by eapply same_pool_invariant; [apply resume_falsy_same_pool|]].
  assert (forall (elements : list value) (l : nat -> listener) (st2 : State),
            same_pool st1 st2 -> (forall i, listener_index (l i) = i) ->
            pool_invariant (snd (offload worker elements l st2))) as Hoffload.
  { intros elements l st2 Hsame Hl.
    pose proof (same_pool_invariant _ _ Hsame Hinv1) as Hinv2.
    destruct (offload_pool worker elements l st2) as [Hsame'|(i & w & Hi & Hw & Hws & Hq)].
    - by eapply same_pool_invariant.
    - assert (handed_out worker = Some i) as Hout by (unfold handed_out; by rewrite Htruthy).
      destruct (shift_handed_out st i Hinv Hout) as [Hidle Hnotin]. fold st1 in Hnotin.
      destruct Hsame as [Hsw Hsq].
      apply (dispatch_invariant st2 _ i w (l i)); try done.
      + unfold in_flight in *. by rewrite Hsw.
      + unfold queued in *. by rewrite Hsq. }
  destruct k as [algorithm secret header payload c|algorithm secret input signature c];
    unfold resume, sign_with, verify_with; rewrite Htruthy; simpl.
  - unfold bind, modify. simpl. apply Hoffload; [apply same_pool_emit|done].
  - apply Hoffload; [apply same_pool_refl|done].
Qed.

Lemma acquire_invariant (k : continuation) (attempts : Z) (st : State) :
  pool_invariant st -> pool_invariant (snd (acquire k attempts st)).
Proof.
  intros Hinv. unfold acquire. rewrite getAvailableWorker_cases.
  destruct (length (workers st) =? 0).
  - by eapply same_pool_invariant; [apply resume_falsy_same_pool|].
  - simpl.
    destruct (negb (truthy (default VUndefined (head (availableWorkers st))))
              && (0 <? attempts)%Z).
    + eapply same_pool_invariant; [|by apply shift_invariant]. by split.
    + by apply resume_invariant.
Qed.

(** A reply handler leaves the workers as they are; a sign handler may
    append its index to the queue, a verify handler may store 0 in it. *)
Lemma run_listener_pool (l : listener) (response : Z) (st : State) :
  let st' := snd (run_listener l response st) in
  workers st' = workers st
  /\ (availableWorkers st' = availableWorkers st
      \/ (exists c, l = SignReply (listener_index l) c)
         /\ availableWorkers st'
            = availableWorkers st ++ [VNum (Z.of_nat (listener_index l))]
      \/ availableWorkers st'
         = js_array_set VUndefined (availableWorkers st) (listener_index l) (VNum 0)).
Proof.
  destruct l as [i c|i c]; unfold run_listener, sign_reply, verify_reply, read_reply,
    bind, get, region; simpl.
  - destruct (at_index (repliesSharedBuffers st) (VNum (Z.of_nat i))) as [[replyBuffer|]|];
      try (split; [done|by left]). simpl.
    destruct (mjoin (repliesSizesArray st !! i)) as [sizes|]; [|split; [done|by left]].
    simpl. unfold modify. simpl.
    assert (forall (m : M unit) (s : State), same_pool s (snd (m s)) ->
              workers (snd (m s)) = workers s
              /\ availableWorkers (snd (m s)) = availableWorkers s) as Hsame
      by (intros m s [? ?]; done).
    destruct (response <? 0)%Z.
    + destruct (Hsame _ _ (call_same_pool c (Some (error_of_reply
                  (readBuffer replyBuffer sizes (reply_fields response)))) VUndefined
                  (set_availableWorkers (availableWorkers st ++ [VNum (Z.of_nat i)]) st)))
        as [Hw Hq].
      split; [done|]. right. left. split; [by exists c|done].
    + destruct (element (readBuffer replyBuffer sizes (reply_fields response)) 0) as
        [| | | | |b|]; try (split; [done|right; left; split; [by exists c|done]]).
      destruct (Hsame _ _ (call_same_pool c None (VStr (toString_utf8 b))
                  (set_availableWorkers (availableWorkers st ++ [VNum (Z.of_nat i)]) st)))
        as [Hw Hq].
      split; [done|]. right. left. split; [by exists c|done].
  - destruct (at_index (repliesSharedBuffers st) (VNum (Z.of_nat i))) as [[replyBuffer|]|];
      try (split; [done|by left]). simpl.
    destruct (mjoin (repliesSizesArray st !! i)) as [sizes|]; [|split; [done|by left]].
    simpl. unfold modify. simpl.
    assert (forall (m : M unit) (s : State), same_pool s (snd (m s)) ->
              workers (snd (m s)) = workers s
              /\ availableWorkers (snd (m s)) = availableWorkers s) as Hsame
      by (intros m s [? ?]; done).
    destruct (response <? 0)%Z.
    + destruct (Hsame _ _ (call_same_pool c (Some (error_of_reply
                  (readBuffer replyBuffer sizes (reply_fields response)))) VUndefined
                  (set_availableWorkers
                     (js_array_set VUndefined (availableWorkers st) i (VNum 0)) st)))
        as [Hw Hq].
      split; [done|]. by right; right.
    + destruct (element (readBuffer replyBuffer sizes (reply_fields response)) 0) as
        [| | | | |b|]; try (split; [done|by right; right]).
      destruct (Hsame _ _ (call_same_pool c None
                  (VBool (String.eqb (toString_utf8 b) "true"))
                  (set_availableWorkers
                     (js_array_set VUndefined (availableWorkers st) i (VNum 0)) st)))
        as [Hw Hq].
      split; [done|]. by right; right.
Qed.

(** A listener of worker [i] run while slot [i] is idle and its index is
    not in the queue. *)
Lemma run_listener_invariant (l : listener) (response : Z) (st : State) :
  pool_invariant st ->
  in_flight st (listener_index l) = 0 -> listener_index l ∉ queued st ->
  pool_invariant (snd (run_listener l response st)).
Proof.
  intros [H1 H2 H3 H4] Hidle Hnotin.
  destruct (run_listener_pool l response st) as [Hw [Hq|[[_ Hq]|Hq]]].
  - by apply (same_pool_invariant st).
  - assert (queued (snd (run_listener l response st))
            = queued st ++ (if decide (listener_index l = 0) then []
                            else [listener_index l])) as Hqueued.
    { rewrite <- queued_push. unfold queued. by rewrite Hq. }
    split.
    + intros j. unfold in_flight. rewrite Hw. apply H1.
    + rewrite Hqueued. apply NoDup_app. split; [done|]. split.
      * intros j Hj Hj'. destruct (decide (listener_index l = 0)); [by inversion Hj'|].
        apply list_elem_of_singleton in Hj'. by subst j.
      * destruct (decide (listener_index l = 0)); [constructor|apply NoDup_singleton].
    + intros j Hj. rewrite Hqueued in Hj. unfold in_flight. rewrite Hw.
      apply elem_of_app in Hj as [Hj|Hj]; [by apply H3|].
      destruct (decide (listener_index l = 0)); [by inversion Hj|].
      apply list_elem_of_singleton in Hj. by subst j.
    + intros j wj l'. rewrite Hw. apply H4.
  - pose proof (queued_overwrite (availableWorkers st) (listener_index l)) as Hsub.
    rewrite <- Hq in Hsub. fold (queued (snd (run_listener l response st))) in Hsub.
    fold (queued st) in Hsub.
    split.
    + intros j. unfold in_flight. rewrite Hw. apply H1.
    + by eapply sublist_NoDup.
    + intros j Hj. unfold in_flight. rewrite Hw. apply H3. by eapply elem_of_sublist.
    + intros j wj l'. rewrite Hw. apply H4.
Qed.

Lemma deliver_invariant (i : nat) (st : State) :
  pool_invariant st -> pool_invariant (deliver i st).
Proof.
  intros Hinv. unfold deliver.
  destruct (workers st !! i) as [w|] eqn:Hw; [|done].
  destruct (outbox w) as [|response rest] eqn:Hout; [done|].
  set (w' := {| listeners := listeners w; inbox := inbox w; outbox := rest |}).
  set (st1 := set_workers (<[i:=w']> (workers st)) st).
  destruct Hinv as [H1 H2 H3 H4].
  assert (inbox w = 0 /\ rest = []) as [Hinbox ->].
  { pose proof (H1 i) as Hi. unfold in_flight in Hi. rewrite Hw, Hout in Hi. simpl in Hi.
    split; [lia|]. destruct rest; [done|simpl in Hi; lia]. }
  assert (forall j, in_flight st1 j = if decide (j = i) then 0 else in_flight st j) as Hflight.
  { intros j. rewrite (in_flight_insert st st1 i j w w' Hw eq_refl).
    destruct (decide (j = i)); [|done]. simpl. lia. }
  assert (i ∉ queued st) as Hnotin.
  { intros Hin. apply H3 in Hin. unfold in_flight in Hin. rewrite Hw, Hout in Hin.
    simpl in Hin. lia. }
  assert (pool_invariant st1) as Hinv1.
  { split.
    - intros j. rewrite Hflight. destruct (decide (j = i)); [lia|apply H1].
    - done.
    - intros j Hj. rewrite Hflight. destruct (decide (j = i)); [done|by apply H3].
    - intros j wj l Hj Hl.
      destruct (listeners_insert st st1 i j w w' wj Hw eq_refl Hj) as [[-> ->]|[Hne Hj']].
      + by apply (H4 i w l).
      + by apply (H4 j wj l). }
  destruct (listeners w) as [|l ls] eqn:Hls; [done|].
  destruct (H4 i w l Hw) as [Hone Hindex]; [rewrite Hls; by left|].
  rewrite Hls in Hone. injection Hone as ->. simpl.
  apply toplevel_invariant, run_listener_invariant; [done| |].
  - rewrite Hindex, Hflight. by destruct (decide (i = i)).
  - by rewrite Hindex.
Qed.

Lemma worker_runs_invariant (i : nat) (st : State) :
  pool_invariant st -> pool_invariant (worker_runs i st).
Proof.
  intros Hinv. unfold worker_runs.
  destruct (workers st !! i) as [w|] eqn:Hw; [|done].
  destruct (mjoin (requestsSharedBuffers st !! i)) as [requestBuffer|]; [|done].
  destruct (mjoin (requestsSizesArray st !! i)) as [requestSizes|]; [|done].
  destruct (mjoin (repliesSharedBuffers st !! i)) as [replyBuffer|]; [|done].
  destruct (mjoin (repliesSizesArray st !! i)) as [replySizes|]; [|done].
  destruct (inbox w) as [|n] eqn:Hinbox; [done|].
  destruct (handleWorker_message requestBuffer requestSizes replyBuffer replySizes)
    as [[replyBuffer' replySizes'] status].
  set (w' := {| listeners := listeners w; inbox := n;
                outbox := outbox w ++ option_list status |}).
  set (st' := set_workers _ _).
  assert (workers st' = <[i:=w']> (workers st)) as Hws by done.
  destruct Hinv as [H1 H2 H3 H4].
  assert (forall j, in_flight st' j <= in_flight st j) as Hflight.
  { intros j. rewrite (in_flight_insert st st' i j w w' Hw Hws).
    destruct (decide (j = i)) as [->|]; [|done].
    unfold in_flight. rewrite Hw, Hinbox. simpl. rewrite length_app.
    destruct status; simpl; lia. }
  split.
  - intros j. specialize (Hflight j). specialize (H1 j). lia.
  - done.
  - intros j Hj. specialize (Hflight j). specialize (H3 j Hj). lia.
  - intros j wj l Hj Hl.
    destruct (listeners_insert st st' i j w w' wj Hw Hws Hj) as [[-> ->]|[Hne Hj']].
    + by apply (H4 i w l).
    + by apply (H4 j wj l).
Qed.

Lemma start_worker_fresh (size : nat) (indices : list nat) :
  forall st,
    workers (foldl (start_worker size) st indices)
    = workers st
        ++ replicate (length indices) {| listeners := []; inbox := 0; outbox := [] |}.
Proof.
  induction indices as [|i indices IH]; intros st; simpl; [by rewrite app_nil_r|].
  rewrite IH. simpl. by rewrite <- app_assoc.
Qed.

Lemma idle_pool_invariant (st st' : State) :
  pool_invariant st ->
  availableWorkers st' = availableWorkers st ->
  (forall i w, workers st' !! i = Some w ->
               w = {| listeners := []; inbox := 0; outbox := [] |}) ->
  pool_invariant st'.
Proof.
  intros [H1 H2 H3 H4] Hq Hfresh.
  assert (forall j, in_flight st' j = 0) as Hidle.
  { intros j. unfold in_flight. destruct (workers st' !! j) as [w|] eqn:Hw; [|done].
    by rewrite (Hfresh j w Hw). }
  split.
  - intros j. rewrite Hidle. lia.
  - unfold queued. by rewrite Hq.
  - intros j _. apply Hidle.
  - intros j w l Hw Hl. rewrite (Hfresh j w Hw) in Hl. by inversion Hl.
Qed.

Lemma startWorkers_invariant (size : nat) (st : State) :
  pool_invariant st -> pool_invariant (snd (startWorkers size st)).
Proof.
  intros Hinv. unfold startWorkers.
  destruct (length (workers st) =? 0) eqn:Hnone; [|done]. simpl.
  apply Nat.eqb_eq, nil_length_inv in Hnone.
  apply (idle_pool_invariant st); [done|apply start_worker_queue|].
  intros i w. rewrite start_worker_fresh, Hnone. simpl.
  intros Hw. apply lookup_replicate in Hw. by destruct Hw.
Qed.

Lemma stopWorkers_invariant (callback : option nat) (st : State) :
  pool_invariant st -> pool_invariant (snd (stopWorkers callback st)).
Proof.
  intros Hinv. unfold stopWorkers.
  destruct (length (workers st) =? 0); [done|].
  destruct (emit_terminate_fields (seq 0 (length (workers st))) st) as (_ & Hq & _ & _).
  apply (idle_pool_invariant st); [done| |].
  - by destruct callback.
  - intros i w. by destruct callback.
Qed.

Lemma step_invariant (l : label) (st : State) :
  pool_invariant st -> pool_invariant (step l st).
Proof.
  intros Hinv. destruct l as [size|callback|a s h p c|a s i g c|n|i|i]; simpl.
  - by apply toplevel_invariant, startWorkers_invariant.
  - by apply toplevel_invariant, stopWorkers_invariant.
  - by apply toplevel_invariant, acquire_invariant.
  - by apply toplevel_invariant, acquire_invariant.
  - destruct (pending st !! n) as [t|]; [|done].
    assert (pool_invariant (set_pending (delete n (pending st)) st)) as Hinv'
      by (by apply (same_pool_invariant st)).
    apply toplevel_invariant. destruct t as [delay k attempts|c]; simpl.
    + by apply acquire_invariant.
    + by eapply same_pool_invariant; [apply call_same_pool|].
  - by apply worker_runs_invariant.
  - by apply deliver_invariant.
Qed.

Lemma queued_initial (a n : nat) :
  omap handed_out ((fun i => VNum (Z.of_nat i)) <$> seq a n)
  = filter (fun i => i <> 0) (seq a n).
Proof.
  revert a. induction n as [|n IH]; intros a; [done|]. simpl. rewrite IH.
  unfold handed_out at 1. simpl. rewrite filter_cons.
  destruct (decide (a <> 0)) as [Hne|Heq].
  - destruct (Z.eqb_spec (Z.of_nat a) 0) as [?|_]; [lia|]. simpl.
    destruct (Z.leb_spec 0 (Z.of_nat a)) as [_|?]; [|lia]. by rewrite Nat2Z.id.
  - destruct (Z.eqb_spec (Z.of_nat a) 0) as [_|?]; [done|lia].
Qed.

Lemma initial_invariant : pool_invariant initial.
Proof.
  split.
  - intros i. unfold in_flight. simpl. lia.
  - unfold queued. simpl. rewrite queued_initial. apply NoDup_filter, NoDup_seq.
  - intros i _. unfold in_flight. by simpl.
  - intros i w l Hw. by simpl in Hw.
Qed.

Lemma reachable_invariant (st : State) : reachable st -> pool_invariant st.
Proof.
  intros [ls ->]. induction ls as [|l ls IH] using rev_ind.
  - apply initial_invariant.
  - unfold run. rewrite foldl_app. simpl. by apply step_invariant.
Qed.

Lemma same_shared_refl (st : State) : same_shared st st.
Proof. by repeat split. Qed.

Lemma same_shared_trans (st1 st2 st3 : State) :
  same_shared st1 st2 -> same_shared st2 st3 -> same_shared st1 st3.
Proof. intros (?&?&?&?) (?&?&?&?). repeat split; congruence. Qed.

Lemma same_shared_regions (st st' : State) (i : nat) :
  same_shared st st' ->
  request_region st' i = request_region st i /\ reply_region st' i = reply_region st i.
Proof. intros (H1&H2&H3&H4). unfold request_region, reply_region. by rewrite H1, H2, H3, H4. Qed.

Lemma same_shared_emit_all (events : list event) (st : State) :
  same_shared st (emit_all events st).
Proof.
  unfold emit_all. revert st. induction events as [|e events IH]; intros st; simpl.
  - apply same_shared_refl.
  - eapply same_shared_trans; [|apply IH]. by repeat split.
Qed.

Lemma call_same_shared (callback : nat) (err : option js_error) (v : value) (st : State) :
  same_shared st (snd (call callback err v st)).
Proof.
  unfold call, bind, modify, throw, ret. simpl.
  by destruct (callback_throws callback err v).
Qed.

Lemma toplevel_same_shared (m : M unit) (st0 st : State) :
  same_shared st0 (snd (m st)) -> same_shared st0 (toplevel m st).
Proof.
  unfold toplevel. destruct (m st) as [[[]|e] st']; simpl; [done|].
  intros H. eapply same_shared_trans; [exact H|by repeat split].
Qed.

Lemma resume_falsy_same_shared (k : continuation) (worker : value) (st : State) :
  truthy worker = false -> same_shared st (snd (resume k worker st)).
Proof.
  intros Hfalsy. destruct (resume_without_worker k worker st Hfalsy) as (r & -> & _).
  apply same_shared_emit_all.
Qed.

(** Handing a request to a worker writes the request region of the index
    it is handed, and no other region. *)
Lemma offload_shared (v : value) (elements : list value) (l : nat -> listener)
    (st : State) (i : nat) :
  let st' := snd (offload v elements l st) in
  reply_region st' i = reply_region st i
  /\ (request_region st' i <> request_region st i -> index_of v = Some i).
Proof.
  unfold offload, bind, get, region. simpl.
  destruct (at_index (requestsSharedBuffers st) v) as [[requestBuffer|]|]; try done. simpl.
  destruct (at_index (repliesSharedBuffers st) v) as [[replyBuffer|]|]; try done. simpl.
  destruct (index_of v) as [i0|] eqn:Hindex; [|done].
  assert (forall (buffer : list byte) (sizes : option sizes_array) (st2 : State),
            same_shared (set_request i0 buffer sizes st) st2 ->
            reply_region st2 i = reply_region st i
            /\ (request_region st2 i <> request_region st i -> Some i0 = Some i)) as Hwritten.
  { intros buffer sizes st2 Hsame.
    destruct (same_shared_regions _ _ i Hsame) as [-> ->]. split; [done|].
    intros Hdiff. destruct (decide (i0 = i)) as [->|Hne]; [done|].
    exfalso. apply Hdiff. unfold request_region. simpl.
    rewrite list_lookup_insert_ne by done.
    destruct sizes; [by rewrite list_lookup_insert_ne|done]. }
  unfold write_request, bind, get. simpl.
  destruct (mjoin (requestsSizesArray st !! i0)) as [sizes|].
  - destruct (writeBuffer requestBuffer sizes elements) as [buffer sizes'].
    unfold modify, listen_and_notify, bind, get. simpl.
    destruct (workers st !! i0) as [w|]; simpl; apply (Hwritten buffer (Some sizes'));
      by repeat split.
  - simpl. eapply (Hwritten _ None). by repeat split.
Qed.

Lemma resume_shared (k : continuation) (worker : value) (st : State) (i : nat) :
  let st' := snd (resume k worker st) in
  reply_region st' i = reply_region st i
  /\ (request_region st' i <> request_region st i -> handed_out worker = Some i).
Proof.
  destruct (truthy worker) eqn:Htruthy.
  - unfold handed_out. rewrite Htruthy.
    destruct k as [algorithm secret header payload c|algorithm secret input signature c];
      unfold resume, sign_with, verify_with; rewrite Htruthy; simpl.
    + unfold bind, modify. simpl.
      apply (offload_shared worker _ _ (emit (ConsoleLog worker) st) i).
    + apply offload_shared.
  - destruct (same_shared_regions _ _ i (resume_falsy_same_shared k worker st Htruthy))
      as [Hrequest Hreply].
    by split.
Qed.

Lemma acquire_shared (k : continuation) (attempts : Z) (st : State) (i : nat) :
  pool_invariant st ->
  let st' := snd (acquire k attempts st) in
  reply_region st' i = reply_region st i
  /\ (request_region st' i <> request_region st i -> in_flight st i = 0).
Proof.
  intros Hinv. unfold acquire. rewrite getAvailableWorker_cases.
  destruct (length (workers st) =? 0).
  - destruct (same_shared_regions _ _ i (resume_falsy_same_shared k VNull st eq_refl))
      as [Hrequest Hreply].
    by split.
  - simpl.
    destruct (negb (truthy (default VUndefined (head (availableWorkers st))))
              && (0 <? attempts)%Z); [by split|].
    destruct (resume_shared k (default VUndefined (head (availableWorkers st)))
                (set_availableWorkers (tail (availableWorkers st)) st) i) as [Hreply Hrequest].
    split; [done|]. intros Hdiff.
    by destruct (shift_handed_out st i Hinv (Hrequest Hdiff)).
Qed.

Lemma run_listener_same_shared (l : listener) (response : Z) (st : State) :
  same_shared st (snd (run_listener l response st)).
Proof.
  destruct l as [i c|i c]; unfold run_listener, sign_reply, verify_reply, read_reply,
    bind, get, region; simpl;
    (destruct (at_index (repliesSharedBuffers st) (VNum (Z.of_nat i))) as [[replyBuffer|]|];
       try apply same_shared_refl); simpl;
    (destruct (mjoin (repliesSizesArray st !! i)) as [sizes|]; [|apply same_shared_refl]);
    simpl; unfold modify; simpl;
    (destruct (response <? 0)%Z;
       [eapply same_shared_trans; [|apply call_same_shared]; by repeat split|]);
    (destruct (element (readBuffer replyBuffer sizes (reply_fields response)) 0);
       try (by repeat split));
    (eapply same_shared_trans; [|apply call_same_shared]; by repeat split).
Qed.

Lemma deliver_same_shared (i : nat) (st : State) : same_shared st (deliver i st).
Proof.
  unfold deliver. destruct (workers st !! i) as [w|]; [|apply same_shared_refl].
  destruct (outbox w) as [|response rest]; [apply same_shared_refl|].
  set (st1 := set_workers _ st).
  assert (same_shared st st1) as Hsame by (by repeat split).
  revert Hsame. generalize st1. clear st1.
  induction (listeners w) as [|l ls IH]; intros st1 Hsame; simpl; [done|].
  apply IH. apply toplevel_same_shared.
  eapply same_shared_trans; [exact Hsame|apply run_listener_same_shared].
Qed.

Lemma stopWorkers_same_shared (callback : option nat) (st : State) :
  same_shared st (snd (stopWorkers callback st)).
Proof.
  unfold stopWorkers. destruct (length (workers st) =? 0); [apply same_shared_refl|].
  assert (forall indices s, same_shared s (foldl (fun s i => emit (Terminate i) s) s indices))
    as Hemit.
  { induction indices as [|j indices IH]; intros s; simpl; [apply same_shared_refl|].
    eapply same_shared_trans; [|apply IH]. by repeat split. }
  destruct (Hemit (seq 0 (length (workers st))) st) as (?&?&?&?).
  by destruct callback.
Qed.

(** A worker that handles a request writes its own reply region, and
    nothing else. *)
Lemma worker_runs_shared (j : nat) (st : State) (i : nat) :
  let st' := worker_runs j st in
  request_region st' i = request_region st i
  /\ (reply_region st' i <> reply_region st i -> j = i /\ 1 <= in_flight st i).
Proof.
  unfold worker_runs.
  destruct (workers st !! j) as [w|] eqn:Hw; [|done].
  destruct (mjoin (requestsSharedBuffers st !! j)) as [requestBuffer|]; [|done].
  destruct (mjoin (requestsSizesArray st !! j)) as [requestSizes|]; [|done].
  destruct (mjoin (repliesSharedBuffers st !! j)) as [replyBuffer|]; [|done].
  destruct (mjoin (repliesSizesArray st !! j)) as [replySizes|]; [|done].
  destruct (inbox w) as [|n] eqn:Hinbox; [done|].
  destruct (handleWorker_message requestBuffer requestSizes replyBuffer replySizes)
    as [[replyBuffer' replySizes'] status].
  split; [done|]. intros Hdiff.
  destruct (decide (j = i)) as [->|Hne].
  - split; [done|]. unfold in_flight. rewrite Hw, Hinbox. lia.
  - exfalso. apply Hdiff. unfold reply_region. simpl.
    by rewrite !list_lookup_insert_ne.
Qed.

(** What a step of the event loop writes in the shared memory of slot
    [i]: its request region only when no request is in flight on the
    slot; its reply region only when the pool is started, or by worker [i]
    handling the request in flight. *)
Lemma step_shared (l : label) (st : State) (i : nat) :
  pool_invariant st ->
  (request_region (step l st) i <> request_region st i -> in_flight st i = 0)
  /\ (reply_region (step l st) i <> reply_region st i ->
      in_flight st i = 0 \/ (l = WorkerRuns i /\ in_flight st i = 1)).
Proof.
  intros Hinv.
  assert (forall st', same_shared st st' ->
            (request_region st' i <> request_region st i -> in_flight st i = 0)
            /\ (reply_region st' i <> reply_region st i ->
                in_flight st i = 0 \/ (l = WorkerRuns i /\ in_flight st i = 1))) as Hsame.
  { intros st' H. destruct (same_shared_regions _ _ i H) as [-> ->]. by split. }
  assert (forall (m : M unit) (s : State),
            same_shared st s ->
            (reply_region (snd (m s)) i = reply_region s i
             /\ (request_region (snd (m s)) i <> request_region s i -> in_flight st i = 0)) ->
            (request_region (toplevel m s) i <> request_region st i -> in_flight st i = 0)
            /\ (reply_region (toplevel m s) i <> reply_region st i ->
                in_flight st i = 0 \/ (l = WorkerRuns i /\ in_flight st i = 1))) as Htop.
  { intros m s Hs [Hreply Hrequest].
    destruct (same_shared_regions _ _ i Hs) as [Hrq Hrp].
    assert (request_region (toplevel m s) i = request_region (snd (m s)) i
            /\ reply_region (toplevel m s) i = reply_region (snd (m s)) i) as [-> ->].
    { unfold toplevel. by destruct (m s) as [[[]|e] s']. }
    rewrite Hreply, Hrp. rewrite <- Hrq. by split. }
  destruct l as [size|callback|a s h p c|a s n g c|n|j|j]; simpl.
  - unfold toplevel, startWorkers.
    destruct (length (workers st) =? 0) eqn:Hnone; simpl; [|by split].
    apply Nat.eqb_eq, nil_length_inv in Hnone.
    assert (in_flight st i = 0) as Hidle by (unfold in_flight; by rewrite Hnone).
    split; intros _; [done|by left].
  - apply Hsame, toplevel_same_shared, stopWorkers_same_shared.
  - apply Htop; [apply same_shared_refl|by apply acquire_shared].
  - apply Htop; [apply same_shared_refl|by apply acquire_shared].
  - destruct (pending st !! n) as [t|]; [|by split].
    set (st1 := set_pending _ st).
    assert (same_shared st st1) as Hst1 by (by repeat split).
    destruct t as [delay k attempts|c]; simpl.
    + apply Htop; [done|].
      assert (pool_invariant st1) as Hinv1 by (by apply (same_pool_invariant st)).
      destruct (acquire_shared k attempts st1 i Hinv1) as [Hreply Hrequest].
      split; [done|]. intros Hdiff. by apply Hrequest in Hdiff.
    + apply Hsame, toplevel_same_shared.
      eapply same_shared_trans; [exact Hst1|apply call_same_shared].
  - destruct (worker_runs_shared j st i) as [Hrequest Hreply].
    split; [by rewrite Hrequest|].
    intros Hdiff. destruct (Hreply Hdiff) as [-> Hflight]. right. split; [done|].
    pose proof (inv_in_flight st Hinv i). lia.
  - apply Hsame, deliver_same_shared.
Qed.

(** C9 (one request at a time on each slot).  In every state the module
    can reach from its load, whatever the application calls and in
    whatever order the tasks, the workers and the replies run, each slot
    has at most one request in flight, and still so after one more step.
    A step writes the request region of a slot (or its array of lengths)
    only when no request is in flight on that slot: a request is never
    written over one that still awaits its reply handler.  A step writes
    the reply region of a slot only when the regions are allocated, no
    request being in flight, or when the worker of that slot handles the
    one request in flight. *)
Theorem one_request_in_flight_per_slot (st : State) (l : label) (i : nat) :
  reachable st ->
  in_flight st i <= 1
  /\ in_flight (step l st) i <= 1
  /\ (request_region (step l st) i <> request_region st i -> in_flight st i = 0)
  /\ (reply_region (step l st) i <> reply_region st i ->
      in_flight st i = 0 \/ (l = WorkerRuns i /\ in_flight st i = 1)).
Proof.
  intros Hreachable. apply reachable_invariant in Hreachable as Hinv.
  split; [apply Hinv|]. split; [by apply step_invariant|]. by apply step_shared.
Qed.

End OneRequestPerSlot.

Lemma one_request_in_flight_per_slot_witness :
  let sign := CallSign (VStr "HS512") (VStr "secret") (VStr "e30") (VStr "e30") 7 in
  let waiting := run (runtime := machine 2) [CallStart 4096; sign]
                   (initial (runtime := machine 2)) in
  let busy := run (runtime := machine 2) [CallStart 4096; sign; RunTask 0]
                (initial (runtime := machine 2)) in
  reachable (runtime := machine 2) waiting
  /\ reachable (runtime := machine 2) busy
  /\ request_region (step (runtime := machine 2) (RunTask 0) waiting) 1
     <> request_region waiting 1
  /\ in_flight waiting 1 = 0
  /\ in_flight busy 1 <= 1
  /\ in_flight (step (runtime := machine 2) sign busy) 1 <= 1
  /\ reply_region (step (runtime := machine 2) (WorkerRuns 1) busy) 1 <> reply_region busy 1
  /\ (in_flight busy 1 = 0 \/ (WorkerRuns 1 = WorkerRuns 1 /\ in_flight busy 1 = 1)).
Proof.
  intros sign waiting busy.
  assert (reachable (runtime := machine 2) waiting) as Hwaiting
    by (exists [CallStart 4096; sign]; reflexivity).
  assert (reachable (runtime := machine 2) busy) as Hbusy
    by (exists [CallStart 4096; sign; RunTask 0]; reflexivity).
  assert (request_region (step (runtime := machine 2) (RunTask 0) waiting) 1
          <> request_region waiting 1) as Hrequest
    by (intros H; vm_compute in H; discriminate).
  assert (reply_region (step (runtime := machine 2) (WorkerRuns 1) busy) 1
          <> reply_region busy 1) as Hreply
    by (intros H; vm_compute in H; discriminate).
  split; [exact Hwaiting|]. split; [exact Hbusy|]. split; [exact Hrequest|].
  split.
  { exact (proj1 (proj2 (proj2 (one_request_in_flight_per_slot (runtime := machine 2)
                                   waiting (RunTask 0) 1 Hwaiting))) Hrequest). }
  split.
  { exact (proj1 (one_request_in_flight_per_slot (runtime := machine 2)
                    busy sign 1 Hbusy)). }
  split.
  { exact (proj1 (proj2 (one_request_in_flight_per_slot (runtime := machine 2)
                           busy sign 1 Hbusy))). }
  split; [exact Hreply|].
  exact (proj2 (proj2 (proj2 (one_request_in_flight_per_slot (runtime := machine 2)
                                busy (WorkerRuns 1) 1 Hbusy))) Hreply).
Defined.

(** * Further properties of the framing *)

Lemma copy_within (source target : list byte) (offset : nat) :
  offset <= length target ->
  let nb := length source `min` (length target - offset) in
  copy source target offset
  = (take offset target ++ take nb source ++ drop (offset + nb) target, nb).
Proof.
  intros Hoffset nb. unfold copy.
  destruct (Nat.leb_spec (length target) offset) as [Hle|Hlt]; [|done].
  assert (nb = 0) as -> by lia. simpl.
  by rewrite Nat.add_0_r, take_drop.
Qed.

Lemma truncated_fields_concat (fields : list (list byte)) :
  forall room, concat (truncated_fields room fields) = take room (concat fields).
Proof.
  induction fields as [|field fields IH]; intros room; simpl; [by rewrite take_nil|].
  by rewrite IH, take_app.
Qed.

Lemma truncated_fields_length (fields : list (list byte)) :
  forall room, length (truncated_fields room fields) = length fields.
Proof. induction fields as [|field fields IH]; intros room; simpl; [done|]. by rewrite IH. Qed.

Lemma truncated_fields_fit (fields : list (list byte)) :
  forall room, length (concat fields) <= room -> truncated_fields room fields = fields.
Proof.
  induction fields as [|field fields IH]; intros room Hfit; simpl in *; [done|].
  rewrite length_app in Hfit. rewrite take_ge by lia. rewrite IH by lia. done.
Qed.

Lemma copy_truncated (source target : list byte) (offset : nat) :
  offset <= length target ->
  copy (take (length target - offset) source) target offset = copy source target offset.
Proof.
  intros Hoffset.
  destruct (Nat.le_gt_cases (length source) (length target - offset)) as [Hfit|Hlong].
  - by rewrite take_ge.
  - rewrite !copy_within by done. rewrite length_take.
    rewrite (Nat.min_r (length source)) by lia.
    rewrite (Nat.min_l (length target - offset) (length source)) by lia.
    by rewrite Nat.min_id, take_take, Nat.min_id.
Qed.

(** [writeBuffer_loop] writes the fields as cut to the room left in the
    buffer, and goes through the array of lengths as if they were the
    fields. *)
Lemma writeBuffer_loop_truncates (elements : list value) :
  forall (buffer : list byte) (sizes : sizes_array) (i offset : nat),
    offset <= length buffer ->
    writeBuffer_loop buffer sizes i offset elements
    = writeBuffer_loop buffer sizes i offset
        (VBuf <$> truncated_fields (length buffer - offset) (field_bytes <$> elements))
    /\ length (fst (writeBuffer_loop buffer sizes i offset elements)) = length buffer.
Proof.
  induction elements as [|element elements IH]; intros buffer sizes i offset Hoffset;
    [done|].
  rewrite fmap_cons. cbn [truncated_fields]. rewrite fmap_cons.
  cbn [writeBuffer_loop framed_bytes].
  destruct (framed_bytes element) as [source|] eqn:Hframed.
  - rewrite (field_bytes_framed _ _ Hframed), copy_truncated by done.
    rewrite copy_within by done.
    set (nb := length source `min` (length buffer - offset)).
    set (buffer' := take offset buffer ++ take nb source ++ drop (offset + nb) buffer).
    assert (length buffer' = length buffer) as Hlen.
    { unfold buffer'. rewrite !length_app, !length_take, length_drop. lia. }
    destruct (IH buffer' (sz_set sizes i (Z.of_nat nb)) (S i) (offset + nb) ltac:(lia))
      as [Hloop Hlength].
    rewrite Hlen in Hloop, Hlength.
    replace (length buffer - (offset + nb)) with (length buffer - offset - length source)
      in Hloop by lia.
    by rewrite <- Hloop.
  - rewrite (field_bytes_unframed _ Hframed), take_nil, copy_nothing.
    cbn [length]. rewrite Nat.add_0_r, Nat.sub_0_r. by apply IH.
Qed.

Lemma field_bytes_buffers (chunks : list (list byte)) :
  field_bytes <$> (VBuf <$> chunks) = chunks.
Proof. rewrite <- list_fmap_compose. by rewrite <- (list_fmap_id chunks) at 2. Qed.

Lemma total_bytes_buffers (chunks : list (list byte)) :
  total_bytes (VBuf <$> chunks) = length (concat chunks).
Proof.
  unfold total_bytes. rewrite field_bytes_buffers.
  induction chunks as [|c chunks IH]; simpl; [done|]. rewrite length_app. f_equal. exact IH.
Qed.

Lemma sz_room_mono (a : sizes_array) (count bound bound' : nat) :
  bound' <= bound -> sz_room a count bound -> sz_room a count bound'.
Proof. intros Hle. destruct a as [l|l]; simpl; [done|]. intros [? ?]. split; [done|lia]. Qed.

(** X1 ([writeBuffer] cuts what does not fit).  For every buffer, array
    of lengths and list of elements, [writeBuffer] keeps the length of the
    buffer and raises nothing: the buffer then starts with the bytes of the
    fields, in order, as far as they fit (the first bytes of their
    concatenation, each field being cut to the room the fields before it
    leave), and is unchanged after them. *)
Theorem writeBuffer_truncates (buffer : list byte) (sizes : sizes_array)
    (elements : list value) :
  let written := writeBuffer buffer sizes elements in
  let chunks := truncated_fields (length buffer) (field_bytes <$> elements) in
  length (fst written) = length buffer
  /\ concat chunks = take (length buffer) (concat (field_bytes <$> elements))
  /\ fst written = concat chunks ++ drop (length (concat chunks)) buffer.
Proof.
  intros written chunks.
  destruct (writeBuffer_loop_truncates elements buffer sizes 0 0 ltac:(lia)) as [Hcut Hlen].
  rewrite Nat.sub_0_r in Hcut. fold chunks in Hcut.
  assert (concat chunks = take (length buffer) (concat (field_bytes <$> elements))) as Hconcat
    by apply truncated_fields_concat.
  split; [done|]. split; [done|].
  unfold written, writeBuffer. rewrite Hcut, writeBuffer_loop_buffer.
  - by rewrite field_bytes_buffers, total_bytes_buffers.
  - rewrite total_bytes_buffers, Hconcat, length_take. lia.
Qed.

(** X2 (reading back a frame that was cut).  When the array of lengths
    can record one length per element, the length [writeBuffer] records
    for an element is the number of its bytes that were written, and
    [readBuffer] returns, position by position, the bytes written for it:
    the field up to the end of the buffer, and [undefined] for every field
    after the buffer is full. *)
Theorem readBuffer_truncated (buffer : list byte) (sizes : sizes_array)
    (elements : list value) :
  sz_room sizes (length elements) (length buffer) ->
  let written := writeBuffer buffer sizes elements in
  let chunks := truncated_fields (length buffer) (field_bytes <$> elements) in
  (forall k chunk, chunks !! k = Some chunk ->
     sz_get (snd written) k = Some (Z.of_nat (length chunk)))
  /\ readBuffer (fst written) (snd written) (length elements) = read_back <$> chunks
  /\ (forall k element, elements !! k = Some element ->
        length buffer <= total_bytes (take k elements) ->
        readBuffer (fst written) (snd written) (length elements) !! k = Some VUndefined).
Proof.
  intros Hroom written chunks.
  destruct (writeBuffer_loop_truncates elements buffer sizes 0 0 ltac:(lia)) as [Hcut _].
  rewrite Nat.sub_0_r in Hcut. fold chunks in Hcut.
  assert (length chunks = length elements) as Hchunks
    by (unfold chunks; by rewrite truncated_fields_length, length_fmap).
  assert (total_bytes (VBuf <$> chunks) <= length buffer) as Hfit.
  { rewrite total_bytes_buffers. unfold chunks.
    rewrite truncated_fields_concat, length_take. lia. }
  assert (sz_room sizes (length (VBuf <$> chunks)) (total_bytes (VBuf <$> chunks))) as Hroom'.
  { rewrite length_fmap, Hchunks. by apply (sz_room_mono _ _ (length buffer)). }
  assert (readBuffer (fst written) (snd written) (length elements) = read_back <$> chunks)
    as Hread.
  { pose proof (readBuffer_writeBuffer buffer sizes (VBuf <$> chunks) Hfit Hroom') as Hread.
    simpl in Hread. rewrite length_fmap, Hchunks in Hread.
    unfold written, writeBuffer. rewrite Hcut.
    unfold writeBuffer in Hread. rewrite Hread. by rewrite <- list_fmap_compose. }
  split; [|split; [done|]].
  - intros k chunk Hk. unfold written, writeBuffer. rewrite Hcut.
    apply (writeBuffer_loop_sizes (VBuf <$> chunks) buffer sizes 0 0
             (total_bytes (VBuf <$> chunks)) k (VBuf chunk)); [done|done|done|].
    by rewrite list_lookup_fmap, Hk.
  - intros k element Hk Hfull. rewrite Hread, list_lookup_fmap.
    assert (forall (fields : list (list byte)) room k field,
              fields !! k = Some field -> room <= length (concat (take k fields)) ->
              truncated_fields room fields !! k = Some []) as Hcutoff.
    { induction fields as [|f fields IH]; intros room j field Hj Hroomj; [done|].
      destruct j as [|j]; simpl in *.
      - assert (room = 0) as -> by lia. by rewrite take_0.
      - rewrite length_app in Hroomj. apply (IH _ _ field); [done|lia]. }
    unfold chunks.
    rewrite (Hcutoff (field_bytes <$> elements) (length buffer) k (field_bytes element)).
    + done.
    + by rewrite list_lookup_fmap, Hk.
    + rewrite <- fmap_take, length_concat. exact Hfull.
Qed.

(** * Further properties of the pool *)

Section Requests.
Context `{crypto : Crypto} `{token_errors : TokenErrors} `{runtime : Runtime}.

Lemma index_of_nat (i : nat) : index_of (VNum (Z.of_nat i)) = Some i.
Proof.
  unfold index_of. destruct (Z.leb_spec 0 (Z.of_nat i)) as [_|?]; [|lia].
  by rewrite Nat2Z.id.
Qed.

Lemma truthy_index (i : nat) : i <> 0 -> truthy (VNum (Z.of_nat i)) = true.
Proof. intros Hi. simpl. by destruct (Z.eqb_spec (Z.of_nat i) 0) as [?|_]; [lia|]. Qed.

(** A request whose attempt finds a usable index at the head of the queue. *)
Lemma acquire_offloads (k : continuation) (attempts : Z) (st : State)
    (i : nat) (q : list value) (w : worker) (rq rp : list byte) (rqs : sizes_array) :
  availableWorkers st = VNum (Z.of_nat i) :: q -> i <> 0 ->
  workers st !! i = Some w ->
  requestsSharedBuffers st !! i = Some (Some rq) ->
  requestsSizesArray st !! i = Some (Some rqs) ->
  repliesSharedBuffers st !! i = Some (Some rp) ->
  acquire k attempts st = (Ok tt, offloaded k i w rq rqs st).
Proof.
  intros Hq Hi Hw Hrq Hrqs Hrp.
  unfold acquire, offloaded. rewrite getAvailableWorker_cases.
  assert ((length (workers st) =? 0) = false) as ->.
  { apply Nat.eqb_neq. apply lookup_lt_Some in Hw. lia. }
  rewrite Hq. simpl default. simpl tail. cbv zeta.
  rewrite (truthy_index i Hi). simpl negb. simpl andb.
  assert (forall (elements : list value) (l : nat -> listener) (events : list event),
            offload (VNum (Z.of_nat i)) elements l
              (emit_all events (set_availableWorkers q st))
            = (Ok tt,
               emit (PostMessage i)
                 (set_workers
                    (<[i:={| listeners := [l i]; inbox := S (inbox w); outbox := outbox w |}]>
                       (workers st))
                    (set_request i (fst (writeBuffer rq rqs elements))
                       (Some (snd (writeBuffer rq rqs elements)))
                       (emit_all events (set_availableWorkers q st)))))) as Hoffload.
  { intros elements l events.
    assert (forall s, requestsSharedBuffers (emit_all events s) = requestsSharedBuffers s
                      /\ requestsSizesArray (emit_all events s) = requestsSizesArray s
                      /\ repliesSharedBuffers (emit_all events s) = repliesSharedBuffers s
                      /\ workers (emit_all events s) = workers s) as Hemit.
    { unfold emit_all. induction events as [|e events IH]; intros s; simpl; [done|].
      by destruct (IH (emit e s)) as (-> & -> & -> & ->). }
    destruct (Hemit (set_availableWorkers q st)) as (H1 & H2 & H3 & H4). simpl in *.
    unfold offload, bind, get, region, at_index. rewrite index_of_nat. simpl.
    rewrite H1, H3, Hrq, Hrp. simpl.
    unfold write_request, bind, get. simpl. rewrite H2, Hrqs. simpl.
    destruct (writeBuffer rq rqs elements) as [buffer sizes'] eqn:Hwritten.
    unfold modify, listen_and_notify, bind, get. simpl. rewrite H4, Hw. done. }
  destruct k as [algorithm secret header payload c|algorithm secret input signature c];
    unfold resume, sign_with, verify_with, request_fields, listener_of, console.
  - rewrite (truthy_index i Hi). simpl negb. cbv iota.
    unfold bind at 1. unfold modify at 1. cbv beta iota.
    apply (Hoffload _ (fun i => SignReply i c) [ConsoleLog (VNum (Z.of_nat i))]).
  - rewrite (truthy_index i Hi). simpl negb. cbv iota.
    apply (Hoffload _ (fun i => VerifyReply i c) []).
Qed.

(** X5 (a usable index is used at once).  When the pool has workers and
    the first cell of the queue is an index other than 0 whose worker and
    regions exist, a sign or verify request, whatever its number of
    attempts, neither retries nor calls the caller's callback: it takes
    the index from the queue, frames the five fields of the request, in
    order, in the request region of that worker, installs its listener as
    the only one and notifies the worker once. *)
Theorem usable_index_is_used_at_once (k : continuation) (attempts : Z) (st : State)
    (i : nat) (q : list value) (w : worker) (rq rp : list byte) (rqs : sizes_array) :
  availableWorkers st = VNum (Z.of_nat i) :: q -> i <> 0 ->
  workers st !! i = Some w ->
  requestsSharedBuffers st !! i = Some (Some rq) ->
  requestsSizesArray st !! i = Some (Some rqs) ->
  repliesSharedBuffers st !! i = Some (Some rp) ->
  acquire k attempts st = (Ok tt, offloaded k i w rq rqs st).
Proof. apply acquire_offloads. Qed.


Lemma offloaded_fields (k : continuation) (i : nat) (w : worker) (rq : list byte)
    (rqs : sizes_array) (st : State) :
  let written := writeBuffer rq rqs (request_fields k) in
  let st' := offloaded k i w rq rqs st in
  workers st'
  = <[i:={| listeners := [listener_of k i]; inbox := S (inbox w); outbox := outbox w |}]>
      (workers st)
  /\ availableWorkers st' = tail (availableWorkers st)
  /\ requestsSharedBuffers st' = <[i:=Some (fst written)]> (requestsSharedBuffers st)
  /\ requestsSizesArray st' = <[i:=Some (snd written)]> (requestsSizesArray st)
  /\ repliesSharedBuffers st' = repliesSharedBuffers st
  /\ repliesSizesArray st' = repliesSizesArray st
  /\ pending st' = pending st
  /\ log st' = log st ++ console k (VNum (Z.of_nat i)) ++ [PostMessage i].
Proof. destruct k; simpl; by rewrite <- ?app_assoc. Qed.

(** The state when worker [i] has handled the request of [k] and posted
    the status [z]. *)
Lemma request_handled (k : continuation) (st : State) (i : nat) (q : list value)
    (w : worker) (rq rp reply : list byte) (rqs rps sizes : sizes_array) (z : Z) :
  availableWorkers st = VNum (Z.of_nat i) :: q -> i <> 0 ->
  slot st i w rq rqs rp rps -> inbox w = 0 -> outbox w = [] ->
  handleWorker_message (fst (writeBuffer rq rqs (request_fields k)))
    (snd (writeBuffer rq rqs (request_fields k))) rp rps = (reply, sizes, Some z) ->
  run [request k; WorkerRuns i; Deliver i] st
  = toplevel (run_listener (listener_of k i) z)
      (set_workers
         (<[i:={| listeners := [listener_of k i]; inbox := 0; outbox := [] |}]> (workers st))
         (set_reply i reply sizes (offloaded k i w rq rqs st))).
Proof.
  intros Hq Hi (Hw & Hrq & Hrqs & Hrp & Hrps) Hinbox Houtbox Hhandled.
  pose proof (lookup_lt_Some _ _ _ Hw) as Hlen.
  assert (step (request k) st = offloaded k i w rq rqs st) as Hcall.
  { destruct k; simpl; unfold toplevel, createSignatureWithWorker, verifySignatureWithWorker.
    - by rewrite (acquire_offloads _ _ _ _ _ _ _ _ _ Hq Hi Hw Hrq Hrqs Hrp).
    - by rewrite (acquire_offloads _ _ _ _ _ _ _ _ _ Hq Hi Hw Hrq Hrqs Hrp). }
  unfold run. cbn [foldl]. rewrite Hcall.
  destruct (offloaded_fields k i w rq rqs st) as (Ew & Eq & Erq & Erqs & Erp & Erps & _ & _).
  assert (length (requestsSharedBuffers st) > i) as Hlen1 by (by apply lookup_lt_Some in Hrq).
  assert (length (requestsSizesArray st) > i) as Hlen2 by (by apply lookup_lt_Some in Hrqs).
  cbn [step]. unfold worker_runs.
  rewrite Ew, Erq, Erqs, Erp, Erps, Hrp, Hrps.
  rewrite !list_lookup_insert_eq by lia. cbn [mjoin option_bind inbox outbox listeners].
  cbv beta iota delta [option_join]. rewrite Hhandled, Hinbox, Houtbox. cbv iota beta zeta. 
  rewrite list_insert_insert_eq. cbn [option_list app].
  unfold deliver. cbn [workers set_workers].
  rewrite list_lookup_insert_eq by lia. cbn [outbox listeners inbox foldl].
  change (option_list (Some z)) with [z]. cbv iota. by rewrite list_insert_insert_eq.
Qed.


Lemma toString_Buffer_from (s : string) : toString_utf8 (Buffer_from s) = s.
Proof. apply string_of_list_byte_of_string. Qed.

Lemma worker_view_string (s : string) :
  s <> ""%string -> worker_view (VStr s) = VBuf (Buffer_from s).
Proof.
  intros Hs. unfold worker_view, field_bytes, read_back. simpl.
  destruct (Buffer_from s) as [|b bytes] eqn:Hbytes; [|done].
  destruct Hs. by rewrite <- (toString_Buffer_from s), Hbytes.
Qed.

(** The worker reads the fields of a request that was framed whole. *)
Lemma worker_reads_request (k : continuation) (rq : list byte) (rqs : sizes_array) :
  total_bytes (request_fields k) <= length rq ->
  sz_room rqs 5 (total_bytes (request_fields k)) ->
  readBuffer (fst (writeBuffer rq rqs (request_fields k)))
    (snd (writeBuffer rq rqs (request_fields k))) 5
  = worker_view <$> request_fields k.
Proof.
  intros Hfit Hroom.
  assert (length (request_fields k) = 5) as Hfive by by destruct k.
  rewrite <- Hfive in Hroom |- *. exact (readBuffer_writeBuffer rq rqs _ Hfit Hroom).
Qed.

Lemma read_reply_at (st : State) (i count : nat) (reply : list byte) (sizes : sizes_array) :
  repliesSharedBuffers st !! i = Some (Some reply) ->
  repliesSizesArray st !! i = Some (Some sizes) ->
  read_reply i count st = (Ok (readBuffer reply sizes count), st).
Proof.
  intros Hreply Hsizes. unfold read_reply, bind, get, region, at_index.
  rewrite index_of_nat, Hreply. simpl. by rewrite Hsizes.
Qed.

Lemma toplevel_call (c : nat) (err : option js_error) (v : value) (st : State) :
  toplevel (call c err v) st
  = emit_all (uncaught (callback_throws c err v)) (emit (Callback c err v) st).
Proof.
  unfold toplevel, call, bind, modify. by destruct (callback_throws c err v).
Qed.

Lemma emit_all_fields (events : list event) :
  forall st,
    workers (emit_all events st) = workers st
    /\ availableWorkers (emit_all events st) = availableWorkers st
    /\ log (emit_all events st) = log st ++ events.
Proof.
  unfold emit_all. induction events as [|e events IH]; intros st; simpl.
  - by rewrite app_nil_r.
  - destruct (IH (emit e st)) as (-> & -> & ->). simpl. by rewrite <- app_assoc.
Qed.

(** The state in which the listener of the request of [k] runs. *)
Lemma replied_fields (k : continuation) (st : State) (i : nat) (q : list value)
    (w : worker) (rq rp reply : list byte) (rqs rps sizes : sizes_array) :
  availableWorkers st = VNum (Z.of_nat i) :: q ->
  slot st i w rq rqs rp rps ->
  let idle := {| listeners := [listener_of k i]; inbox := 0; outbox := [] |} in
  let st' := set_workers (<[i:=idle]> (workers st))
               (set_reply i reply sizes (offloaded k i w rq rqs st)) in
  read_reply i (reply_fields 0) st' = (Ok (readBuffer reply sizes 1), st')
  /\ read_reply i (reply_fields (-1)) st' = (Ok (readBuffer reply sizes 6), st')
  /\ workers st' !! i = Some idle
  /\ availableWorkers st' = q
  /\ log st' = log st ++ console k (VNum (Z.of_nat i)) ++ [PostMessage i].
Proof.
  intros Hq (Hw & Hrq & Hrqs & Hrp & Hrps) idle st'.
  destruct (offloaded_fields k i w rq rqs st) as (_ & Eq & _ & _ & Erp & Erps & _ & Elog).
  assert (repliesSharedBuffers st' !! i = Some (Some reply)) as Hreply.
  { unfold st'. cbn [repliesSharedBuffers set_workers set_reply]. rewrite Erp.
    apply list_lookup_insert_eq. by apply lookup_lt_Some in Hrp. }
  assert (repliesSizesArray st' !! i = Some (Some sizes)) as Hsizes.
  { unfold st'. cbn [repliesSizesArray set_workers set_reply]. rewrite Erps.
    apply list_lookup_insert_eq. by apply lookup_lt_Some in Hrps. }
  split; [by apply read_reply_at|]. split; [by apply read_reply_at|].
  split; [apply list_lookup_insert_eq; by apply lookup_lt_Some in Hw|].
  split; [|exact Elog].
  unfold st'. cbn [availableWorkers set_workers set_reply]. by rewrite Eq, Hq.
Qed.

Lemma sign_reply_result (i c : nat) (st : State) (data : list value) (b : list byte) :
  read_reply i (reply_fields 0) st = (Ok data, st) ->
  element data 0 = VBuf b ->
  sign_reply i c 0 st
  = call c None (VStr (toString_utf8 b))
      (set_availableWorkers (availableWorkers st ++ [VNum (Z.of_nat i)]) st).
Proof. intros Hread Hdata. unfold sign_reply, bind. rewrite Hread. simpl. by rewrite Hdata. Qed.

Lemma verify_reply_result (i c : nat) (st : State) (data : list value) (b : list byte) :
  read_reply i (reply_fields 0) st = (Ok data, st) ->
  element data 0 = VBuf b ->
  verify_reply i c 0 st
  = call c None (VBool (String.eqb (toString_utf8 b) "true"))
      (set_availableWorkers (js_array_set VUndefined (availableWorkers st) i (VNum 0)) st).
Proof. intros Hread Hdata. unfold verify_reply, bind. rewrite Hread. simpl. by rewrite Hdata. Qed.

(** X6 (a signature made by a worker).  The first cell of the queue is
    an index [i] other than 0 whose worker is idle, the request fits in the
    request region and its lengths in their array.  The worker sees each
    field as a Buffer of its bytes ([undefined] for an empty one): when the
    adapter, called on these with the algorithm as a string, returns a
    result whose string is not empty and fits in the reply region, then
    after the call, the worker's turn and the delivery of its status the
    callback has been called exactly once, with no error and that string;
    the index is back at the end of the queue and the slot has no request
    in flight. *)
Theorem signature_made_by_worker (algorithm secret header payload : value) (c : nat)
    (st : State) (i : nat) (q : list value) (w : worker) (rq rp : list byte)
    (rqs rps : sizes_array) (alg : string) (signature : value) (rv : string) :
  let k := SignWith algorithm secret header payload c in
  availableWorkers st = VNum (Z.of_nat i) :: q -> i <> 0 ->
  slot st i w rq rqs rp rps -> inbox w = 0 -> outbox w = [] ->
  total_bytes (request_fields k) <= length rq ->
  sz_room rqs 5 (total_bytes (request_fields k)) ->
  element_toString "algorithm" (worker_view algorithm) = Ok alg ->
  createSignature (VStr alg) (worker_view secret) (worker_view header) (worker_view payload)
  = Ok signature ->
  js_toString "rv" signature = Ok rv -> rv <> ""%string ->
  total_bytes [VStr rv] <= length rp ->
  sz_room rps 1 (total_bytes [VStr rv]) ->
  let st' := run [request k; WorkerRuns i; Deliver i] st in
  log st'
  = log st ++ [ConsoleLog (VNum (Z.of_nat i)); PostMessage i; Callback c None (VStr rv)]
      ++ uncaught (callback_throws c None (VStr rv))
  /\ availableWorkers st' = q ++ [VNum (Z.of_nat i)]
  /\ in_flight st' i = 0.
Proof.
  intros k Hq Hi Hslot Hinbox Houtbox Hfit Hroom Halg Hsign Hrv Hnonempty Hfit' Hroom' st'.
  pose proof (worker_reads_request k rq rqs Hfit Hroom) as Hread.
  set (reply := writeBuffer rp rps [VStr rv]).
  assert (handleWorker_message (fst (writeBuffer rq rqs (request_fields k)))
            (snd (writeBuffer rq rqs (request_fields k))) rp rps
          = (fst reply, snd reply, Some 0%Z)) as Hhandled.
  { unfold handleWorker_message. rewrite Hread. unfold perform. simpl.
    unfold element. simpl. fold (worker_view algorithm) (worker_view secret)
      (worker_view header) (worker_view payload).
    rewrite Halg. simpl. rewrite Hsign. simpl. rewrite Hrv.
    by destruct (writeBuffer rp rps [VStr rv]). }
  unfold st'.
  rewrite (request_handled k st i q w rq rp _ rqs rps _ _ Hq Hi Hslot Hinbox Houtbox Hhandled).
  destruct (replied_fields k st i q w rq rp (fst reply) rqs rps (snd reply) Hq Hslot)
    as (Hreply & _ & Hworker & Hqueue & Hlog).
  set (st3 := set_workers _ _) in *. clearbody st3.
  change (run_listener (listener_of k i) 0) with (sign_reply i c 0).
  pose proof (readBuffer_writeBuffer rp rps [VStr rv] Hfit' Hroom') as Hback.
  simpl in Hback. fold reply in Hback. fold (worker_view (VStr rv)) in Hback.
  rewrite (worker_view_string rv Hnonempty) in Hback. rewrite Hback in Hreply.
  unfold toplevel. rewrite (sign_reply_result i c st3 _ _ Hreply eq_refl).
  fold (toplevel (call c None (VStr (toString_utf8 (Buffer_from rv))))
          (set_availableWorkers (availableWorkers st3 ++ [VNum (Z.of_nat i)]) st3)).
  rewrite toplevel_call, toString_Buffer_from.
  destruct (emit_all_fields (uncaught (callback_throws c None (VStr rv)))
              (emit (Callback c None (VStr rv))
                 (set_availableWorkers (availableWorkers st3 ++ [VNum (Z.of_nat i)]) st3)))
    as (Ew & Eq & Elog).
  unfold in_flight. rewrite Ew, Eq, Elog. simpl. rewrite Hlog, Hqueue, Hworker. simpl.
  by rewrite <- !app_assoc.
Qed.



(** X7 (a verification made by a worker).  The first cell of the queue
    is an index [i] other than 0 whose worker is idle, the request fits in
    the request region and its lengths in their array.  A verify request
    whose signature is not empty has the adapter called on the Buffers the
    worker reads, with the algorithm and the signature as strings: when
    the adapter returns a result whose string is not empty and fits in the
    reply region, then after the call, the worker's turn and the delivery
    of its status the callback has been called exactly once, with no error
    and the boolean that tells whether that string is ["true"]; the
    listener has stored 0 in the cell of the queue at the index of the
    worker, and the slot has no request in flight. *)
Theorem verification_made_by_worker (algorithm secret input signature : value) (c : nat)
    (st : State) (i : nat) (q : list value) (w : worker) (rq rp : list byte)
    (rqs rps : sizes_array) (alg sig : string) (verified : value) (rv : string) :
  let k := VerifyWith algorithm secret input signature c in
  availableWorkers st = VNum (Z.of_nat i) :: q -> i <> 0 ->
  slot st i w rq rqs rp rps -> inbox w = 0 -> outbox w = [] ->
  total_bytes (request_fields k) <= length rq ->
  sz_room rqs 5 (total_bytes (request_fields k)) ->
  element_toString "algorithm" (worker_view algorithm) = Ok alg ->
  element_toString "payloadOrSignature" (worker_view signature) = Ok sig ->
  verifySignature (VStr alg) (worker_view secret) (worker_view input) (VStr sig)
  = Ok verified ->
  js_toString "rv" verified = Ok rv -> rv <> ""%string ->
  total_bytes [VStr rv] <= length rp ->
  sz_room rps 1 (total_bytes [VStr rv]) ->
  let st' := run [request k; WorkerRuns i; Deliver i] st in
  log st'
  = log st ++ [PostMessage i; Callback c None (VBool (String.eqb rv "true"))]
      ++ uncaught (callback_throws c None (VBool (String.eqb rv "true")))
  /\ availableWorkers st' = js_array_set VUndefined q i (VNum 0)
  /\ in_flight st' i = 0.
Proof.
  intros k Hq Hi Hslot Hinbox Houtbox Hfit Hroom Halg Hsig Hverify Hrv Hnonempty Hfit' Hroom'
    st'.
  pose proof (worker_reads_request k rq rqs Hfit Hroom) as Hread.
  set (reply := writeBuffer rp rps [VStr rv]).
  assert (handleWorker_message (fst (writeBuffer rq rqs (request_fields k)))
            (snd (writeBuffer rq rqs (request_fields k))) rp rps
          = (fst reply, snd reply, Some 0%Z)) as Hhandled.
  { unfold handleWorker_message. rewrite Hread. unfold perform. simpl.
    unfold element. simpl. fold (worker_view algorithm) (worker_view secret)
      (worker_view input) (worker_view signature).
    rewrite Halg. simpl. rewrite Hsig. simpl. rewrite Hverify. simpl. rewrite Hrv.
    by destruct (writeBuffer rp rps [VStr rv]). }
  unfold st'.
  rewrite (request_handled k st i q w rq rp _ rqs rps _ _ Hq Hi Hslot Hinbox Houtbox Hhandled).
  destruct (replied_fields k st i q w rq rp (fst reply) rqs rps (snd reply) Hq Hslot)
    as (Hreply & _ & Hworker & Hqueue & Hlog).
  set (st3 := set_workers _ _) in *. clearbody st3.
  change (run_listener (listener_of k i) 0) with (verify_reply i c 0).
  pose proof (readBuffer_writeBuffer rp rps [VStr rv] Hfit' Hroom') as Hback.
  simpl in Hback. fold reply in Hback. fold (worker_view (VStr rv)) in Hback.
  rewrite (worker_view_string rv Hnonempty) in Hback. rewrite Hback in Hreply.
  unfold toplevel. rewrite (verify_reply_result i c st3 _ _ Hreply eq_refl).
  rewrite toString_Buffer_from.
  set (verdict := VBool (String.eqb rv "true")).
  set (st4 := set_availableWorkers _ st3).
  fold (toplevel (call c None verdict) st4).
  rewrite toplevel_call.
  destruct (emit_all_fields (uncaught (callback_throws c None verdict))
              (emit (Callback c None verdict) st4)) as (Ew & Eq & Elog).
  unfold in_flight. rewrite Ew, Eq, Elog. simpl. rewrite Hlog, Hqueue, Hworker. simpl.
  by rewrite <- !app_assoc.
Qed.

Lemma listener_error (k : continuation) (i : nat) (st : State) (data : list value) :
  read_reply i (reply_fields (-1)) st = (Ok data, st) ->
  run_listener (listener_of k i) (-1) st
  = call (callback_of k) (Some (error_of_reply data)) VUndefined
      (set_availableWorkers (released k i (availableWorkers st)) st).
Proof.
  intros Hread.
  destruct k; simpl; unfold sign_reply, verify_reply, bind; by rewrite Hread.
Qed.

Lemma listener_undefined (k : continuation) (i : nat) (st : State) (data : list value) :
  read_reply i (reply_fields 0) st = (Ok data, st) ->
  element data 0 = VUndefined ->
  run_listener (listener_of k i) 0 st
  = (Throw (reply_TypeError k),
     set_availableWorkers (released k i (availableWorkers st)) st).
Proof.
  intros Hread Hdata.
  destruct k; simpl; unfold sign_reply, verify_reply, bind; rewrite Hread; simpl;
    by rewrite Hdata.
Qed.

(** X8 (an error made by a worker).  The first cell of the queue is an
    index [i] other than 0 whose worker is idle, the request fits in the
    request region and its lengths in their array.  When the operation
    fails in the worker on the fields it reads, the failure is wrapped, and
    the wrapped error has an original error and its six fields fit in the
    reply region, then after the call, the worker's turn and the delivery
    of its status the callback of the sign or verify request has been
    called exactly once, with the error rebuilt from the strings that were
    carried (a field that is not a string, or is empty, comes back as
    [null]) and no result; the listener has updated the queue as it does
    for a result, and the slot has no request in flight. *)
Theorem error_made_by_worker (k : continuation) (st : State) (i : nat) (q : list value)
    (w : worker) (rq rp : list byte) (rqs rps : sizes_array) (e original : js_error) :
  availableWorkers st = VNum (Z.of_nat i) :: q -> i <> 0 ->
  slot st i w rq rqs rp rps -> inbox w = 0 -> outbox w = [] ->
  total_bytes (request_fields k) <= length rq ->
  sz_room rqs 5 (total_bytes (request_fields k)) ->
  perform (worker_view <$> request_fields k) = Throw e ->
  let error :=
    TokenError_wrap e codes_workerError (VStr "Cannot perform operation using worker.") in
  e_originalError error = Some original ->
  total_bytes (error_fields error original) <= length rp ->
  sz_room rps 6 (total_bytes (error_fields error original)) ->
  let rebuilt :=
    deserializeWorkerError
      (carried (e_code error)) (carried (e_message error)) (carried (e_stack error))
      (carried (js_or (e_code original) (VStr ""))) (carried (e_message original))
      (carried (e_stack original)) in
  let st' := run [request k; WorkerRuns i; Deliver i] st in
  log st'
  = log st ++ console k (VNum (Z.of_nat i))
      ++ [PostMessage i; Callback (callback_of k) (Some rebuilt) VUndefined]
      ++ uncaught (callback_throws (callback_of k) (Some rebuilt) VUndefined)
  /\ availableWorkers st' = released k i q
  /\ in_flight st' i = 0.
Proof.
  intros Hq Hi Hslot Hinbox Houtbox Hfit Hroom Hperform error Horiginal Hfit' Hroom' rebuilt
    st'.
  pose proof (worker_reads_request k rq rqs Hfit Hroom) as Hread.
  set (reply := writeBuffer rp rps (error_fields error original)).
  assert (handleWorker_message (fst (writeBuffer rq rqs (request_fields k)))
            (snd (writeBuffer rq rqs (request_fields k))) rp rps
          = (fst reply, snd reply, Some (-1)%Z)) as Hhandled.
  { unfold handleWorker_message. rewrite Hread, Hperform. fold error. rewrite Horiginal.
    fold reply. by destruct reply. }
  unfold st'.
  rewrite (request_handled k st i q w rq rp _ rqs rps _ _ Hq Hi Hslot Hinbox Houtbox Hhandled).
  destruct (replied_fields k st i q w rq rp (fst reply) rqs rps (snd reply) Hq Hslot)
    as (_ & Hreply & Hworker & Hqueue & Hlog).
  set (st3 := set_workers _ _) in *. clearbody st3.
  unfold toplevel. rewrite (listener_error k i st3 _ Hreply).
  unfold reply. rewrite (error_of_reply_written rp rps error original Hfit' Hroom').
  fold rebuilt.
  set (st4 := set_availableWorkers _ st3).
  fold (toplevel (call (callback_of k) (Some rebuilt) VUndefined) st4).
  rewrite toplevel_call.
  destruct (emit_all_fields (uncaught (callback_throws (callback_of k) (Some rebuilt) VUndefined))
              (emit (Callback (callback_of k) (Some rebuilt) VUndefined) st4))
    as (Ew & Eq & Elog).
  unfold in_flight. rewrite Ew, Eq, Elog. simpl. rewrite Hlog, Hqueue, Hworker. simpl.
  by rewrite <- !app_assoc.
Qed.

(** X9 (an empty result is lost).  The first cell of the queue is an
    index [i] other than 0 whose worker is idle, the request fits in the
    request region and its lengths in their array.  When the operation
    succeeds in the worker and the string of its result is empty, the
    reply is framed with length 0 and read back as [undefined]: the
    listener updates the queue and then raises a [TypeError] that nothing
    catches, and the callback of the request is not called. *)
Theorem empty_result_is_lost (k : continuation) (st : State) (i : nat) (q : list value)
    (w : worker) (rq rp : list byte) (rqs rps : sizes_array) :
  availableWorkers st = VNum (Z.of_nat i) :: q -> i <> 0 ->
  slot st i w rq rqs rp rps -> inbox w = 0 -> outbox w = [] ->
  total_bytes (request_fields k) <= length rq ->
  sz_room rqs 5 (total_bytes (request_fields k)) ->
  perform (worker_view <$> request_fields k) = Ok ""%string ->
  sz_room rps 1 0 ->
  let st' := run [request k; WorkerRuns i; Deliver i] st in
  log st'
  = log st ++ console k (VNum (Z.of_nat i)) ++ [PostMessage i; Uncaught (reply_TypeError k)]
  /\ availableWorkers st' = released k i q
  /\ in_flight st' i = 0.
Proof.
  intros Hq Hi Hslot Hinbox Houtbox Hfit Hroom Hperform Hroom' st'.
  pose proof (worker_reads_request k rq rqs Hfit Hroom) as Hread.
  set (reply := writeBuffer rp rps [VStr ""]).
  assert (handleWorker_message (fst (writeBuffer rq rqs (request_fields k)))
            (snd (writeBuffer rq rqs (request_fields k))) rp rps
          = (fst reply, snd reply, Some 0%Z)) as Hhandled.
  { unfold handleWorker_message. rewrite Hread, Hperform. fold reply. by destruct reply. }
  unfold st'.
  rewrite (request_handled k st i q w rq rp _ rqs rps _ _ Hq Hi Hslot Hinbox Houtbox Hhandled).
  destruct (replied_fields k st i q w rq rp (fst reply) rqs rps (snd reply) Hq Hslot)
    as (Hreply & _ & Hworker & Hqueue & Hlog).
  set (st3 := set_workers _ _) in *. clearbody st3.
  pose proof (readBuffer_writeBuffer rp rps [VStr ""] (Nat.le_0_l _) Hroom') as Hback.
  simpl in Hback. fold reply in Hback. rewrite Hback in Hreply.
  unfold toplevel. rewrite (listener_undefined k i st3 _ Hreply eq_refl).
  unfold in_flight. simpl. rewrite Hlog, Hqueue, Hworker. simpl.
  by rewrite <- !app_assoc.
Qed.

End Requests.

(** ** The further properties on concrete requests *)

Lemma readBuffer_truncated_witness :
  let buffer := replicate 8 x00 in
  let sizes := Int32Array (replicate 10 0%Z) in
  let elements := [VStr "sign"; VStr "HS512"; VStr "secret"] in
  let written := writeBuffer buffer sizes elements in
  let chunks := truncated_fields (length buffer) (field_bytes <$> elements) in
  sz_room sizes (length elements) (length buffer)
  /\ chunks = [Buffer_from "sign"; Buffer_from "HS51"; []]
  /\ (forall k chunk, chunks !! k = Some chunk ->
        sz_get (snd written) k = Some (Z.of_nat (length chunk)))
  /\ readBuffer (fst written) (snd written) (length elements) = read_back <$> chunks
  /\ (forall k element, elements !! k = Some element ->
        length buffer <= total_bytes (take k elements) ->
        readBuffer (fst written) (snd written) (length elements) !! k = Some VUndefined).
Proof.
  intros buffer sizes elements written chunks.
  assert (sz_room sizes (length elements) (length buffer)) as Hroom
    by (split; [vm_compute; lia|reflexivity]).
  split; [exact Hroom|]. split; [reflexivity|].
  exact (readBuffer_truncated buffer sizes elements Hroom).
Defined.

Lemma usable_index_is_used_at_once_witness :
  let k := SignWith (VStr "HS512") (VStr "secret") (VStr "e30") (VStr "e30") 7 in
  let w := {| listeners := []; inbox := 0; outbox := [] |} in
  let region := replicate 256 x00 in
  let sizes := Int32Array (replicate 10 0%Z) in
  availableWorkers serving = [VNum 1]
  /\ workers serving !! 1 = Some w
  /\ requestsSharedBuffers serving !! 1 = Some (Some region)
  /\ requestsSizesArray serving !! 1 = Some (Some sizes)
  /\ repliesSharedBuffers serving !! 1 = Some (Some region)
  /\ acquire (runtime := machine 2) k 3 serving = (Ok tt, offloaded k 1 w region sizes serving).
Proof.
  intros k w region sizes.
  assert (availableWorkers serving = VNum (Z.of_nat 1) :: []) as Hq by reflexivity.
  assert (1 <> 0) as Hi by lia.
  assert (workers serving !! 1 = Some w) as Hw by reflexivity.
  assert (requestsSharedBuffers serving !! 1 = Some (Some region)) as Hrq by reflexivity.
  assert (requestsSizesArray serving !! 1 = Some (Some sizes)) as Hrqs by reflexivity.
  assert (repliesSharedBuffers serving !! 1 = Some (Some region)) as Hrp by reflexivity.
  split; [exact Hq|]. split; [exact Hw|]. split; [exact Hrq|]. split; [exact Hrqs|].
  split; [exact Hrp|].
  exact (usable_index_is_used_at_once (runtime := machine 2) k 3 serving 1 [] w region region
           sizes Hq Hi Hw Hrq Hrqs Hrp).
Defined.

Lemma signature_made_by_worker_witness :
  let k := SignWith (VStr "HS512") (VStr "secret") (VStr "e30") (VStr "e30") 7 in
  let w := {| listeners := []; inbox := 0; outbox := [] |} in
  let region := replicate 256 x00 in
  let sizes := Int32Array (replicate 10 0%Z) in
  let st' := run (runtime := machine 2) [request k; WorkerRuns 1; Deliver 1] serving in
  (availableWorkers serving = [VNum 1] /\ slot serving 1 w region sizes region sizes)
  /\ (total_bytes (request_fields k) <= length region
      /\ sz_room sizes 5 (total_bytes (request_fields k)))
  /\ createSignature (VStr "HS512") (worker_view (VStr "secret")) (worker_view (VStr "e30"))
       (worker_view (VStr "e30")) = Ok (VStr sample_signature)
  /\ (total_bytes [VStr sample_signature] <= length region
      /\ sz_room sizes 1 (total_bytes [VStr sample_signature]))
  /\ log st'
     = log serving ++ [ConsoleLog (VNum 1); PostMessage 1;
                       Callback 7 None (VStr sample_signature)]
  /\ availableWorkers st' = [VNum 1]
  /\ in_flight st' 1 = 0.
Proof.
  intros k w region sizes st'.
  assert (availableWorkers serving = VNum (Z.of_nat 1) :: []) as Hq by reflexivity.
  assert (1 <> 0) as Hi by lia.
  assert (slot serving 1 w region sizes region sizes) as Hslot
    by (split; [|split; [|split; [|split]]]; reflexivity).
  assert (total_bytes (request_fields k) <= length region) as Hfit by (vm_compute; lia).
  assert (sz_room sizes 5 (total_bytes (request_fields k))) as Hroom
    by (split; [vm_compute; lia|reflexivity]).
  assert (element_toString (runtime := machine 2) "algorithm" (worker_view (VStr "HS512"))
          = Ok "HS512"%string) as Halg by reflexivity.
  assert (createSignature (VStr "HS512") (worker_view (VStr "secret"))
            (worker_view (VStr "e30")) (worker_view (VStr "e30"))
          = Ok (VStr sample_signature)) as Hsign by reflexivity.
  assert (js_toString (runtime := machine 2) "rv" (VStr sample_signature)
          = Ok sample_signature) as Hrv by reflexivity.
  assert (sample_signature <> ""%string) as Hnonempty by discriminate.
  assert (total_bytes [VStr sample_signature] <= length region) as Hfit'
    by (vm_compute; lia).
  assert (sz_room sizes 1 (total_bytes [VStr sample_signature])) as Hroom'
    by (split; [vm_compute; lia|reflexivity]).
  split; [exact (conj Hq Hslot)|]. split; [exact (conj Hfit Hroom)|].
  split; [exact Hsign|]. split; [exact (conj Hfit' Hroom')|].
  exact (signature_made_by_worker (runtime := machine 2) (VStr "HS512") (VStr "secret")
           (VStr "e30") (VStr "e30") 7 serving 1 [] w region region sizes sizes "HS512"
           (VStr sample_signature) sample_signature
           Hq Hi Hslot eq_refl eq_refl Hfit Hroom Halg Hsign Hrv Hnonempty Hfit' Hroom').
Defined.

Lemma verification_made_by_worker_witness :
  let k := VerifyWith (VStr "HS512") (VStr "secret") (VStr "e30.e30")
             (VStr sample_signature) 7 in
  let w := {| listeners := []; inbox := 0; outbox := [] |} in
  let region := replicate 256 x00 in
  let sizes := Int32Array (replicate 10 0%Z) in
  let st' := run (runtime := machine 2) [request k; WorkerRuns 1; Deliver 1] serving in
  (availableWorkers serving = [VNum 1] /\ slot serving 1 w region sizes region sizes)
  /\ (total_bytes (request_fields k) <= length region
      /\ sz_room sizes 5 (total_bytes (request_fields k)))
  /\ verifySignature (VStr "HS512") (worker_view (VStr "secret"))
       (worker_view (VStr "e30.e30")) (VStr sample_signature) = Ok (VBool true)
  /\ (total_bytes [VStr "true"] <= length region /\ sz_room sizes 1 (total_bytes [VStr "true"]))
  /\ log st' = log serving ++ [PostMessage 1; Callback 7 None (VBool true)]
  /\ availableWorkers st' = [VUndefined; VNum 0]
  /\ in_flight st' 1 = 0.
Proof.
  intros k w region sizes st'.
  assert (availableWorkers serving = VNum (Z.of_nat 1) :: []) as Hq by reflexivity.
  assert (1 <> 0) as Hi by lia.
  assert (slot serving 1 w region sizes region sizes) as Hslot
    by (split; [|split; [|split; [|split]]]; reflexivity).
  assert (total_bytes (request_fields k) <= length region) as Hfit by (vm_compute; lia).
  assert (sz_room sizes 5 (total_bytes (request_fields k))) as Hroom
    by (split; [vm_compute; lia|reflexivity]).
  assert (element_toString (runtime := machine 2) "algorithm" (worker_view (VStr "HS512"))
          = Ok "HS512"%string) as Halg by reflexivity.
  assert (element_toString (runtime := machine 2) "payloadOrSignature"
            (worker_view (VStr sample_signature)) = Ok sample_signature) as Hsig
    by reflexivity.
  assert (verifySignature (VStr "HS512") (worker_view (VStr "secret"))
            (worker_view (VStr "e30.e30")) (VStr sample_signature) = Ok (VBool true))
    as Hverify by reflexivity.
  assert (js_toString (runtime := machine 2) "rv" (VBool true) = Ok "true"%string) as Hrv
    by reflexivity.
  assert ("true"%string <> ""%string) as Hnonempty by discriminate.
  assert (total_bytes [VStr "true"] <= length region) as Hfit' by (vm_compute; lia).
  assert (sz_room sizes 1 (total_bytes [VStr "true"])) as Hroom'
    by (split; [vm_compute; lia|reflexivity]).
  split; [exact (conj Hq Hslot)|]. split; [exact (conj Hfit Hroom)|].
  split; [exact Hverify|]. split; [exact (conj Hfit' Hroom')|].
  exact (verification_made_by_worker (runtime := machine 2) (VStr "HS512") (VStr "secret")
           (VStr "e30.e30") (VStr sample_signature) 7 serving 1 [] w region region sizes sizes
           "HS512" sample_signature (VBool true) "true"
           Hq Hi Hslot eq_refl eq_refl Hfit Hroom Halg Hsig Hverify Hrv Hnonempty Hfit' Hroom').
Defined.

Lemma error_made_by_worker_witness :
  let k := SignWith (VStr "HS512") (VStr "") (VStr "e30") (VStr "e30") 7 in
  let w := {| listeners := []; inbox := 0; outbox := [] |} in
  let region := replicate 256 x00 in
  let sizes := Int32Array (replicate 10 0%Z) in
  let st' := run (runtime := machine 2) [request k; WorkerRuns 1; Deliver 1] serving in
  let rebuilt :=
    MkError TokenError (VStr "FAST_JWT_SIGN_ERROR") (VStr "Cannot create the signature.")
      (VStr "TokenError: Cannot create the signature.")
      (Some (MkError PlainError VNull (VStr "error:0909006C:PEM routines")
               (VStr "Error: error:0909006C:PEM routines") None)) in
  (availableWorkers serving = [VNum 1] /\ slot serving 1 w region sizes region sizes)
  /\ (total_bytes (request_fields k) <= length region
      /\ sz_room sizes 5 (total_bytes (request_fields k)))
  /\ perform (runtime := machine 2) (worker_view <$> request_fields k)
     = Throw sample_sign_error
  /\ e_originalError
       (TokenError_wrap sample_sign_error codes_workerError
          (VStr "Cannot perform operation using worker.")) = Some sample_cause
  /\ (total_bytes (error_fields sample_sign_error sample_cause) <= length region
      /\ sz_room sizes 6 (total_bytes (error_fields sample_sign_error sample_cause)))
  /\ log st'
     = log serving ++ [ConsoleLog (VNum 1); PostMessage 1;
                       Callback 7 (Some rebuilt) VUndefined]
  /\ availableWorkers st' = [VNum 1]
  /\ in_flight st' 1 = 0.
Proof.
  intros k w region sizes st' rebuilt.
  assert (availableWorkers serving = VNum (Z.of_nat 1) :: []) as Hq by reflexivity.
  assert (1 <> 0) as Hi by lia.
  assert (slot serving 1 w region sizes region sizes) as Hslot
    by (split; [|split; [|split; [|split]]]; reflexivity).
  assert (total_bytes (request_fields k) <= length region) as Hfit by (vm_compute; lia).
  assert (sz_room sizes 5 (total_bytes (request_fields k))) as Hroom
    by (split; [vm_compute; lia|reflexivity]).
  assert (perform (runtime := machine 2) (worker_view <$> request_fields k)
          = Throw sample_sign_error) as Hperform by reflexivity.
  assert (e_originalError
            (TokenError_wrap sample_sign_error codes_workerError
               (VStr "Cannot perform operation using worker.")) = Some sample_cause)
    as Horiginal by reflexivity.
  assert (total_bytes (error_fields sample_sign_error sample_cause) <= length region)
    as Hfit' by (vm_compute; lia).
  assert (sz_room sizes 6 (total_bytes (error_fields sample_sign_error sample_cause)))
    as Hroom' by (split; [vm_compute; lia|reflexivity]).
  split; [exact (conj Hq Hslot)|]. split; [exact (conj Hfit Hroom)|].
  split; [exact Hperform|]. split; [exact Horiginal|]. split; [exact (conj Hfit' Hroom')|].
  exact (error_made_by_worker (runtime := machine 2) k serving 1 [] w region region sizes
           sizes sample_sign_error sample_cause
           Hq Hi Hslot eq_refl eq_refl Hfit Hroom Hperform Horiginal Hfit' Hroom').
Defined.

Lemma empty_result_is_lost_witness :
  let k := SignWith (VStr "HS512") (VStr "secret") (VStr "e30") (VStr "e30") 7 in
  let w := {| listeners := []; inbox := 0; outbox := [] |} in
  let region := replicate 256 x00 in
  let sizes := Int32Array (replicate 10 0%Z) in
  let st' :=
    run (crypto := empty_crypto) (runtime := machine 2) [request k; WorkerRuns 1; Deliver 1]
      serving in
  (availableWorkers serving = [VNum 1] /\ slot serving 1 w region sizes region sizes)
  /\ (total_bytes (request_fields k) <= length region
      /\ sz_room sizes 5 (total_bytes (request_fields k)))
  /\ perform (crypto := empty_crypto) (runtime := machine 2) (worker_view <$> request_fields k)
     = Ok ""%string
  /\ sz_room sizes 1 0
  /\ log st'
     = log serving ++ [ConsoleLog (VNum 1); PostMessage 1;
                       Uncaught (TypeError_at (Runtime := machine 2) "Buffer.from(data[0])")]
  /\ availableWorkers st' = [VNum 1]
  /\ in_flight st' 1 = 0.
Proof.
  intros k w region sizes st'.
  assert (availableWorkers serving = VNum (Z.of_nat 1) :: []) as Hq by reflexivity.
  assert (1 <> 0) as Hi by lia.
  assert (slot serving 1 w region sizes region sizes) as Hslot
    by (split; [|split; [|split; [|split]]]; reflexivity).
  assert (total_bytes (request_fields k) <= length region) as Hfit by (vm_compute; lia).
  assert (sz_room sizes 5 (total_bytes (request_fields k))) as Hroom
    by (split; [vm_compute; lia|reflexivity]).
  assert (perform (crypto := empty_crypto) (runtime := machine 2)
            (worker_view <$> request_fields k) = Ok ""%string) as Hperform by reflexivity.
  assert (sz_room sizes 1 0) as Hroom' by (split; [vm_compute; lia|reflexivity]).
  split; [exact (conj Hq Hslot)|]. split; [exact (conj Hfit Hroom)|].
  split; [exact Hperform|]. split; [exact Hroom'|].
  exact (empty_result_is_lost (crypto := empty_crypto) (runtime := machine 2) k serving 1 []
           w region region sizes sizes
           Hq Hi Hslot eq_refl eq_refl Hfit Hroom Hperform Hroom').
Defined.

(** * Reading with arbitrary lengths *)

Lemma adjustOffset_range (offset : num) (len : Z) :
  (0 <= len -> 0 <= adjustOffset offset len <= len)%Z.
Proof.
  intros Hlen. destruct offset as [o|]; simpl; [|lia].
  destruct (Z.ltb_spec o 0); lia.
Qed.

Lemma slice_inside (buf : list byte) (start end_ : num) :
  exists before after, buf = before ++ slice buf start end_ ++ after.
Proof.
  unfold slice. cbv zeta.
  destruct (_ <? _)%Z.
  - exists (take (Z.to_nat (adjustOffset start (Z.of_nat (length buf)))) buf),
      (drop (Z.to_nat (adjustOffset end_ (Z.of_nat (length buf))
                       - adjustOffset start (Z.of_nat (length buf))))
         (drop (Z.to_nat (adjustOffset start (Z.of_nat (length buf)))) buf)).
    by rewrite !take_drop.
  - by exists [], buf.
Qed.

Lemma slice_to_NaN (buf : list byte) (start : num) : slice buf start None = [].
Proof.
  unfold slice. cbv zeta. simpl adjustOffset at 2.
  pose proof (adjustOffset_range start (Z.of_nat (length buf)) ltac:(lia)).
  by destruct (Z.ltb_spec (adjustOffset start (Z.of_nat (length buf))) 0); [lia|].
Qed.

Lemma readBuffer_loop_inside (buffer : list byte) (sizes : sizes_array) (remaining : nat) :
  forall (i : nat) (start end_ : num),
    length (readBuffer_loop buffer sizes i remaining start end_) = remaining
    /\ Forall (fun v => v = VUndefined
                        \/ exists before bytes after,
                             v = VBuf bytes /\ buffer = before ++ bytes ++ after)
         (readBuffer_loop buffer sizes i remaining start end_).
Proof.
  induction remaining as [|remaining IH]; intros i start end_; simpl; [done|].
  destruct (IH (S i) (num_add start (sz_get sizes i)) (num_add end_ (sz_get sizes i)))
    as [Hlen Hall].
  split; [by rewrite Hlen|]. apply Forall_cons. split; [|done].
  destruct (num_strict_neq _ _); [right|by left].
  destruct (slice_inside buffer start (num_add end_ (sz_get sizes i))) as (before & after & H).
  by exists before, (slice buffer start (num_add end_ (sz_get sizes i))), after.
Qed.

(** X3 ([readBuffer] stays inside the buffer).  Whatever the buffer, the
    array of lengths (its cells may be missing, negative or larger than the
    buffer) and the count, [readBuffer] returns exactly [elementsCount]
    elements, and each of them is [undefined] or a Buffer whose bytes are a
    contiguous part of the buffer. *)
Theorem readBuffer_stays_inside (buffer : list byte) (sizes : sizes_array)
    (elementsCount : nat) :
  length (readBuffer buffer sizes elementsCount) = elementsCount
  /\ forall k v, readBuffer buffer sizes elementsCount !! k = Some v ->
       v = VUndefined
       \/ exists before bytes after, v = VBuf bytes /\ buffer = before ++ bytes ++ after.
Proof.
  destruct (readBuffer_loop_inside buffer sizes elementsCount 0 (Some 0%Z) (Some 0%Z))
    as [Hlen Hall].
  split; [done|]. intros k v Hk.
  rewrite Forall_lookup in Hall. by apply (Hall k v).
Qed.

Lemma readBuffer_loop_NaN (buffer : list byte) (sizes : sizes_array) (remaining : nat) :
  forall (i : nat) (start : num),
    readBuffer_loop buffer sizes i remaining start None = replicate remaining (VBuf []).
Proof.
  induction remaining as [|remaining IH]; intros i start; simpl; [done|].
  rewrite IH, slice_to_NaN. by destruct start.
Qed.

Lemma readBuffer_loop_missing (buffer : list byte) (sizes : sizes_array) (k : nat) :
  sz_get sizes k = None ->
  forall (remaining i : nat) (start end_ : num) (j : nat),
    i <= k -> k - i <= j -> j < remaining ->
    readBuffer_loop buffer sizes i remaining start end_ !! j = Some (VBuf []).
Proof.
  intros Hmissing. induction remaining as [|remaining IH]; intros i start end_ j Hi Hj Hlt;
    [lia|].
  cbn [readBuffer_loop].
  destruct (decide (i = k)) as [->|Hne].
  - rewrite Hmissing.
    assert (num_add end_ None = None) as -> by by destruct end_.
    rewrite readBuffer_loop_NaN, slice_to_NaN.
    assert (num_strict_neq start None = true) as -> by by destruct start.
    destruct j as [|j]; [done|]. simpl. apply lookup_replicate_2. lia.
  - destruct j as [|j]; [lia|]. simpl. apply IH; lia.
Qed.

(** X4 (a missing length).  When the array of lengths has no number at
    index [k] (a hole, or an index past its last cell), the running end of
    [readBuffer] is [NaN] from field [k] on: every field from [k] on is
    returned as an empty Buffer, which is truthy, and not as [undefined]. *)
Theorem readBuffer_missing_length (buffer : list byte) (sizes : sizes_array)
    (elementsCount k j : nat) :
  sz_get sizes k = None -> k <= j -> j < elementsCount ->
  readBuffer buffer sizes elementsCount !! j = Some (VBuf [])
  /\ truthy (VBuf []) = true.
Proof.
  intros Hmissing Hk Hj. split; [|done].
  apply (readBuffer_loop_missing buffer sizes k Hmissing); lia.
Qed.

Lemma readBuffer_missing_length_witness :
  let buffer := Buffer_from "signHS512" in
  let sizes := Int32Array [4; 5]%Z in
  sz_get sizes 2 = None /\ 2 <= 3 /\ 3 < 5
  /\ readBuffer buffer sizes 5
     = [VBuf (Buffer_from "sign"); VBuf (Buffer_from "HS512"); VBuf []; VBuf []; VBuf []]
  /\ readBuffer buffer sizes 5 !! 3 = Some (VBuf [])
  /\ truthy (VBuf []) = true.
Proof.
  intros buffer sizes.
  assert (sz_get sizes 2 = None) as Hmissing by reflexivity.
  assert (2 <= 3) as Hk by lia.
  assert (3 < 5) as Hj by lia.
  split; [exact Hmissing|]. split; [exact Hk|]. split; [exact Hj|].
  split; [reflexivity|].
  exact (readBuffer_missing_length buffer sizes 5 2 3 Hmissing Hk Hj).
Defined.

(** * The shape of the pool in every reachable state *)

Lemma quiet_refl (st : State) : quiet st st.
Proof. split; [done|]. split; [done|]. split; [done|]. split; [done|]. intros v Hv _. by left. Qed.

Lemma quiet_trans (st1 st2 st3 : State) : quiet st1 st2 -> quiet st2 st3 -> quiet st1 st3.
Proof.
  intros (A1 & L1 & Z1 & P1 & Q1) (A2 & L2 & Z2 & P2 & Q2).
  split; [intros j Hj; by apply A2, A1|]. split; [congruence|]. split; [congruence|].
  split; [intros H; by apply P1, P2|].
  intros v Hv Htruthy. destruct (Q2 v Hv Htruthy) as [Hin|(i & -> & Hi)].
  - by apply Q1.
  - right. exists i. split; [done|lia].
Qed.

(** A state that differs in what [quiet] does not look at, or by a shorter
    queue and a longer log without a notification of worker 0. *)
Lemma quiet_fields (st st' : State) (events : list event) :
  requestsSharedBuffers st' = requestsSharedBuffers st ->
  requestsSizesArray st' = requestsSizesArray st ->
  repliesSharedBuffers st' = repliesSharedBuffers st ->
  repliesSizesArray st' = repliesSizesArray st ->
  workers st' = workers st ->
  log st' = log st ++ events -> PostMessage 0 ∉ events ->
  availableWorkers st' ⊆ availableWorkers st ->
  quiet st st'.
Proof.
  intros E1 E2 E3 E4 Ew Elog Hevents Hq.
  split; [unfold allocated; by rewrite E1, E2, E3, E4|].
  split; [by rewrite Ew|]. split; [by rewrite Ew|].
  split; [rewrite Elog; intros [H|H]%elem_of_app; done|].
  intros v Hv _. left. by apply Hq.
Qed.

Lemma quiet_emit (e : event) (st : State) : e <> PostMessage 0 -> quiet st (emit e st).
Proof.
  intros He. apply (quiet_fields st _ [e]); try done.
  intros H%list_elem_of_singleton. by subst e.
Qed.

Lemma quiet_settled `{runtime : Runtime} (st st' : State) :
  quiet st st' -> settled st -> settled st'.
Proof.
  intros (A & L & Z & P & Q) [Hws Hq Hfirst Hlog]. split.
  - destruct Hws as [Hnone|[Hlen Hall]].
    + left. apply nil_length_inv. by rewrite L, Hnone.
    + right. split; [congruence|]. intros i Hi. by apply A, Hall.
  - intros v Hv Htruthy. destruct (Q v Hv Htruthy) as [Hin|(i & -> & Hi)]; [by apply Hq|].
    exists i. split; [done|].
    destruct Hws as [Hnone|[Hlen _]]; [rewrite Hnone in Hi; simpl in Hi; lia|lia].
  - intros w. rewrite Z. apply Hfirst.
  - intros H. by apply Hlog, P.
Qed.

Lemma allocated_insert {A} (l : list (option A)) (i j : nat) (x : A) :
  is_Some (mjoin (l !! j)) -> is_Some (mjoin (<[i:=Some x]> l !! j)).
Proof.
  intros Hj. destruct (decide (i = j)) as [->|Hne].
  - destruct (l !! j) as [o|] eqn:Hl; [|by destruct Hj].
    rewrite list_lookup_insert_eq by (by eapply lookup_lt_Some). done.
  - by rewrite list_lookup_insert_ne.
Qed.

Lemma truthy_index_of (v : value) (i : nat) :
  truthy v = true -> index_of v = Some i -> v = VNum (Z.of_nat i) /\ i <> 0.
Proof.
  destruct v as [| |b|n|s|b|o]; simpl; try done.
  destruct (Z.leb_spec 0 n) as [Hn|]; [|done].
  destruct (Z.eqb_spec n 0) as [|Hne]; [done|].
  intros _ [= <-]. split; [by rewrite Z2Nat.id|lia].
Qed.

Section Shape.
Context `{crypto : Crypto} `{token_errors : TokenErrors} `{runtime : Runtime}.

Lemma call_quiet (c : nat) (err : option js_error) (v : value) (st : State) :
  quiet st (snd (call c err v st)).
Proof.
  unfold call, bind, modify. simpl.
  destruct (callback_throws c err v); simpl; by apply quiet_emit.
Qed.

Lemma toplevel_quiet (m : M unit) (st : State) :
  quiet st (snd (m st)) -> quiet st (toplevel m st).
Proof.
  unfold toplevel. destruct (m st) as [[[]|e] st']; simpl; [done|].
  intros H. eapply quiet_trans; [exact H|by apply quiet_emit].
Qed.

Lemma emit_all_quiet (events : list event) :
  PostMessage 0 ∉ events -> forall st, quiet st (emit_all events st).
Proof.
  unfold emit_all. induction events as [|e events IH]; intros Hnot st; simpl.
  - apply quiet_refl.
  - apply not_elem_of_cons in Hnot as [Hne Hnot].
    eapply quiet_trans; [by apply (quiet_emit e)|by apply IH].
Qed.

Lemma resume_falsy_quiet (k : continuation) (worker : value) (st : State) :
  truthy worker = false -> quiet st (snd (resume k worker st)).
Proof.
  intros Hfalsy. destruct (resume_without_worker k worker st Hfalsy) as (r & -> & _).
  simpl. apply emit_all_quiet.
  intros [H|H]%elem_of_app.
  - destruct k; simpl in H; [by apply list_elem_of_singleton in H|by inversion H].
  - unfold in_process_calls in H.
    destruct (in_process k); [destruct (callback_throws _ _ _)|];
      repeat (apply elem_of_cons in H as [H|H]; [done|]); by inversion H.
Qed.

(** Handing a request to the worker of a usable cell. *)
Lemma offload_quiet (v : value) (elements : list value) (l : nat -> listener) (st : State) :
  truthy v = true -> quiet st (snd (offload v elements l st)).
Proof.
  intros Htruthy. unfold offload, bind, get, region. simpl.
  destruct (at_index (requestsSharedBuffers st) v) as [[requestBuffer|]|];
    try apply quiet_refl. simpl.
  destruct (at_index (repliesSharedBuffers st) v) as [[replyBuffer|]|];
    try apply quiet_refl. simpl.
  destruct (index_of v) as [i|] eqn:Hindex; [|apply quiet_refl].
  destruct (truthy_index_of v i Htruthy Hindex) as [-> Hi].
  assert (forall buffer sizes,
            quiet st (set_request i buffer sizes st)) as Hrequest.
  { intros buffer sizes. split; [|by repeat split; try (intros ? ? _; left)].
    intros j (H1 & H2 & H3 & H4). split; [by apply allocated_insert|].
    split; [|done]. destruct sizes; simpl; [by apply allocated_insert|done]. }
  unfold write_request, bind, get. simpl.
  destruct (mjoin (requestsSizesArray st !! i)) as [sizes|]; [|by apply Hrequest].
  destruct (writeBuffer requestBuffer sizes elements) as [buffer sizes'].
  unfold modify, listen_and_notify, bind, get. simpl.
  destruct (workers st !! i) as [w|] eqn:Hw; [|by apply Hrequest]. simpl.
  eapply quiet_trans; [apply (Hrequest buffer (Some sizes'))|].
  split; [done|]. split; [by simpl; rewrite length_insert|].
  split; [by simpl; rewrite list_lookup_insert_ne|].
  split; [|by intros ? ? _; left].
  simpl. intros [H|H]%elem_of_app; [done|].
  apply list_elem_of_singleton in H. by injection H.
Qed.

Lemma resume_quiet (k : continuation) (worker : value) (st : State) :
  quiet st (snd (resume k worker st)).
Proof.
  destruct (truthy worker) eqn:Htruthy; [|by apply resume_falsy_quiet].
  destruct k; unfold resume, sign_with, verify_with; rewrite Htruthy; simpl.
  - unfold bind, modify. simpl.
    eapply quiet_trans; [by apply (quiet_emit (ConsoleLog worker))|by apply offload_quiet].
  - by apply offload_quiet.
Qed.

Lemma acquire_quiet (k : continuation) (attempts : Z) (st : State) :
  quiet st (snd (acquire k attempts st)).
Proof.
  unfold acquire. rewrite getAvailableWorker_cases.
  destruct (length (workers st) =? 0); [apply resume_quiet|]. cbv zeta.
  assert (quiet st (set_availableWorkers (tail (availableWorkers st)) st)) as Hshift.
  { apply (quiet_fields st _ []); try done; [by rewrite app_nil_r|by inversion 1|].
    simpl. intros v Hv. destruct (availableWorkers st); [done|]. by right. }
  destruct (negb _ && _).
  - eapply quiet_trans; [exact Hshift|].
    apply (quiet_fields _ _ []); try done; [by rewrite app_nil_r|by inversion 1].
  - eapply quiet_trans; [exact Hshift|apply resume_quiet].
Qed.

Lemma js_array_set_elements {A} (hole : A) (l : list A) (i : nat) (x v : A) :
  v ∈ js_array_set hole l i x -> v ∈ l \/ v = hole \/ v = x.
Proof.
  unfold js_array_set. destruct (i <? length l).
  - intros [j Hj]%list_elem_of_lookup_1.
    destruct (decide (i = j)) as [->|Hne].
    + apply list_lookup_insert_Some in Hj as [(_ & <- & _)|[? _]]; [by right; right|done].
    + rewrite list_lookup_insert_ne in Hj by done. left. by eapply list_elem_of_lookup_2.
  - intros [H|[H|H]%elem_of_app]%elem_of_app; [by left| |].
    + apply elem_of_replicate in H as [-> _]. by right; left.
    + apply list_elem_of_singleton in H. by right; right.
Qed.

(** A reply handler installed for a worker of the pool. *)
Lemma run_listener_quiet (l : listener) (response : Z) (st : State) :
  listener_index l < length (workers st) ->
  quiet st (snd (run_listener l response st)).
Proof.
  intros Hindex.
  assert (forall q,
            (forall v, v ∈ q -> truthy v = true ->
               v ∈ availableWorkers st
               \/ exists i, v = VNum (Z.of_nat i) /\ i < length (workers st)) ->
            quiet st (set_availableWorkers q st)) as Hrelease.
  { intros q Hq. split; [done|]. split; [done|]. split; [done|]. split; [done|]. exact Hq. }
  assert (forall c (data : list value) (what : string) s,
            quiet s (snd ((if (response <? 0)%Z
                           then call c (Some (error_of_reply data)) VUndefined
                           else match element data 0 with
                                | VBuf b => call c None (VStr (toString_utf8 b))
                                | _ => throw (TypeError_at what)
                                end) s))
            /\ quiet s (snd ((if (response <? 0)%Z
                              then call c (Some (error_of_reply data)) VUndefined
                              else match element data 0 with
                                   | VBuf b =>
                                       call c None (VBool (String.eqb (toString_utf8 b) "true"))
                                   | _ => throw (TypeError_at what)
                                   end) s))) as Hcallback.
  { intros c data what s.
    destruct (response <? 0)%Z; [split; apply call_quiet|].
    destruct (element data 0); split; try apply quiet_refl; apply call_quiet. }
  destruct l as [i c|i c]; unfold run_listener, sign_reply, verify_reply, read_reply,
    bind, get, region; simpl in Hindex |- *.
  - destruct (at_index (repliesSharedBuffers st) (VNum (Z.of_nat i))) as [[replyBuffer|]|];
      try apply quiet_refl. simpl.
    destruct (mjoin (repliesSizesArray st !! i)) as [sizes|]; [|apply quiet_refl].
    simpl. unfold modify. simpl.
    eapply quiet_trans; [apply Hrelease|apply Hcallback].
    intros v [Hv|Hv]%elem_of_app _; [by left|].
    apply list_elem_of_singleton in Hv. right. by exists i.
  - destruct (at_index (repliesSharedBuffers st) (VNum (Z.of_nat i))) as [[replyBuffer|]|];
      try apply quiet_refl. simpl.
    destruct (mjoin (repliesSizesArray st !! i)) as [sizes|]; [|apply quiet_refl].
    simpl. unfold modify. simpl.
    eapply quiet_trans; [apply Hrelease|apply Hcallback].
    intros v Hv Htruthy.
    apply js_array_set_elements in Hv as [Hv|[->| ->]]; [by left|done|done].
Qed.

Lemma worker_runs_quiet (i : nat) (st : State) :
  (forall w, workers st !! 0 = Some w -> w = unused) ->
  quiet st (worker_runs i st).
Proof.
  intros Hfirst. unfold worker_runs.
  destruct (workers st !! i) as [w|] eqn:Hw; [|apply quiet_refl].
  destruct (mjoin (requestsSharedBuffers st !! i)) as [requestBuffer|]; [|apply quiet_refl].
  destruct (mjoin (requestsSizesArray st !! i)) as [requestSizes|]; [|apply quiet_refl].
  destruct (mjoin (repliesSharedBuffers st !! i)) as [replyBuffer|]; [|apply quiet_refl].
  destruct (mjoin (repliesSizesArray st !! i)) as [replySizes|]; [|apply quiet_refl].
  destruct (inbox w) as [|n] eqn:Hinbox; [apply quiet_refl|].
  destruct (handleWorker_message requestBuffer requestSizes replyBuffer replySizes)
    as [[replyBuffer' replySizes'] status].
  assert (i <> 0) as Hi by (intros ->; by rewrite (Hfirst w Hw) in Hinbox).
  split.
  - intros j (H1 & H2 & H3 & H4). split; [done|]. split; [done|].
    split; by apply allocated_insert.
  - split; [by simpl; rewrite length_insert|].
    split; [by simpl; rewrite list_lookup_insert_ne|].
    split; [done|]. intros v Hv _. by left.
Qed.

Lemma deliver_quiet (i : nat) (st : State) :
  pool_invariant st ->
  (forall w, workers st !! 0 = Some w -> w = unused) ->
  quiet st (deliver i st).
Proof.
  intros Hinv Hfirst. unfold deliver.
  destruct (workers st !! i) as [w|] eqn:Hw; [|apply quiet_refl].
  destruct (outbox w) as [|response rest] eqn:Hout; [apply quiet_refl|].
  assert (i <> 0) as Hi by (intros ->; by rewrite (Hfirst w Hw) in Hout).
  set (w' := {| listeners := listeners w; inbox := inbox w; outbox := rest |}).
  set (st1 := set_workers (<[i:=w']> (workers st)) st).
  assert (quiet st st1) as Hquiet1.
  { split; [done|]. split; [by simpl; rewrite length_insert|].
    split; [by simpl; rewrite list_lookup_insert_ne|].
    split; [done|]. intros v Hv _. by left. }
  destruct (listeners w) as [|l ls] eqn:Hls; [done|].
  destruct (inv_listeners st Hinv i w l Hw) as [Hone Hindex]; [rewrite Hls; by left|].
  rewrite Hls in Hone. injection Hone as ->. simpl.
  eapply quiet_trans; [exact Hquiet1|].
  apply toplevel_quiet, run_listener_quiet.
  rewrite Hindex. simpl. rewrite length_insert. by eapply lookup_lt_Some.
Qed.

Lemma mjoin_default {A} (o : option (option A)) : mjoin o = default None o.
Proof. by destruct o. Qed.

(** The rounds of [startWorkers] allocate the regions of the indices they
    go through. *)
Lemma start_worker_allocated (size n : nat) (st : State) :
  forall i, i < n -> allocated (foldl (start_worker size) st (seq 0 n)) i.
Proof.
  induction n as [|n IH]; intros i Hi; [lia|].
  rewrite seq_S, foldl_app. simpl.
  set (st' := foldl (start_worker size) st (seq 0 n)) in *.
  destruct (decide (i = n)) as [->|Hne].
  - unfold allocated. simpl. by rewrite !js_array_set_lookup_eq.
  - destruct (IH i ltac:(lia)) as (H1 & H2 & H3 & H4).
    unfold allocated. simpl. rewrite !mjoin_default in *.
    rewrite !js_array_set_lookup_ne by done. done.
Qed.

Lemma startWorkers_settled (size : nat) (st : State) :
  settled st -> settled (snd (startWorkers size st)).
Proof.
  intros Hsettled. unfold startWorkers.
  destruct (length (workers st) =? 0) eqn:Hnone; [|done]. simpl.
  apply Nat.eqb_eq, nil_length_inv in Hnone.
  destruct Hsettled as [_ Hq _ Hlog]. split.
  - right. split; [by rewrite start_worker_workers, Hnone, length_seq|].
    apply start_worker_allocated.
  - by rewrite start_worker_queue.
  - intros w. rewrite start_worker_fresh, Hnone. simpl.
    intros Hw. apply lookup_replicate in Hw. by destruct Hw.
  - assert (forall indices s, log (foldl (start_worker size) s indices) = log s) as Hsame
      by (induction indices as [|i indices IH]; intros s; simpl; [done|by rewrite IH]).
    by rewrite Hsame.
Qed.

Lemma stopWorkers_settled (callback : option nat) (st : State) :
  settled st -> settled (snd (stopWorkers callback st)).
Proof.
  intros Hsettled. unfold stopWorkers.
  destruct (length (workers st) =? 0); [done|].
  destruct (emit_terminate_fields (seq 0 (length (workers st))) st) as (_ & Hq & _ & Hlog).
  destruct Hsettled as [_ Hqueue _ Hnot].
  assert (PostMessage 0 ∉ log st ++ (Terminate <$> seq 0 (length (workers st)))) as Hnot'.
  { intros [H|H]%elem_of_app; [done|].
    apply list_elem_of_fmap in H as (j & H & _). discriminate. }
  split.
  - left. by destruct callback.
  - destruct callback; simpl; by rewrite Hq.
  - intros w. by destruct callback.
  - destruct callback; simpl; by rewrite Hlog.
Qed.

Lemma step_settled (l : label) (st : State) :
  pool_invariant st -> settled st -> settled (step l st).
Proof.
  intros Hinv Hsettled.
  assert (forall m, settled (snd (m st)) -> settled (toplevel m st)) as Htop.
  { intros m. unfold toplevel. destruct (m st) as [[[]|e] st']; simpl; [done|].
    by apply quiet_settled, quiet_emit. }
  destruct l as [size|callback|a s h p c|a s i g c|n|i|i]; simpl.
  - by apply Htop, startWorkers_settled.
  - by apply Htop, stopWorkers_settled.
  - eapply quiet_settled; [apply toplevel_quiet, acquire_quiet|done].
  - eapply quiet_settled; [apply toplevel_quiet, acquire_quiet|done].
  - destruct (pending st !! n) as [t|]; [|done].
    eapply quiet_settled; [|exact Hsettled].
    eapply quiet_trans; [apply (quiet_fields st (set_pending (delete n (pending st)) st) [])|];
      try done; [by rewrite app_nil_r|by inversion 1|].
    apply toplevel_quiet. destruct t as [delay k attempts|c]; simpl.
    + apply acquire_quiet.
    + apply call_quiet.
  - eapply quiet_settled; [apply worker_runs_quiet|done]. by destruct Hsettled.
  - eapply quiet_settled; [apply deliver_quiet|done]; [done|by destruct Hsettled].
Qed.

Lemma initial_settled : settled initial.
Proof.
  split.
  - by left.
  - simpl. intros v Hv _. apply list_elem_of_fmap in Hv as (i & -> & Hi).
    exists i. split; [done|]. apply elem_of_seq in Hi. lia.
  - done.
  - simpl. by inversion 1.
Qed.

Lemma reachable_settled (st : State) : reachable st -> settled st.
Proof.
  intros [ls ->]. induction ls as [|l ls IH] using rev_ind.
  - apply initial_settled.
  - unfold run. rewrite foldl_app. simpl.
    apply step_settled; [|exact IH]. apply reachable_invariant. by exists ls.
Qed.


(** X10 (worker 0 is never used).  In every state the module can reach,
    whatever the calls, the retries and the turns of the workers that led
    to it, the worker at index 0, when the pool is started, has no
    listener, has been posted no message and has posted none, and no
    message was ever posted to it: the callbacks take index 0 for no
    worker. *)
Theorem worker_zero_is_never_used (st : State) :
  reachable st ->
  (forall w, workers st !! 0 = Some w -> w = unused)
  /\ (PostMessage 0 ∉ log st)
  /\ in_flight st 0 = 0.
Proof.
  intros Hreach. destruct (reachable_settled st Hreach) as [_ _ Hfirst Hlog].
  split; [done|]. split; [done|].
  unfold in_flight. destruct (workers st !! 0) as [w|] eqn:Hw; [|done].
  by rewrite (Hfirst w eq_refl).
Qed.

(** X11 (the shape of the pool).  In every state the module can reach the
    pool has no worker, or one worker for each processor, each with its two
    regions and their arrays of lengths; and every cell of the queue that a
    callback would use as a worker is the index of a processor, other
    than 0. *)
Theorem pool_has_one_worker_per_processor (st : State) :
  reachable st ->
  (workers st = []
   \/ (length (workers st) = cores /\ forall i, i < cores -> allocated st i))
  /\ forall v, v ∈ availableWorkers st -> truthy v = true ->
       exists i, v = VNum (Z.of_nat i) /\ 0 < i < cores.
Proof.
  intros Hreach. destruct (reachable_settled st Hreach) as [Hws Hq _ _].
  split; [done|]. intros v Hv Htruthy.
  destruct (Hq v Hv Htruthy) as (i & -> & Hi). exists i. split; [done|].
  split; [|done]. destruct i; [done|lia].
Qed.

(** X12 (a request never raises).  In every state the module can reach, a
    sign or verify request, at its first attempt or at a retry, returns
    without raising an exception as long as the callback of the request
    raises none: the worker and the regions of the index it takes from the
    queue exist. *)
Theorem request_never_raises (st : State) (k : continuation) (attempts : Z) :
  reachable st ->
  (forall err v, callback_throws (callback_of k) err v = None) ->
  fst (acquire k attempts st) = Ok tt.
Proof.
  intros Hreach Hcallback. destruct (reachable_settled st Hreach) as [Hws Hq _ _].
  assert (forall worker s, truthy worker = false -> fst (resume k worker s) = Ok tt)
    as Hfalsy.
  { intros worker s Hworker.
    destruct (resume_without_worker k worker s Hworker) as (r & -> & Hr).
    simpl. by apply Hr. }
  destruct (truthy (default VUndefined (head (availableWorkers st)))) eqn:Htruthy.
  - destruct (availableWorkers st) as [|v q] eqn:Hqueue; [done|]. simpl in Htruthy.
    destruct (Hq v ltac:(by left) Htruthy) as (i & -> & Hi).
    destruct Hws as [Hnone|[Hlen Hall]].
    + unfold acquire. rewrite getAvailableWorker_cases, Hnone. simpl. by apply Hfalsy.
    + destruct (Hall i Hi) as (H1 & H2 & H3 & H4).
      destruct (lookup_lt_is_Some_2 (workers st) i ltac:(lia)) as [w Hw].
      destruct (requestsSharedBuffers st !! i) as [[rq|]|] eqn:Hrq; try by destruct H1.
      destruct (requestsSizesArray st !! i) as [[rqs|]|] eqn:Hrqs; try by destruct H2.
      destruct (repliesSharedBuffers st !! i) as [[rp|]|] eqn:Hrp; try by destruct H3.
      assert (i <> 0) as Hne by (intros ->; done).
      by rewrite (acquire_offloads k attempts st i q w rq rp rqs Hqueue Hne Hw Hrq Hrqs Hrp).
  - unfold acquire. rewrite getAvailableWorker_cases.
    destruct (length (workers st) =? 0); [by apply Hfalsy|]. cbv zeta.
    rewrite Htruthy. simpl negb.
    destruct (0 <? attempts)%Z; simpl; [done|by apply Hfalsy].
Qed.


(** ** A listener for every reply *)

Lemma attended_same (st st' : State) : workers st' = workers st -> attended st -> attended st'.
Proof. intros Hw H i w. rewrite Hw. apply H. Qed.

Lemma attended_insert (st st' : State) (i : nat) (w w' : worker) :
  workers st !! i = Some w ->
  workers st' = <[i:=w']> (workers st) ->
  (0 < inbox w' + length (outbox w') -> listeners w' <> []) ->
  attended st -> attended st'.
Proof.
  intros Hw Hws Hw' H j wj Hj.
  destruct (listeners_insert st st' i j w w' wj Hw Hws Hj) as [[-> ->]|[_ Hj']]; [done|].
  by apply (H j).
Qed.

Lemma resume_workers (k : continuation) (worker : value) (st : State) :
  let st' := snd (resume k worker st) in
  workers st' = workers st
  \/ exists i w l,
       workers st !! i = Some w
       /\ workers st'
          = <[i:={| listeners := [l]; inbox := S (inbox w); outbox := outbox w |}]>
              (workers st).
Proof.
  destruct (truthy worker) eqn:Htruthy;
    [|left; by destruct (resume_falsy_same_pool k worker st Htruthy)].
  assert (forall elements l s, workers s = workers st ->
            workers (snd (offload worker elements l s)) = workers st
            \/ exists i w l',
                 workers st !! i = Some w
                 /\ workers (snd (offload worker elements l s))
                    = <[i:={| listeners := [l']; inbox := S (inbox w); outbox := outbox w |}]>
                        (workers st)) as Hoffload.
  { intros elements l s Hs.
    destruct (offload_pool worker elements l s) as [[Hsame _]|(i & w & _ & Hw & Hws & _)].
    - left. congruence.
    - right. exists i, w, (l i). rewrite <- Hs. by split. }
  destruct k; unfold resume, sign_with, verify_with; rewrite Htruthy; simpl.
  - unfold bind, modify. simpl. by apply Hoffload.
  - by apply Hoffload.
Qed.

Lemma acquire_attended (k : continuation) (attempts : Z) (st : State) :
  attended st -> attended (snd (acquire k attempts st)).
Proof.
  intros Hattended.
  assert (forall worker s, workers s = workers st -> attended (snd (resume k worker s)))
    as Hresume.
  { intros worker s Hs. pose proof (attended_same st s Hs Hattended) as Hs'.
    destruct (resume_workers k worker s) as [Hsame|(i & w & l & Hw & Hws)].
    - by apply (attended_same s).
    - by apply (attended_insert s _ i w _ Hw Hws). }
  unfold acquire. rewrite getAvailableWorker_cases.
  destruct (length (workers st) =? 0); [by apply Hresume|]. cbv zeta.
  destruct (negb _ && _); [by apply (attended_same st)|by apply Hresume].
Qed.

Lemma run_listeners_workers (response : Z) (ls : list listener) :
  forall st,
    workers (foldl (fun s l => toplevel (run_listener l response) s) st ls) = workers st.
Proof.
  induction ls as [|l ls IH]; intros st; simpl; [done|]. rewrite IH.
  destruct (run_listener_pool l response st) as [Hw _].
  unfold toplevel. by destruct (run_listener l response st) as [[[]|e] st'].
Qed.

Lemma step_attended (l : label) (st : State) : attended st -> attended (step l st).
Proof.
  intros Hattended.
  assert (forall m, attended (snd (m st)) -> attended (toplevel m st)) as Htop.
  { intros m. unfold toplevel. destruct (m st) as [[[]|e] st']; simpl; [done|].
    by apply attended_same. }
  assert (forall m s, attended (snd (m s)) -> attended (toplevel m s)) as Htop'.
  { intros m s. unfold toplevel. destruct (m s) as [[[]|e] st']; simpl; [done|].
    by apply attended_same. }
  destruct l as [size|callback|a s h p c|a s i g c|n|i|i]; simpl.
  - apply Htop. unfold startWorkers.
    destruct (length (workers st) =? 0) eqn:Hnone; [|done]. simpl.
    apply Nat.eqb_eq, nil_length_inv in Hnone.
    intros i w. rewrite start_worker_fresh, Hnone. simpl.
    intros Hw. apply lookup_replicate in Hw as [-> _]. simpl. lia.
  - apply Htop. unfold stopWorkers.
    destruct (length (workers st) =? 0); [done|].
    intros i w. by destruct callback.
  - by apply Htop, acquire_attended.
  - by apply Htop, acquire_attended.
  - destruct (pending st !! n) as [t|]; [|done].
    apply Htop'. destruct t as [delay k attempts|c]; simpl.
    + by apply acquire_attended, (attended_same st).
    + eapply attended_same; [|exact Hattended]. by destruct (call_same_pool c None VUndefined
        (set_pending (delete n (pending st)) st)).
  - unfold worker_runs.
    destruct (workers st !! i) as [w|] eqn:Hw; [|done].
    destruct (mjoin (requestsSharedBuffers st !! i)) as [requestBuffer|]; [|done].
    destruct (mjoin (requestsSizesArray st !! i)) as [requestSizes|]; [|done].
    destruct (mjoin (repliesSharedBuffers st !! i)) as [replyBuffer|]; [|done].
    destruct (mjoin (repliesSizesArray st !! i)) as [replySizes|]; [|done].
    destruct (inbox w) as [|n] eqn:Hinbox; [done|].
    destruct (handleWorker_message requestBuffer requestSizes replyBuffer replySizes)
      as [[replyBuffer' replySizes'] status].
    eapply (attended_insert st _ i w); [done|done| |done].
    simpl. intros _. apply (Hattended i w Hw). lia.
  - unfold deliver.
    destruct (workers st !! i) as [w|] eqn:Hw; [|done].
    destruct (outbox w) as [|response rest] eqn:Hout; [done|].
    eapply attended_same; [apply run_listeners_workers|].
    eapply (attended_insert st _ i w); [done|done| |done].
    simpl. intros _. apply (Hattended i w Hw). rewrite Hout. simpl. lia.
Qed.

Lemma reachable_attended (st : State) : reachable st -> attended st.
Proof.
  intros [ls ->]. induction ls as [|l ls IH] using rev_ind.
  - intros i w Hw. done.
  - unfold run. rewrite foldl_app. simpl. by apply step_attended.
Qed.

(** X13 (a listener for every reply).  In every state the module can reach,
    a worker that has a request to handle or a status to deliver has exactly
    one listener, the one installed for its own index by the request it
    serves: the status it posts reaches the listener of that request and no
    other. *)
Theorem every_reply_has_its_listener (st : State) (i : nat) (w : worker) :
  reachable st -> workers st !! i = Some w -> 0 < inbox w + length (outbox w) ->
  exists l, listeners w = [l] /\ listener_index l = i.
Proof.
  intros Hreach Hw Hbusy.
  pose proof (reachable_attended st Hreach i w Hw Hbusy) as Hlisteners.
  destruct (listeners w) as [|l ls] eqn:Hls; [done|]. exists l.
  destruct (inv_listeners st (reachable_invariant st Hreach) i w l Hw) as [Hone Hindex];
    [rewrite Hls; by left|].
  by rewrite <- Hone, Hls.
Qed.

End Shape.

(** ** The shape of the pool on a concrete run *)

Lemma worker_zero_is_never_used_witness :
  reachable (runtime := machine 2) serving
  /\ (forall w, workers serving !! 0 = Some w -> w = unused)
  /\ (PostMessage 0 ∉ log serving)
  /\ in_flight serving 0 = 0.
Proof.
  assert (reachable (runtime := machine 2) serving) as Hreach
    by (eexists; reflexivity).
  split; [exact Hreach|].
  exact (worker_zero_is_never_used (runtime := machine 2) serving Hreach).
Defined.

Lemma pool_has_one_worker_per_processor_witness :
  reachable (runtime := machine 2) serving
  /\ (workers serving = []
      \/ (length (workers serving) = 2 /\ forall i, i < 2 -> allocated serving i))
  /\ forall v, v ∈ availableWorkers serving -> truthy v = true ->
       exists i, v = VNum (Z.of_nat i) /\ 0 < i < 2.
Proof.
  assert (reachable (runtime := machine 2) serving) as Hreach
    by (eexists; reflexivity).
  split; [exact Hreach|].
  exact (pool_has_one_worker_per_processor (runtime := machine 2) serving Hreach).
Defined.

Lemma request_never_raises_witness :
  let k := SignWith (VStr "HS512") (VStr "secret") (VStr "e30") (VStr "e30") 7 in
  reachable (runtime := machine 2) serving
  /\ (forall err v, callback_throws (Runtime := machine 2) (callback_of k) err v = None)
  /\ fst (acquire (runtime := machine 2) k 3 serving) = Ok tt.
Proof.
  intros k.
  assert (reachable (runtime := machine 2) serving) as Hreach
    by (eexists; reflexivity).
  assert (forall err v, callback_throws (Runtime := machine 2) (callback_of k) err v = None)
    as Hcallback by (intros err v; reflexivity).
  split; [exact Hreach|]. split; [exact Hcallback|].
  exact (request_never_raises (runtime := machine 2) serving k 3 Hreach Hcallback).
Defined.

Lemma every_reply_has_its_listener_witness :
  let st :=
    run (runtime := machine 2)
      [CallStart 256;
       CallVerify (VStr "HS512") (VStr "secret") (VStr "e30.e30") (VStr sample_signature) 0;
       CallSign (VStr "HS512") (VStr "secret") (VStr "e30") (VStr "e30") 7]
      (initial (runtime := machine 2)) in
  let w := {| listeners := [SignReply 1 7]; inbox := 1; outbox := [] |} in
  reachable (runtime := machine 2) st
  /\ workers st !! 1 = Some w
  /\ 0 < inbox w + length (outbox w)
  /\ exists l, listeners w = [l] /\ listener_index l = 1.
Proof.
  intros st w.
  assert (reachable (runtime := machine 2) st) as Hreach by (eexists; reflexivity).
  assert (workers st !! 1 = Some w) as Hw by (vm_compute; reflexivity).
  assert (0 < inbox w + length (outbox w)) as Hbusy by (simpl; lia).
  split; [exact Hreach|]. split; [exact Hw|]. split; [exact Hbusy|].
  exact (every_reply_has_its_listener (runtime := machine 2) st 1 w Hreach Hw Hbusy).
Defined.

(** * Starting the pool *)

Section Starting.
Context `{crypto : Crypto} `{token_errors : TokenErrors} `{runtime : Runtime}.

Lemma js_array_set_kept {A} (l : list (option A)) (i j : nat) (v : option A) (x : A) :
  i <> j -> l !! j = Some (Some x) -> js_array_set None l i v !! j = Some (Some x).
Proof.
  intros Hne Hj. pose proof (js_array_set_lookup_ne None l i j v Hne) as Hsame.
  rewrite Hj in Hsame. simpl in Hsame.
  by destruct (js_array_set None l i v !! j) as [o|]; simpl in Hsame; subst.
Qed.

Lemma start_worker_regions (size n : nat) (st : State) :
  let st' := foldl (start_worker size) st (seq 0 n) in
  let fresh := (Some (Some (replicate size x00)), Some (Some (Int32Array (replicate 10 0%Z)))) in
  (forall i, i < n -> request_region st' i = fresh /\ reply_region st' i = fresh)
  /\ pending st' = pending st /\ log st' = log st.
Proof.
  induction n as [|n IH]; [by split; [lia|]|].
  rewrite seq_S, foldl_app. simpl.
  set (st' := foldl (start_worker size) st (seq 0 n)) in *.
  destruct IH as (Hregions & Hpending & Hlog).
  split; [|done]. intros i Hi. unfold request_region, reply_region. simpl.
  destruct (decide (i = n)) as [->|Hne].
  - by rewrite !js_array_set_lookup_eq.
  - destruct (Hregions i ltac:(lia)) as [Hrequest Hreply].
    unfold request_region, reply_region in Hrequest, Hreply.
    injection Hrequest as H1 H2. injection Hreply as H3 H4.
    assert (n <> i) as Hni by lia.
    rewrite (js_array_set_kept _ n i _ _ Hni H1), (js_array_set_kept _ n i _ _ Hni H2).
    by rewrite (js_array_set_kept _ n i _ _ Hni H3), (js_array_set_kept _ n i _ _ Hni H4).
Qed.

(** X14 ([startWorkers] on a stopped pool).  When the pool has no worker,
    [startWorkers(size)] raises nothing and creates one worker for each
    processor, none of which has a listener or a message; the request and
    reply regions of each index are new regions of [size] zero bytes, their
    arrays of lengths have ten cells holding 0, whatever these regions held
    before; the availability queue, the pending tasks and the calls made so
    far are as they were: the queue is not filled again. *)
Theorem startWorkers_allocates (size : nat) (st : State) :
  workers st = [] ->
  let fresh := (Some (Some (replicate size x00)), Some (Some (Int32Array (replicate 10 0%Z)))) in
  exists st',
    startWorkers size st = (Ok tt, st')
    /\ workers st' = replicate cores unused
    /\ (forall i, i < cores -> request_region st' i = fresh /\ reply_region st' i = fresh)
    /\ availableWorkers st' = availableWorkers st
    /\ pending st' = pending st
    /\ log st' = log st.
Proof.
  intros Hnone fresh. unfold startWorkers. rewrite Hnone. simpl.
  eexists. split; [done|].
  destruct (start_worker_regions size cores st) as (Hregions & Hpending & Hlog).
  split; [by rewrite start_worker_fresh, Hnone, length_seq|].
  split; [done|]. split; [apply start_worker_queue|done].
Qed.

End Starting.

Lemma startWorkers_allocates_witness :
  let st := snd (stopWorkers None serving) in
  workers st = []
  /\ exists st',
       startWorkers (runtime := machine 2) 8 st = (Ok tt, st')
       /\ workers st' = replicate 2 unused
       /\ (forall i, i < 2 ->
             request_region st' i
             = (Some (Some (replicate 8 x00)), Some (Some (Int32Array (replicate 10 0%Z))))
             /\ reply_region st' i
                = (Some (Some (replicate 8 x00)), Some (Some (Int32Array (replicate 10 0%Z)))))
       /\ availableWorkers st' = availableWorkers st
       /\ pending st' = pending st
       /\ log st' = log st.
Proof.
  intros st.
  assert (workers st = []) as Hnone by reflexivity.
  split; [exact Hnone|].
  exact (startWorkers_allocates (runtime := machine 2) 8 st Hnone).
Defined.

(** * A worker that cannot reply *)

Section Unanswered.
Context `{crypto : Crypto} `{token_errors : TokenErrors} `{runtime : Runtime}.

(** X15 (a failure the worker cannot report).  The first cell of the
    queue is an index [i] other than 0 whose worker is idle, the request
    fits in the request region and its lengths in their array.  When the
    operation fails in the worker and the wrapped error has no original
    error, the handler of the worker fails in turn while it frames the
    reply, and posts nothing (its [error] event only goes to the
    console).  After the call and the worker's turn the
    request has left the worker, the reply region is as it was and there is
    no status to deliver: the callback of the request has not been called
    and the index of the worker is not back in the queue. *)
Theorem unreported_failure_is_lost (k : continuation) (st : State) (i : nat)
    (q : list value) (w : worker) (rq rp : list byte) (rqs rps : sizes_array) (e : js_error) :
  availableWorkers st = VNum (Z.of_nat i) :: q -> i <> 0 ->
  slot st i w rq rqs rp rps -> inbox w = 0 -> outbox w = [] ->
  total_bytes (request_fields k) <= length rq ->
  sz_room rqs 5 (total_bytes (request_fields k)) ->
  perform (worker_view <$> request_fields k) = Throw e ->
  e_originalError
    (TokenError_wrap e codes_workerError (VStr "Cannot perform operation using worker."))
  = None ->
  let st' := run [request k; WorkerRuns i] st in
  log st' = log st ++ console k (VNum (Z.of_nat i)) ++ [PostMessage i]
  /\ availableWorkers st' = q
  /\ reply_region st' i = reply_region st i
  /\ in_flight st' i = 0
  /\ step (Deliver i) st' = st'.
Proof.
  intros Hq Hi (Hw & Hrq & Hrqs & Hrp & Hrps) Hinbox Houtbox Hfit Hroom Hperform Hnone st'.
  pose proof (lookup_lt_Some _ _ _ Hw) as Hlen.
  pose proof (lookup_lt_Some _ _ _ Hrq) as Hlen1.
  pose proof (lookup_lt_Some _ _ _ Hrqs) as Hlen2.
  pose proof (lookup_lt_Some _ _ _ Hrp) as Hlen3.
  pose proof (lookup_lt_Some _ _ _ Hrps) as Hlen4.
  assert (step (request k) st = offloaded k i w rq rqs st) as Hcall.
  { destruct k; simpl; unfold toplevel, createSignatureWithWorker, verifySignatureWithWorker;
      by rewrite (acquire_offloads _ _ _ _ _ _ _ _ _ Hq Hi Hw Hrq Hrqs Hrp). }
  destruct (offloaded_fields k i w rq rqs st) as (Ew & Eq & Erq & Erqs & Erp & Erps & _ & Elog).
  assert (st' = set_workers
                  (<[i:={| listeners := [listener_of k i]; inbox := 0; outbox := [] |}]>
                     (workers st))
                  (set_reply i rp rps (offloaded k i w rq rqs st))) as ->.
  { unfold st', run. cbn [foldl]. rewrite Hcall. cbn [step]. unfold worker_runs.
    rewrite Ew, Erq, Erqs, Erp, Erps, Hrp, Hrps.
    rewrite !list_lookup_insert_eq by lia. cbn [mjoin option_bind inbox outbox listeners].
    cbv beta iota delta [option_join].
    unfold handleWorker_message.
    rewrite (worker_reads_request k rq rqs Hfit Hroom), Hperform, Hnone.
    rewrite Hinbox, Houtbox. cbv iota beta zeta.
    by rewrite list_insert_insert_eq. }
  split; [exact Elog|]. split; [by cbn [availableWorkers set_workers set_reply]; rewrite Eq, Hq|].
  split.
  { unfold reply_region. cbn [repliesSharedBuffers repliesSizesArray set_workers set_reply].
    rewrite Erp, Erps, !list_lookup_insert_eq by lia. by rewrite Hrp, Hrps. }
  split.
  { unfold in_flight. cbn [workers set_workers]. by rewrite list_lookup_insert_eq by lia. }
  cbn [step]. unfold deliver. cbn [workers set_workers].
  by rewrite list_lookup_insert_eq by lia.
Qed.

End Unanswered.

Lemma unreported_failure_is_lost_witness :
  let k := SignWith (VStr "HS512") (VStr "secret") (VStr "e30") (VStr "e30") 7 in
  let w := {| listeners := []; inbox := 0; outbox := [] |} in
  let region := replicate 256 x00 in
  let sizes := Int32Array (replicate 10 0%Z) in
  let st' :=
    run (crypto := bare_crypto) (runtime := machine 2) [request k; WorkerRuns 1] serving in
  (availableWorkers serving = [VNum 1] /\ slot serving 1 w region sizes region sizes)
  /\ (total_bytes (request_fields k) <= length region
      /\ sz_room sizes 5 (total_bytes (request_fields k)))
  /\ perform (crypto := bare_crypto) (runtime := machine 2) (worker_view <$> request_fields k)
     = Throw bare_error
  /\ e_originalError
       (TokenError_wrap bare_error codes_workerError
          (VStr "Cannot perform operation using worker.")) = None
  /\ log st' = log serving ++ [ConsoleLog (VNum 1); PostMessage 1]
  /\ availableWorkers st' = []
  /\ reply_region st' 1 = reply_region serving 1
  /\ in_flight st' 1 = 0
  /\ step (crypto := bare_crypto) (runtime := machine 2) (Deliver 1) st' = st'.
Proof.
  intros k w region sizes st'.
  assert (availableWorkers serving = VNum (Z.of_nat 1) :: []) as Hq by reflexivity.
  assert (1 <> 0) as Hi by lia.
  assert (slot serving 1 w region sizes region sizes) as Hslot
    by (split; [|split; [|split; [|split]]]; reflexivity).
  assert (total_bytes (request_fields k) <= length region) as Hfit by (vm_compute; lia).
  assert (sz_room sizes 5 (total_bytes (request_fields k))) as Hroom
    by (split; [vm_compute; lia|reflexivity]).
  assert (perform (crypto := bare_crypto) (runtime := machine 2)
            (worker_view <$> request_fields k) = Throw bare_error) as Hperform by reflexivity.
  assert (e_originalError
            (TokenError_wrap bare_error codes_workerError
               (VStr "Cannot perform operation using worker.")) = None) as Hnone
    by reflexivity.
  split; [exact (conj Hq Hslot)|]. split; [exact (conj Hfit Hroom)|].
  split; [exact Hperform|]. split; [exact Hnone|].
  exact (unreported_failure_is_lost (crypto := bare_crypto) (runtime := machine 2) k serving 1
           [] w region region sizes sizes bare_error
           Hq Hi Hslot eq_refl eq_refl Hfit Hroom Hperform Hnone).
Defined.

(** * The retries that are pending *)

Section Retries.
Context `{crypto : Crypto} `{token_errors : TokenErrors} `{runtime : Runtime}.

Lemma call_pending (c : nat) (err : option js_error) (v : value) (st : State) :
  pending (snd (call c err v st)) = pending st.
Proof. unfold call, bind, modify. simpl. by destruct (callback_throws c err v). Qed.

Lemma emit_all_pending (events : list event) :
  forall st, pending (emit_all events st) = pending st.
Proof.
  unfold emit_all. induction events as [|e events IH]; intros st; simpl; [done|].
  by rewrite IH.
Qed.

Lemma offload_pending (v : value) (elements : list value) (l : nat -> listener) (st : State) :
  pending (snd (offload v elements l st)) = pending st.
Proof.
  unfold offload, bind, get, region. simpl.
  destruct (at_index (requestsSharedBuffers st) v) as [[requestBuffer|]|]; try done. simpl.
  destruct (at_index (repliesSharedBuffers st) v) as [[replyBuffer|]|]; try done. simpl.
  destruct (index_of v) as [i|]; [|done].
  unfold write_request, bind, get. simpl.
  destruct (mjoin (requestsSizesArray st !! i)) as [sizes|]; [|done].
  destruct (writeBuffer requestBuffer sizes elements) as [buffer sizes'].
  unfold modify, listen_and_notify, bind, get. simpl.
  by destruct (workers st !! i).
Qed.

Lemma resume_pending (k : continuation) (worker : value) (st : State) :
  pending (snd (resume k worker st)) = pending st.
Proof.
  destruct (truthy worker) eqn:Htruthy.
  - destruct k; unfold resume, sign_with, verify_with; rewrite Htruthy; simpl.
    + unfold bind, modify. simpl. by rewrite offload_pending.
    + by rewrite offload_pending.
  - destruct (resume_without_worker k worker st Htruthy) as (r & -> & _).
    simpl. apply emit_all_pending.
Qed.

(** An attempt schedules at most one retry, with one attempt less. *)
Lemma acquire_pending (k : continuation) (attempts : Z) (st : State) :
  let st' := snd (acquire k attempts st) in
  pending st' = pending st
  \/ ((0 < attempts)%Z
      /\ pending st'
         = pending st
             ++ [Retry (Qfloor (Math_random (random_calls st) * 10)) k (attempts - 1)]).
Proof.
  unfold acquire. rewrite getAvailableWorker_cases.
  destruct (length (workers st) =? 0); [left; apply resume_pending|]. cbv zeta.
  destruct (negb _) eqn:Hfalsy; simpl.
  - destruct (Z.ltb_spec 0 attempts) as [Hpos|_]; [by right|].
    left. by rewrite resume_pending.
  - left. by rewrite resume_pending.
Qed.

Lemma acquire_modest (k : continuation) (attempts : Z) (st : State) :
  (forall n, (0 <= Math_random n)%Q /\ (Math_random n < 1)%Q) ->
  (attempts <= 3)%Z ->
  Forall modest (pending st) -> Forall modest (pending (snd (acquire k attempts st))).
Proof.
  intros Hrandom Hattempts Hmodest.
  destruct (acquire_pending k attempts st) as [->|[Hpos ->]]; [done|].
  apply Forall_app. split; [done|]. apply Forall_singleton. unfold modest.
  destruct (Hrandom (random_calls st)) as [H0 H1].
  pose proof (backoff_delay_range _ H0 H1). lia.
Qed.

Lemma run_listener_pending (l : listener) (response : Z) (st : State) :
  pending (snd (run_listener l response st)) = pending st.
Proof.
  destruct l as [i c|i c]; unfold run_listener, sign_reply, verify_reply, read_reply,
    bind, get, region; simpl.
  - destruct (at_index (repliesSharedBuffers st) (VNum (Z.of_nat i))) as [[replyBuffer|]|];
      try done. simpl.
    destruct (mjoin (repliesSizesArray st !! i)) as [sizes|]; [|done]. simpl.
    unfold modify. simpl.
    destruct (response <? 0)%Z; [by rewrite call_pending|].
    destruct (element _ 0); try done. by rewrite call_pending.
  - destruct (at_index (repliesSharedBuffers st) (VNum (Z.of_nat i))) as [[replyBuffer|]|];
      try done. simpl.
    destruct (mjoin (repliesSizesArray st !! i)) as [sizes|]; [|done]. simpl.
    unfold modify. simpl.
    destruct (response <? 0)%Z; [by rewrite call_pending|].
    destruct (element _ 0); try done. by rewrite call_pending.
Qed.

Lemma toplevel_pending (m : M unit) (st : State) :
  pending (toplevel m st) = pending (snd (m st)).
Proof. unfold toplevel. by destruct (m st) as [[[]|e] st']. Qed.

Lemma step_modest (l : label) (st : State) :
  (forall n, (0 <= Math_random n)%Q /\ (Math_random n < 1)%Q) ->
  Forall modest (pending st) -> Forall modest (pending (step l st)).
Proof.
  intros Hrandom Hmodest.
  destruct l as [size|callback|a s h p c|a s i g c|n|i|i]; simpl.
  - rewrite toplevel_pending. unfold startWorkers.
    destruct (negb _); [done|]. simpl.
    by destruct (start_worker_regions size cores st) as (_ & -> & _).
  - rewrite toplevel_pending. unfold stopWorkers.
    destruct (length (workers st) =? 0); [done|].
    destruct (emit_terminate_fields (seq 0 (length (workers st))) st) as (_ & _ & Hp & _).
    destruct callback; simpl; rewrite Hp; [|done].
    apply Forall_app. split; [done|]. by apply Forall_singleton.
  - rewrite toplevel_pending. by apply acquire_modest.
  - rewrite toplevel_pending. by apply acquire_modest.
  - destruct (pending st !! n) as [t|] eqn:Ht; [|done].
    rewrite toplevel_pending.
    assert (Forall modest (delete n (pending st))) as Hrest by by apply Forall_delete.
    destruct t as [delay k attempts|c]; simpl.
    + apply acquire_modest; [done| |done].
      rewrite Forall_lookup in Hmodest. specialize (Hmodest n _ Ht). simpl in Hmodest. lia.
    + by rewrite call_pending.
  - unfold worker_runs.
    destruct (workers st !! i) as [w|]; [|done].
    destruct (mjoin (requestsSharedBuffers st !! i)) as [requestBuffer|]; [|done].
    destruct (mjoin (requestsSizesArray st !! i)) as [requestSizes|]; [|done].
    destruct (mjoin (repliesSharedBuffers st !! i)) as [replyBuffer|]; [|done].
    destruct (mjoin (repliesSizesArray st !! i)) as [replySizes|]; [|done].
    destruct (inbox w) as [|n]; [done|].
    by destruct (handleWorker_message requestBuffer requestSizes replyBuffer replySizes)
      as [[replyBuffer' replySizes'] status].
  - unfold deliver.
    destruct (workers st !! i) as [w|]; [|done].
    destruct (outbox w) as [|response rest]; [done|].
    assert (forall ls s, pending (foldl (fun s l => toplevel (run_listener l response) s) s ls)
                         = pending s) as Hsame.
    { induction ls as [|l ls IH]; intros s; simpl; [done|].
      by rewrite IH, toplevel_pending, run_listener_pending. }
    by rewrite Hsame.
Qed.


End Retries.


(** * Fields the worker cannot read *)

Section EmptyFields.
Context `{crypto : Crypto} `{token_errors : TokenErrors} `{runtime : Runtime}.

Lemma worker_view_nothing (element : value) :
  field_bytes element = [] -> worker_view element = VUndefined.
Proof. intros Hempty. unfold worker_view. by rewrite Hempty. Qed.

(** X17 (fields the worker cannot read).  An algorithm that is framed with
    no byte (an empty string, or a value that is neither a string nor a
    Buffer) is read as [undefined] by the worker, and so is the signature
    of a verify request: the handler raises a [TypeError] when it converts
    them to strings, before the adapter is called, whatever the adapter
    would have done with the values the caller passed. *)
Theorem worker_does_not_read_empty_fields (algorithm secret headerOrInput
    payloadOrSignature : value) (c : nat) :
  (field_bytes algorithm = [] ->
   perform (worker_view
              <$> request_fields (SignWith algorithm secret headerOrInput payloadOrSignature c))
   = Throw (TypeError_at "algorithm")
   /\ perform (worker_view
                 <$> request_fields
                       (VerifyWith algorithm secret headerOrInput payloadOrSignature c))
      = Throw (TypeError_at "algorithm"))
  /\ (field_bytes algorithm <> [] -> field_bytes payloadOrSignature = [] ->
      perform (worker_view
                 <$> request_fields
                       (VerifyWith algorithm secret headerOrInput payloadOrSignature c))
      = Throw (TypeError_at "payloadOrSignature")).
Proof.
  split.
  - intros Hempty. unfold perform, element. simpl.
    fold (worker_view algorithm). by rewrite (worker_view_nothing _ Hempty).
  - intros Halgorithm Hempty. unfold perform, element. simpl.
    fold (worker_view algorithm) (worker_view payloadOrSignature).
    rewrite (worker_view_nothing _ Hempty).
    unfold worker_view, read_back. by destruct (field_bytes algorithm).
Qed.

End EmptyFields.

Lemma worker_does_not_read_empty_fields_witness :
  (field_bytes (VNum 512) = []
   /\ field_bytes (VStr "HS512") <> [] /\ field_bytes (VStr "") = [])
  /\ perform (runtime := machine 2)
       (worker_view
          <$> request_fields (SignWith (VNum 512) (VStr "secret") (VStr "e30") (VStr "e30") 7))
     = Throw (TypeError_at (Runtime := machine 2) "algorithm")
  /\ perform (runtime := machine 2)
       (worker_view
          <$> request_fields
                (VerifyWith (VStr "HS512") (VStr "secret") (VStr "e30.e30") (VStr "") 7))
     = Throw (TypeError_at (Runtime := machine 2) "payloadOrSignature")
  /\ in_process (SignWith (VNum 512) (VStr "secret") (VStr "e30") (VStr "e30") 7)
     = Ok (VStr sample_signature).
Proof.
  assert (field_bytes (VNum 512) = []) as Hnumber by reflexivity.
  assert (field_bytes (VStr "HS512") <> []) as Halgorithm by discriminate.
  assert (field_bytes (VStr "") = []) as Hempty by reflexivity.
  split; [exact (conj Hnumber (conj Halgorithm Hempty))|].
  split; [exact (proj1 (proj1 (worker_does_not_read_empty_fields (runtime := machine 2)
                                 (VNum 512) (VStr "secret") (VStr "e30") (VStr "e30") 7)
                          Hnumber))|].
  split; [exact (proj2 (worker_does_not_read_empty_fields (runtime := machine 2)
                          (VStr "HS512") (VStr "secret") (VStr "e30.e30") (VStr "") 7)
                   Halgorithm Hempty)|].
  reflexivity.
Defined.
